(** * Stuff Happens: game-session engine and round judge

    A shallow embedding of the server side of the card game
    (server/routes.mjs, server/dao-games.mjs, server/dao-cards.mjs and the
    schema of server/db.mjs), with the properties of the game-session
    specification stated and proved over it.

    Conventions of the embedding:
    - SQL [INTEGER] columns are [Z], [TEXT] columns are [string],
      the [REAL] column bad_luck_index is a rational [Q] (every finite
      double is a rational and the code only compares these values);
    - a nullable column is an [option];
    - the SQLite connection is an explicit state threaded through a small
      state-and-exception monad; an [await] that rejects is a [Throw];
    - [dayjs().toISOString()] and [ORDER BY RANDOM()] are inputs of the
      operation that reads them (a timestamp, a list of picks);
    - a handler in the monad serves one request from start to end; two
      requests in flight on the shared connection are interleaved, one
      awaited statement at a time, in [Async]. *)

From Stdlib Require Import String List ZArith QArith Bool Lia.
From Stdlib Require Import Permutation Sorted.
Import ListNotations.

Local Open Scope string_scope.
Local Open Scope list_scope.
Local Open Scope Z_scope.

(** ** Rows of the four tables (server/db.mjs, initializeDatabase) *)

Record card := mkCard {
  c_id : Z;
  c_name : string;
  c_image : string;
  c_bad_luck_index : Q;
  c_theme : string
}.

Record game := mkGame {
  g_id : Z;
  g_user_id : Z;
  g_start_time : string;
  g_end_time : string;
  g_outcome : string;
  g_cards_collected : Z
}.

Record game_card := mkGameCard {
  gc_id : Z;
  gc_game_id : Z;
  gc_card_id : Z;
  gc_status : string;
  gc_round : option Z;
  gc_guess_time : option string;
  gc_is_correct_guess : option Z
}.

(** The four columns every [SELECT id, name, image, bad_luck_index FROM cards]
    of dao-cards.mjs returns. *)
Record card_details := mkDetails {
  cd_id : Z;
  cd_name : string;
  cd_image : string;
  cd_bad_luck_index : Q
}.

Definition select_details (c : card) : card_details :=
  mkDetails (c_id c) (c_name c) (c_image c) (c_bad_luck_index c).

(** The database: the tables in insertion (rowid) order, and the
    AUTOINCREMENT counters of the two tables the engine inserts into. *)
Record db := mkDb {
  users : list Z;
  cards : list card;
  games : list game;
  game_cards : list game_card;
  games_seq : Z;
  game_cards_seq : Z
}.

(** ** Sorting: [arr.sort(cmp)] of the handlers and SQL [ORDER BY]

    Both are modelled by one stable sort along a boolean "comes no later
    than" test. *)

Section StableSort.
Context {A : Type} (leb : A -> A -> bool).

Fixpoint insert_sorted (x : A) (l : list A) : list A :=
  match l with
  | [] => [x]
  | y :: t => if leb x y then x :: l else y :: insert_sorted x t
  end.

Fixpoint stable_sort (l : list A) : list A :=
  match l with
  | [] => []
  | x :: t => insert_sorted x (stable_sort t)
  end.
End StableSort.

(** ** JavaScript array helpers used by the route handlers *)

Module Js.

(** [arr.splice(start, 0, item)]: a negative [start] counts from the end
    and stops at 0, a [start] above the length is the length. *)
Definition splice_start (len start : Z) : Z :=
  if start <? 0 then Z.max (len + start) 0 else Z.min start len.

Definition splice_insert {A : Type} (arr : list A) (start : Z) (item : A)
  : list A :=
  let k := Z.to_nat (splice_start (Z.of_nat (length arr)) start) in
  firstn k arr ++ item :: skipn k arr.

(** [a > b] on two numbers that are not NaN. *)
Definition gt (a b : Q) : bool := negb (Qle_bool a b).

(** What [express.json()] hands to a handler where a number is expected:
    nothing ([undefined]), [null], a boolean or a number; [N] is [Z] for
    ids, placement index and round number, and [Q] for a bad_luck_index.
    Strings, arrays, objects and, where [N] is [Z], numbers with a
    fraction are outside the embedding. *)
Inductive value (N : Type) :=
| Undefined
| Null
| Bool (b : bool)
| Num (n : N).
Arguments Undefined {N}.
Arguments Null {N}.
Arguments Bool {N} b.
Arguments Num {N} n.

(** [Number(v)]; [None] is NaN. *)
Definition ToNumber {N : Type} (of_Z : Z -> N) (v : value N) : option N :=
  match v with
  | Undefined => None
  | Null => Some (of_Z 0)
  | Bool true => Some (of_Z 1)
  | Bool false => Some (of_Z 0)
  | Num n => Some n
  end.

(** [isNaN(v)]: [Number(v)] is NaN. *)
Definition isNaN (v : value Z) : bool :=
  match ToNumber (fun z => z) v with
  | None => true
  | Some _ => false
  end.

(** The integer [splice] makes of its first argument: NaN counts as 0. *)
Definition ToIntegerOrInfinity (v : value Z) : Z :=
  match ToNumber (fun z => z) v with
  | None => 0
  | Some z => z
  end.

(** [a > b] on two values read from the request: both are converted with
    [Number], and a comparison with NaN is false. *)
Definition gt_value (a b : value Q) : bool :=
  match ToNumber inject_Z a, ToNumber inject_Z b with
  | Some x, Some y => gt x y
  | _, _ => false
  end.

(** An element of a hand sent by the client, as far as the judge reads it:
    [null], on which reading a property throws a TypeError, or anything
    else with what its [bad_luck_index] property holds ([Undefined] when the
    element has none, as for a number or an array). *)
Inductive element :=
| NullElement
| Element (bad_luck_index : value Q).

End Js.

(** ** The round judge (routes.mjs, the loop of both guess handlers) *)

(** An element of the hand as the game page sends it:
    [{ id, bad_luck_index }] with a number as index.  What the judge makes
    of other elements is in [Untyped] below. *)
Record hand_entry := mkEntry {
  h_id : Z;
  h_bad_luck_index : Q
}.

Definition entry_of_card (c : card_details) : hand_entry :=
  mkEntry (cd_id c) (cd_bad_luck_index c).

(** [for (i = 0; i < tempHand.length - 1; i++)
       if (tempHand[i].bad_luck_index > tempHand[i+1].bad_luck_index)
         { isCorrect = false; break; }] *)
Fixpoint handStillSorted (tempHand : list hand_entry) : bool :=
  match tempHand with
  | a :: (b :: _) as rest =>
      if Js.gt (h_bad_luck_index a) (h_bad_luck_index b) then false
      else handStillSorted rest
  | _ => true
  end.

(** POST /api/games/:gameId/guess, lines 167-182. *)
Definition guessIsCorrect (playerHand : list hand_entry) (placementIndex : Z)
  (newCardDetails : card_details) : bool :=
  let tempHand :=
    Js.splice_insert playerHand placementIndex (entry_of_card newCardDetails) in
  handStillSorted tempHand.

(** POST /api/demo-game/guess, lines 324-336. *)
Definition demoIsCorrect (initialCards : list hand_entry) (placementIndex : Z)
  (newCardDetails : card_details) : bool :=
  let tempHand :=
    Js.splice_insert initialCards placementIndex (entry_of_card newCardDetails) in
  let fix scan (l : list hand_entry) : bool :=
    match l with
    | a :: (b :: _) as rest =>
        if Js.gt (h_bad_luck_index a) (h_bad_luck_index b) then false
        else scan rest
    | _ => true
    end in
  scan tempHand.

(** ** The SQLite connection

    One process-wide connection (db.mjs, [dbPromise]).  A statement may
    fail on a constraint of the schema, on a misuse of BEGIN / COMMIT /
    ROLLBACK, or on a storage fault; the faults to come are part of the
    connection state, one flag per statement ([true]: this statement fails
    with an I/O error and changes nothing).  A failed statement leaves the
    database as it was (SQLite's ABORT resolution) and leaves an open
    transaction open.  ROLLBACK of an open transaction is not subject to
    faults.  What a handler can catch besides a rejected statement is the
    TypeError of reading a property of [null]; it is listed with the
    errors of SQLite, as both reach the same [catch]. *)

Inductive sql_error :=
| SQLITE_IOERR
| SQLITE_CONSTRAINT_FOREIGNKEY
| SQLITE_CONSTRAINT_UNIQUE
| SQLITE_CONSTRAINT_NOTNULL
| SQLITE_ERROR
| JS_TYPE_ERROR.

Record conn := mkConn {
  store : db;
  tx : option db;
  faults : list bool
}.

Inductive result (A : Type) :=
| Ok (a : A)
| Throw (e : sql_error).
Arguments Ok {A} a.
Arguments Throw {A} e.

Definition M (A : Type) : Type := conn -> result A * conn.

Definition ret {A : Type} (a : A) : M A := fun c => (Ok a, c).

Definition throw {A : Type} (e : sql_error) : M A := fun c => (Throw e, c).

Definition bind {A B : Type} (m : M A) (k : A -> M B) : M B :=
  fun c =>
    match m c with
    | (Ok a, c') => k a c'
    | (Throw e, c') => (Throw e, c')
    end.

(** [try { m } catch (err) { h(err) }] *)
Definition try_catch {A : Type} (m : M A) (h : sql_error -> M A) : M A :=
  fun c =>
    match m c with
    | (Ok a, c') => (Ok a, c')
    | (Throw e, c') => h e c'
    end.

Notation "x <- m ;; k" := (bind m (fun x => k))
  (at level 61, m at next level, right associativity).
Notation "m ;;; k" := (bind m (fun _ => k))
  (at level 61, right associativity).

(** [for (const x of xs) { await f(x); }] *)
Fixpoint for_each {A : Type} (f : A -> M unit) (xs : list A) : M unit :=
  match xs with
  | [] => ret tt
  | x :: rest => f x ;;; for_each f rest
  end.

(** [await Promise.all(xs.map(async x => f(x)))], on one connection. *)
Fixpoint map_all {A B : Type} (f : A -> M B) (xs : list A) : M (list B) :=
  match xs with
  | [] => ret []
  | x :: rest => y <- f x ;; ys <- map_all f rest ;; ret (y :: ys)
  end.

(** Every statement first consumes its fault flag. *)
Definition io : M unit :=
  fun c =>
    match faults c with
    | [] => (Ok tt, c)
    | false :: fs => (Ok tt, mkConn (store c) (tx c) fs)
    | true :: fs => (Throw SQLITE_IOERR, mkConn (store c) (tx c) fs)
    end.

(** [db.get] / [db.all]: a SELECT. *)
Definition db_query {A : Type} (q : db -> A) : M A :=
  io ;;; fun c => (Ok (q (store c)), c).

(** [db.run] of an INSERT or UPDATE. *)
Definition db_exec {A : Type} (stmt : db -> result A * db) : M A :=
  io ;;; fun c =>
    match stmt (store c) with
    | (Ok a, d) => (Ok a, mkConn d (tx c) (faults c))
    | (Throw e, _) => (Throw e, c)
    end.

Definition db_begin : M unit :=
  io ;;; fun c =>
    match tx c with
    | Some _ => (Throw SQLITE_ERROR, c)
    | None => (Ok tt, mkConn (store c) (Some (store c)) (faults c))
    end.

Definition db_commit : M unit :=
  io ;;; fun c =>
    match tx c with
    | Some _ => (Ok tt, mkConn (store c) None (faults c))
    | None => (Throw SQLITE_ERROR, c)
    end.

Definition db_rollback : M unit :=
  fun c =>
    match tx c with
    | Some saved => (Ok tt, mkConn saved None (faults c))
    | None => (Throw SQLITE_ERROR, c)
    end.

(** [db.prepare] and [stmt.finalize] touch no row. *)
Definition db_prepare : M unit := io.
Definition db_finalize : M unit := io.

(** *** The two INSERTs and the UPDATE, with the schema's constraints *)

Definition has_user (d : db) (userId : Z) : bool :=
  existsb (fun u => u =? userId) (users d).

Definition has_game (d : db) (gameId : Z) : bool :=
  existsb (fun g => g_id g =? gameId) (games d).

Definition has_card (d : db) (cardId : Z) : bool :=
  existsb (fun c => c_id c =? cardId) (cards d).

Definition has_game_card (d : db) (gameId cardId : Z) : bool :=
  existsb (fun r => (gc_game_id r =? gameId) && (gc_card_id r =? cardId))
    (game_cards d).

(** [INSERT INTO games (user_id, start_time, end_time, outcome,
    cards_collected) VALUES (?, ?, ?, ?, ?)]; the result is [lastID]. *)
Definition insert_game (userId : Z) (startTime endTime outcome : string)
  (cardsCollected : Z) (d : db) : result Z * db :=
  if has_user d userId then
    let id := games_seq d + 1 in
    (Ok id,
     mkDb (users d) (cards d)
       (games d ++ [mkGame id userId startTime endTime outcome cardsCollected])
       (game_cards d) id (game_cards_seq d))
  else (Throw SQLITE_CONSTRAINT_FOREIGNKEY, d).

(** [INSERT INTO game_cards (game_id, card_id, status, round, guess_time,
    is_correct_guess) VALUES (...)], under [UNIQUE (game_id, card_id)] and
    the two foreign keys. *)
Definition insert_game_card (gameId cardId : Z) (status : string)
  (round : option Z) (guessTime : option string) (isCorrect : option Z)
  (d : db) : result unit * db :=
  if has_game_card d gameId cardId then (Throw SQLITE_CONSTRAINT_UNIQUE, d)
  else if has_game d gameId && has_card d cardId then
    let id := game_cards_seq d + 1 in
    (Ok tt,
     mkDb (users d) (cards d) (games d)
       (game_cards d ++
          [mkGameCard id gameId cardId status round guessTime isCorrect])
       (games_seq d) id)
  else (Throw SQLITE_CONSTRAINT_FOREIGNKEY, d).

(** [UPDATE games SET end_time = ?, outcome = ?, cards_collected = ?
    WHERE id = ?] *)
Definition update_game (endTime outcome : string) (cardsCollected gameId : Z)
  (d : db) : result unit * db :=
  (Ok tt,
   mkDb (users d) (cards d)
     (map (fun g =>
             if g_id g =? gameId
             then mkGame (g_id g) (g_user_id g) (g_start_time g)
                    endTime outcome cardsCollected
             else g) (games d))
     (game_cards d) (games_seq d) (game_cards_seq d)).

(** ** server/dao-cards.mjs

    The [try { ... } catch (err) { console.error(...); throw err; }] around
    every DAO body rethrows what it caught, so it is left out. *)

(** [ORDER BY RANDOM()]: the order is chosen by the engine's random source,
    here a list of picks: each pick selects, by its remainder, the next row
    among those not yet taken; a missing pick counts as 0. *)
Fixpoint shuffle {A : Type} (fuel : nat) (picks : list nat) (rows : list A)
  : list A :=
  match fuel, rows with
  | S fuel', r0 :: _ =>
      let k := Nat.modulo (hd O picks) (List.length rows) in
      nth k rows r0 ::
        shuffle fuel' (tl picks) (firstn k rows ++ skipn (S k) rows)
  | _, _ => []
  end.

Definition order_by_random {A : Type} (picks : list nat) (rows : list A)
  : list A :=
  shuffle (List.length rows) picks rows.

(** [WHERE id NOT IN (?, ..., ?)] *)
Definition not_in (excludeCardIds : list Z) (c : card) : bool :=
  negb (existsb (fun x => c_id c =? x) excludeCardIds).

Definition getRandomCards (picks : list nat) (limit : nat)
  (excludeCardIds : list Z) : M (list card_details) :=
  db_query (fun d =>
    let rows :=
      match excludeCardIds with
      | [] => cards d
      | _ :: _ => filter (not_in excludeCardIds) (cards d)
      end in
    map select_details (firstn limit (order_by_random picks rows))).

Definition getCardById (cardId : Z) : M (option card_details) :=
  db_query (fun d =>
    option_map select_details (find (fun c => c_id c =? cardId) (cards d))).

(** ** server/dao-games.mjs *)

Definition startGame (startTime : string) (userId : Z)
  (initialCards : list card_details) : M Z :=
  try_catch
    (db_begin ;;;
     gameId <- db_exec (insert_game userId startTime "" "" 0) ;;
     db_prepare ;;;
     for_each
       (fun card =>
          db_exec (insert_game_card gameId (cd_id card) "initial"
                     None None None))
       initialCards ;;;
     db_finalize ;;;
     db_commit ;;;
     ret gameId)
    (fun err => db_rollback ;;; throw err).

Definition sql_bool (isCorrectGuess : option bool) : option Z :=
  match isCorrectGuess with
  | Some true => Some 1
  | Some false => Some 0
  | None => None
  end.

Definition recordRoundOutcome (guessTime : string) (gameId cardId : Z)
  (status : string) (roundNumber : Z) (isCorrectGuess : option bool)
  : M unit :=
  db_exec (insert_game_card gameId cardId status (Some roundNumber)
             (Some guessTime) (sql_bool isCorrectGuess)).

Definition endGame (endTime : string) (gameId : Z) (outcome : string)
  (cardsCollected : Z) : M unit :=
  db_exec (update_game endTime outcome cardsCollected gameId).

(** A row of [getGameCards]: the card's columns and the event's. *)
Record game_card_details := mkGameCardDetails {
  gd_id : Z;
  gd_name : string;
  gd_image : string;
  gd_bad_luck_index : Q;
  gd_status : string;
  gd_round : option Z;
  gd_guess_time : option string;
  gd_is_correct_guess : option Z
}.

Definition joined_row (gc : game_card) (c : card) : game_card_details :=
  mkGameCardDetails (c_id c) (c_name c) (c_image c) (c_bad_luck_index c)
    (gc_status gc) (gc_round gc) (gc_guess_time gc) (gc_is_correct_guess gc).

(** [FROM game_cards gc JOIN cards c ON gc.card_id = c.id
    WHERE gc.game_id = ?] *)
Definition join_game_cards (d : db) (gameId : Z) : list game_card_details :=
  flat_map
    (fun gc =>
       map (joined_row gc)
         (filter (fun c => gc_card_id gc =? c_id c) (cards d)))
    (filter (fun gc => gc_game_id gc =? gameId) (game_cards d)).

Definition by_bad_luck_index_asc (a b : game_card_details) : bool :=
  Qle_bool (gd_bad_luck_index a) (gd_bad_luck_index b).

Definition getGameCards (gameId : Z) : M (list game_card_details) :=
  db_query (fun d => stable_sort by_bad_luck_index_asc (join_game_cards d gameId)).

(** A game of the history: [{ ...game, gameCards }] over the columns
    [id, start_time, end_time, outcome, cards_collected]. *)
Record history_game := mkHistoryGame {
  hg_id : Z;
  hg_start_time : string;
  hg_end_time : string;
  hg_outcome : string;
  hg_cards_collected : Z;
  hg_gameCards : list game_card_details
}.

Definition by_start_time_desc (a b : game) : bool :=
  String.leb (g_start_time b) (g_start_time a).

Definition games_of_user (d : db) (userId : Z) : list game :=
  filter (fun g => g_user_id g =? userId) (games d).

Definition getGameHistory (userId : Z) : M (list history_game) :=
  games <- db_query (fun d =>
             stable_sort by_start_time_desc (games_of_user d userId)) ;;
  map_all
    (fun game =>
       gameCards <- getGameCards (g_id game) ;;
       ret (mkHistoryGame (g_id game) (g_start_time game) (g_end_time game)
              (g_outcome game) (g_cards_collected game) gameCards))
    games.

(** [SELECT COUNT( * )] *)
Definition count_rows {A : Type} (p : A -> bool) (rows : list A) : Z :=
  Z.of_nat (List.length (filter p rows)).

(** [WHERE game_id = ? AND status = 'won'] *)
Definition is_won_row (gameId : Z) (r : game_card) : bool :=
  (gc_game_id r =? gameId) && (gc_status r =? "won")%string.

Definition getWonCardsCount (gameId : Z) : M Z :=
  db_query (fun d => count_rows (is_won_row gameId) (game_cards d)).

(** [WHERE game_id = ? AND (status = 'lost' OR
      (status = 'proposed' AND is_correct_guess = 0))];
    a NULL flag makes the comparison with 0 unknown, so the row is not
    counted. *)
Definition is_lost_row (gameId : Z) (r : game_card) : bool :=
  (gc_game_id r =? gameId) &&
  ((gc_status r =? "lost")%string ||
   ((gc_status r =? "proposed")%string &&
    match gc_is_correct_guess r with
    | Some flag => flag =? 0
    | None => false
    end)).

Definition getLostRoundsCount (gameId : Z) : M Z :=
  db_query (fun d => count_rows (is_lost_row gameId) (game_cards d)).

(** [SELECT card_id FROM game_cards WHERE game_id = ?] *)
Definition involved_ids (d : db) (gameId : Z) : list Z :=
  map gc_card_id (filter (fun r => gc_game_id r =? gameId) (game_cards d)).

Definition getInvolvedCardIds (gameId : Z) : M (list Z) :=
  db_query (fun d => involved_ids d gameId).

(** ** server/routes.mjs

    A handler maps the connection to the response it sends and the
    connection it leaves.  A request value on which the handler calls
    [isNaN] is here an [option Z]: a number, or [None] for a value on
    which [isNaN] holds; a value tested with [Array.isArray] is an
    [option] of a list.  The values that pass [isNaN] without being
    numbers ([null], booleans) are taken up in [Untyped] below.
    Authentication ([isLoggedIn]) is outside the engine. *)

Inductive response (A : Type) :=
| Json (status : nat) (body : A)
| JsonError (status : nat) (error : string).
Arguments Json {A} status body.
Arguments JsonError {A} status error.

Definition handler (A : Type) : Type := conn -> response A * conn.

Definition reject {A : Type} (status : nat) (error : string) : handler A :=
  fun c => (JsonError status error, c).

(** [try { body } catch (err) { res.status(500).json({ error }) }] *)
Definition handle {A : Type} (error : string) (body : M (response A))
  : handler A :=
  fun c =>
    match body c with
    | (Ok r, c') => (r, c')
    | (Throw _, c') => (JsonError 500 error, c')
    end.

Definition by_index_asc (a b : card_details) : bool :=
  Qle_bool (cd_bad_luck_index a) (cd_bad_luck_index b).

Record start_body := mkStartBody {
  sb_gameId : Z;
  sb_initialCards : list card_details
}.

(** POST /api/games/start *)
Definition postGamesStart (picks : list nat) (startTime : string)
  (userId : Z) : handler start_body :=
  handle "Failed to start game."
    (initialCards <- getRandomCards picks 3 [] ;;
     if (List.length initialCards <? 3)%nat
     then ret (JsonError 500 "Not enough cards to start a game.")
     else
       let initialCards := stable_sort by_index_asc initialCards in
       gameId <- startGame startTime userId initialCards ;;
       ret (Json 201 (mkStartBody gameId initialCards))).

Record next_round_body := mkNextRound {
  nr_id : Z;
  nr_name : string;
  nr_image : string
}.

(** GET /api/games/:gameId/next-round, lines 130-137: what is sent once
    the draw is known. *)
Definition next_round_answer (newCards : list card_details)
  : response next_round_body :=
  match newCards with
  | [] => JsonError 404 "No more unique cards available for this game."
  | newCard :: _ =>
      Json 200
        (mkNextRound (cd_id newCard) (cd_name newCard) (cd_image newCard))
  end.

(** GET /api/games/:gameId/next-round *)
Definition getNextRound (picks : list nat) (gameId : option Z)
  : handler next_round_body :=
  match gameId with
  | None => reject 400 "Invalid game ID."
  | Some gameId =>
      handle "Failed to get next round card."
        (involvedCardIds <- getInvolvedCardIds gameId ;;
         newCards <- getRandomCards picks 1 involvedCardIds ;;
         ret (next_round_answer newCards))
  end.

(** [['initial', 'won'].includes(c.status)] *)
Definition in_possession (c : game_card_details) : bool :=
  (gd_status c =? "initial")%string || (gd_status c =? "won")%string.

Record guess_body := mkGuessBody {
  gb_isCorrect : bool;
  gb_badLuckIndex : Q;
  gb_wonCard : option card_details;
  gb_currentCards : list game_card_details;
  gb_gameOutcome : option string;
  gb_cardsWonCount : Z;
  gb_cardsLostCount : Z
}.

(** POST /api/games/:gameId/guess; [guessTime] and [endTime] are the two
    readings of the clock, in [recordRoundOutcome] and in [endGame]. *)
Definition postGuess (guessTime endTime : string) (gameId cardId : option Z)
  (playerHand : option (list hand_entry)) (placementIndex roundNumber : option Z)
  : handler guess_body :=
  match gameId, cardId, playerHand, placementIndex, roundNumber with
  | Some gameId, Some cardId, Some playerHand, Some placementIndex,
    Some roundNumber =>
      handle "Failed to process guess."
        (newCardDetails <- getCardById cardId ;;
         match newCardDetails with
         | None => ret (JsonError 404 "New card not found.")
         | Some newCardDetails =>
             let isCorrect :=
               guessIsCorrect playerHand placementIndex newCardDetails in
             let status := if isCorrect then "won" else "lost" in
             recordRoundOutcome guessTime gameId cardId status roundNumber
               (Some isCorrect) ;;;
             currentCards <- getGameCards gameId ;;
             let currentCards := filter in_possession currentCards in
             cardsWonCount <- getWonCardsCount gameId ;;
             cardsLostCount <- getLostRoundsCount gameId ;;
             gameOutcome <-
               (if 3 <=? cardsWonCount then
                  endGame endTime gameId "Won"
                    (Z.of_nat (List.length currentCards)) ;;;
                  ret (Some "Won")
                else if 3 <=? cardsLostCount then
                  endGame endTime gameId "Lost"
                    (Z.of_nat (List.length currentCards)) ;;;
                  ret (Some "Lost")
                else ret None) ;;
             ret (Json 200
                    (mkGuessBody isCorrect
                       (cd_bad_luck_index newCardDetails)
                       (if isCorrect then Some newCardDetails else None)
                       currentCards gameOutcome cardsWonCount cardsLostCount))
         end)
  | _, _, _, _, _ => reject 400 "Invalid input for guess."
  end.

Record lose_round_body := mkLoseRoundBody {
  lb_message : string;
  lb_gameOutcome : option string;
  lb_cardsLostCount : Z
}.

(** POST /api/games/:gameId/lose-round *)
Definition postLoseRound (guessTime endTime : string)
  (gameId cardId roundNumber : option Z) : handler lose_round_body :=
  match gameId, cardId, roundNumber with
  | Some gameId, Some cardId, Some roundNumber =>
      handle "Failed to record lost round."
        (recordRoundOutcome guessTime gameId cardId "discarded" roundNumber
           (Some false) ;;;
         cardsLostCount <- getLostRoundsCount gameId ;;
         gameOutcome <-
           (if 3 <=? cardsLostCount then
              cards <- getGameCards gameId ;;
              let currentCardsCount :=
                Z.of_nat (List.length (filter in_possession cards)) in
              endGame endTime gameId "Lost" currentCardsCount ;;;
              ret (Some "Lost")
            else ret None) ;;
         ret (Json 200
                (mkLoseRoundBody "Round lost/card discarded." gameOutcome
                   cardsLostCount)))
  | _, _, _ => reject 400 "Invalid input for losing round."
  end.

(** GET /api/history *)
Definition getHistory (userId : Z) : handler (list history_game) :=
  handle "Failed to retrieve game history."
    (history <- getGameHistory userId ;; ret (Json 200 history)).

Record demo_start_body := mkDemoStartBody {
  ds_initialCards : list card_details;
  ds_newCard : next_round_body
}.

(** POST /api/demo-game/start; the two draws have their own picks. *)
Definition postDemoStart (picks picksNew : list nat)
  : handler demo_start_body :=
  handle "Failed to start demo game."
    (initialCards <- getRandomCards picks 3 [] ;;
     if (List.length initialCards <? 3)%nat
     then ret (JsonError 500 "Not enough cards for demo game.")
     else
       let initialCards := stable_sort by_index_asc initialCards in
       let initialCardIds := map cd_id initialCards in
       newCards <- getRandomCards picksNew 1 initialCardIds ;;
       match newCards with
       | [] => ret (JsonError 500 "Not enough unique cards for demo game.")
       | newCard :: _ =>
           ret (Json 200
                  (mkDemoStartBody initialCards
                     (mkNextRound (cd_id newCard) (cd_name newCard)
                        (cd_image newCard))))
       end).

Record demo_guess_body := mkDemoGuessBody {
  dg_isCorrect : bool;
  dg_badLuckIndex : Q;
  dg_wonCard : option card_details
}.

(** POST /api/demo-game/guess *)
Definition postDemoGuess (initialCards : option (list hand_entry))
  (newCardId placementIndex : option Z) : handler demo_guess_body :=
  match initialCards, newCardId, placementIndex with
  | Some initialCards, Some newCardId, Some placementIndex =>
      handle "Failed to process demo guess."
        (newCardDetails <- getCardById newCardId ;;
         match newCardDetails with
         | None => ret (JsonError 404 "New card not found for demo game.")
         | Some newCardDetails =>
             let isCorrect :=
               demoIsCorrect initialCards placementIndex newCardDetails in
             ret (Json 200
                    (mkDemoGuessBody isCorrect
                       (cd_bad_luck_index newCardDetails)
                       (if isCorrect then Some newCardDetails else None)))
         end)
  | _, _, _ => reject 400 "Invalid input for demo guess."
  end.

(** ** The round handlers on the body as parsed

    The handlers above take a request whose numbers are numbers and whose
    hand is a list of [{ id, bad_luck_index }] with numeric indices.  The
    source checks less: [isNaN] on the scalars and [Array.isArray] on the
    hand, nothing on its elements.  The same three handlers follow over
    what [express.json()] delivers; the game id, read with [parseInt] from
    the URL, stays an [option Z]. *)

Module Untyped.

(** What node-sqlite3 binds to a [?]: NULL for [null] and for a missing
    value, 1 or 0 for a boolean, the integer for a number. *)
Definition bind_param (v : Js.value Z) : option Z :=
  match v with
  | Js.Undefined => None
  | Js.Null => None
  | Js.Bool true => Some 1
  | Js.Bool false => Some 0
  | Js.Num z => Some z
  end.

(** [SELECT id, name, image, bad_luck_index FROM cards WHERE id = ?];
    no row has [id = NULL]. *)
Definition getCardById (cardId : Js.value Z) : M (option card_details) :=
  db_query (fun d =>
    match bind_param cardId with
    | Some id =>
        option_map select_details (find (fun c => c_id c =? id) (cards d))
    | None => None
    end).

(** The INSERT of [recordRoundOutcome] with the bound card id:
    [card_id INTEGER NOT NULL]. *)
Definition insert_bound_game_card (gameId : Z) (cardId : option Z)
  (status : string) (round : option Z) (guessTime : option string)
  (isCorrect : option Z) (d : db) : result unit * db :=
  match cardId with
  | Some cardId =>
      insert_game_card gameId cardId status round guessTime isCorrect d
  | None => (Throw SQLITE_CONSTRAINT_NOTNULL, d)
  end.

Definition recordRoundOutcome (guessTime : string) (gameId : Z)
  (cardId : Js.value Z) (status : string) (roundNumber : Js.value Z)
  (isCorrectGuess : option bool) : M unit :=
  db_exec (insert_bound_game_card gameId (bind_param cardId) status
             (bind_param roundNumber) (Some guessTime)
             (sql_bool isCorrectGuess)).

(** The element the handlers splice into the hand:
    [{ id: newCardDetails.id, bad_luck_index: newCardDetails.bad_luck_index }]. *)
Definition element_of_card (c : card_details) : Js.element :=
  Js.Element (Js.Num (cd_bad_luck_index c)).

(** The loop of the judge; [None]: it threw a TypeError on a [null]
    element. *)
Fixpoint handStillSorted (tempHand : list Js.element) : option bool :=
  match tempHand with
  | a :: (b :: _) as rest =>
      match a, b with
      | Js.Element x, Js.Element y =>
          if Js.gt_value x y then Some false else handStillSorted rest
      | _, _ => None
      end
  | _ => Some true
  end.

(** POST /api/games/:gameId/guess, lines 167-182. *)
Definition guessIsCorrect (playerHand : list Js.element)
  (placementIndex : Js.value Z) (newCardDetails : card_details)
  : option bool :=
  let tempHand :=
    Js.splice_insert playerHand (Js.ToIntegerOrInfinity placementIndex)
      (element_of_card newCardDetails) in
  handStillSorted tempHand.

(** POST /api/demo-game/guess, lines 324-336. *)
Definition demoIsCorrect (initialCards : list Js.element)
  (placementIndex : Js.value Z) (newCardDetails : card_details)
  : option bool :=
  let tempHand :=
    Js.splice_insert initialCards (Js.ToIntegerOrInfinity placementIndex)
      (element_of_card newCardDetails) in
  let fix scan (l : list Js.element) : option bool :=
    match l with
    | a :: (b :: _) as rest =>
        match a, b with
        | Js.Element x, Js.Element y =>
            if Js.gt_value x y then Some false else scan rest
        | _, _ => None
        end
    | _ => Some true
    end in
  scan tempHand.

(** POST /api/games/:gameId/guess *)
Definition postGuess (guessTime endTime : string) (gameId : option Z)
  (cardId : Js.value Z) (playerHand : option (list Js.element))
  (placementIndex roundNumber : Js.value Z) : handler guess_body :=
  match gameId, playerHand with
  | Some gameId, Some playerHand =>
      if Js.isNaN cardId || Js.isNaN placementIndex || Js.isNaN roundNumber
      then reject 400 "Invalid input for guess."
      else
        handle "Failed to process guess."
          (newCardDetails <- getCardById cardId ;;
           match newCardDetails with
           | None => ret (JsonError 404 "New card not found.")
           | Some newCardDetails =>
               match guessIsCorrect playerHand placementIndex newCardDetails
               with
               | None => throw JS_TYPE_ERROR
               | Some isCorrect =>
                   let status := if isCorrect then "won" else "lost" in
                   recordRoundOutcome guessTime gameId cardId status
                     roundNumber (Some isCorrect) ;;;
                   currentCards <- getGameCards gameId ;;
                   let currentCards := filter in_possession currentCards in
                   cardsWonCount <- getWonCardsCount gameId ;;
                   cardsLostCount <- getLostRoundsCount gameId ;;
                   gameOutcome <-
                     (if 3 <=? cardsWonCount then
                        endGame endTime gameId "Won"
                          (Z.of_nat (List.length currentCards)) ;;;
                        ret (Some "Won")
                      else if 3 <=? cardsLostCount then
                        endGame endTime gameId "Lost"
                          (Z.of_nat (List.length currentCards)) ;;;
                        ret (Some "Lost")
                      else ret None) ;;
                   ret (Json 200
                          (mkGuessBody isCorrect
                             (cd_bad_luck_index newCardDetails)
                             (if isCorrect then Some newCardDetails else None)
                             currentCards gameOutcome cardsWonCount
                             cardsLostCount))
               end
           end)
  | _, _ => reject 400 "Invalid input for guess."
  end.

(** POST /api/games/:gameId/lose-round *)
Definition postLoseRound (guessTime endTime : string) (gameId : option Z)
  (cardId roundNumber : Js.value Z) : handler lose_round_body :=
  match gameId with
  | Some gameId =>
      if Js.isNaN cardId || Js.isNaN roundNumber
      then reject 400 "Invalid input for losing round."
      else
        handle "Failed to record lost round."
          (recordRoundOutcome guessTime gameId cardId "discarded" roundNumber
             (Some false) ;;;
           cardsLostCount <- getLostRoundsCount gameId ;;
           gameOutcome <-
             (if 3 <=? cardsLostCount then
                cards <- getGameCards gameId ;;
                let currentCardsCount :=
                  Z.of_nat (List.length (filter in_possession cards)) in
                endGame endTime gameId "Lost" currentCardsCount ;;;
                ret (Some "Lost")
              else ret None) ;;
           ret (Json 200
                  (mkLoseRoundBody "Round lost/card discarded." gameOutcome
                     cardsLostCount)))
  | None => reject 400 "Invalid input for losing round."
  end.

(** POST /api/demo-game/guess *)
Definition postDemoGuess (initialCards : option (list Js.element))
  (newCardId placementIndex : Js.value Z) : handler demo_guess_body :=
  match initialCards with
  | Some initialCards =>
      if Js.isNaN newCardId || Js.isNaN placementIndex
      then reject 400 "Invalid input for demo guess."
      else
        handle "Failed to process demo guess."
          (newCardDetails <- getCardById newCardId ;;
           match newCardDetails with
           | None => ret (JsonError 404 "New card not found for demo game.")
           | Some newCardDetails =>
               match demoIsCorrect initialCards placementIndex newCardDetails
               with
               | None => throw JS_TYPE_ERROR
               | Some isCorrect =>
                   ret (Json 200
                          (mkDemoGuessBody isCorrect
                             (cd_bad_luck_index newCardDetails)
                             (if isCorrect then Some newCardDetails else None)))
               end
           end)
  | None => reject 400 "Invalid input for demo guess."
  end.

(** A typed request as the body it is parsed from. *)
Definition of_entry (e : hand_entry) : Js.element :=
  Js.Element (Js.Num (h_bad_luck_index e)).

Definition of_number (n : option Z) : Js.value Z :=
  match n with
  | Some z => Js.Num z
  | None => Js.Undefined
  end.

End Untyped.

(** ** Requests in flight

    The handlers are [async] functions on one shared connection
    (db.mjs, [dbPromise]): a request runs up to its next [await], and
    while it waits the connection may execute a statement of another
    request.  [M] above runs a request from start to end; here a request
    is the sequence of its awaited statements, so that two of them can be
    interleaved. *)

Module Async.

(** A request in flight: settled with a result, or waiting for a statement
    with what it does once the statement has settled. *)
Inductive task (A : Type) : Type :=
| Done (r : result A)
| Await {X : Type} (stmt : M X) (k : result X -> task A).
Arguments Done {A} r.
Arguments Await {A X} stmt k.

(** The request runs alone from here to its end. *)
Fixpoint run {A : Type} (t : task A) (c : conn) : result A * conn :=
  match t with
  | Done r => (r, c)
  | Await stmt k => let (r, c') := stmt c in run (k r) c'
  end.

(** The connection executes the statement the request waits for. *)
Definition step {A : Type} (t : task A) (c : conn) : task A * conn :=
  match t with
  | Done r => (Done r, c)
  | Await stmt k => let (r, c') := stmt c in (k r, c')
  end.

(** Two requests in flight: the schedule says whose statement the
    connection executes next ([true]: the first request's); once the
    schedule is used up the first request runs to its end, then the
    second. *)
Fixpoint interleave {A B : Type} (schedule : list bool) (first : task A)
  (second : task B) (c : conn) : result A * result B * conn :=
  match schedule with
  | [] =>
      let (ra, c1) := run first c in
      let (rb, c2) := run second c1 in
      (ra, rb, c2)
  | true :: rest =>
      let (first', c') := step first c in interleave rest first' second c'
  | false :: rest =>
      let (second', c') := step second c in interleave rest first second' c'
  end.

(** [startGame] of dao-games.mjs, statement by statement: every
    [await db.run(...)], [db.prepare] and [stmt.finalize] is a point where
    the request waits; a rejected statement takes it to the [catch], which
    awaits the ROLLBACK and rethrows. *)
Definition startGame (startTime : string) (userId : Z)
  (initialCards : list card_details) : task Z :=
  let catch (err : sql_error) : task Z :=
    Await db_rollback
      (fun r => match r with
                | Ok _ => Done (Throw err)
                | Throw e => Done (Throw e)
                end) in
  let attempt {X : Type} (stmt : M X) (k : X -> task Z) : task Z :=
    Await stmt (fun r => match r with
                         | Ok x => k x
                         | Throw err => catch err
                         end) in
  attempt db_begin (fun _ =>
  attempt (db_exec (insert_game userId startTime "" "" 0)) (fun gameId =>
  attempt db_prepare (fun _ =>
  (fix loop (cards : list card_details) : task Z :=
     match cards with
     | [] =>
         attempt db_finalize (fun _ =>
         attempt db_commit (fun _ => Done (Ok gameId)))
     | card :: rest =>
         attempt
           (db_exec (insert_game_card gameId (cd_id card) "initial"
                       None None None))
           (fun _ => loop rest)
     end) initialCards))).

End Async.

(** ** Requests one after the other

    A request served alone leaves the connection to the next one; the
    round requests are taken as parsed. *)

(** The routes of [configureRoutes] that use the game tables, each with
    what its handler reads of the request. *)
Inductive request :=
| StartGame (picks : list nat) (startTime : string) (userId : Z)
| NextRound (picks : list nat) (gameId : option Z)
| Guess (guessTime endTime : string) (gameId : option Z)
    (cardId : Js.value Z) (playerHand : option (list Js.element))
    (placementIndex roundNumber : Js.value Z)
| LoseRound (guessTime endTime : string) (gameId : option Z)
    (cardId roundNumber : Js.value Z)
| History (userId : Z)
| DemoStart (picks picksNew : list nat)
| DemoGuess (initialCards : option (list Js.element))
    (newCardId placementIndex : Js.value Z).

(** The connection a request leaves when it is served alone. *)
Definition serve (req : request) (c : conn) : conn :=
  match req with
  | StartGame picks startTime userId =>
      snd (postGamesStart picks startTime userId c)
  | NextRound picks gameId => snd (getNextRound picks gameId c)
  | Guess guessTime endTime gameId cardId playerHand placementIndex
      roundNumber =>
      snd (Untyped.postGuess guessTime endTime gameId cardId playerHand
             placementIndex roundNumber c)
  | LoseRound guessTime endTime gameId cardId roundNumber =>
      snd (Untyped.postLoseRound guessTime endTime gameId cardId roundNumber c)
  | History userId => snd (getHistory userId c)
  | DemoStart picks picksNew => snd (postDemoStart picks picksNew c)
  | DemoGuess initialCards newCardId placementIndex =>
      snd (Untyped.postDemoGuess initialCards newCardId placementIndex c)
  end.

(** The requests are served one after the other. *)
Definition serve_all (reqs : list request) (c : conn) : conn :=
  fold_left (fun c req => serve req c) reqs c.

(** The request is a timeout (lose-round) for the game. *)
Definition timeout_of (gameId : Z) (req : request) : Prop :=
  match req with
  | LoseRound _ _ (Some g) _ _ => g = gameId
  | _ => False
  end.

(** ** What the specification says, as predicates over the embedding *)

(** Every adjacent pair of the sequence is in order, equality allowed. *)
Definition adjacent_nondecreasing (tempHand : list hand_entry) : Prop :=
  forall (i : nat) (left right : hand_entry),
    nth_error tempHand i = Some left ->
    nth_error tempHand (S i) = Some right ->
    (h_bad_luck_index left <= h_bad_luck_index right)%Q.

(** The rows [startGame] appends to game_cards for the cards it is given,
    the first one with rowid [seq + 1]. *)
Fixpoint initial_rows (gameId seq : Z) (initialCards : list card_details)
  : list game_card :=
  match initialCards with
  | [] => []
  | card :: rest =>
      mkGameCard (seq + 1) gameId (cd_id card) "initial" None None None ::
        initial_rows gameId (seq + 1) rest
  end.

(** Outcome, end timestamp and collected-card count of the game rows with
    the given id. *)
Definition game_header (gameId : Z) (c : conn) : list (string * string * Z) :=
  map (fun g => (g_outcome g, g_end_time g, g_cards_collected g))
    (filter (fun g => g_id g =? gameId) (games (store c))).

(** What the client may learn of a catalog card before the round is
    resolved. *)
Definition public_view (c : card) : Z * string * string :=
  (c_id c, c_name c, c_image c).

(** The columns of a game that the history query selects. *)
Definition game_columns (g : game) : Z * string * string * string * Z :=
  (g_id g, g_start_time g, g_end_time g, g_outcome g, g_cards_collected g).

Definition history_columns (h : history_game)
  : Z * string * string * string * Z :=
  (hg_id h, hg_start_time h, hg_end_time h, hg_outcome h,
   hg_cards_collected h).

(** [a] starts no earlier than [b]: ISO-8601 timestamps compared as text. *)
Definition starts_no_earlier (a b : history_game) : Prop :=
  String.leb (hg_start_time b) (hg_start_time a) = true.

Definition index_no_greater (a b : game_card_details) : Prop :=
  (gd_bad_luck_index a <= gd_bad_luck_index b)%Q.

(** Referential integrity of the event log, as the schema enforces it:
    card ids are a primary key and every event refers to a card. *)
Definition events_refer_to_cards (d : db) : Prop :=
  NoDup (map c_id (cards d)) /\
  forall gc, In gc (game_cards d) -> In (gc_card_id gc) (map c_id (cards d)).

(** The event columns of a row of [getGameCards]. *)
Definition event_columns_of_row (r : game_card_details)
  : Z * string * option Z * option string * option Z :=
  (gd_id r, gd_status r, gd_round r, gd_guess_time r, gd_is_correct_guess r).

Definition event_columns (gc : game_card)
  : Z * string * option Z * option string * option Z :=
  (gc_card_id gc, gc_status gc, gc_round gc, gc_guess_time gc,
   gc_is_correct_guess gc).

(** [tempHand] is [hand] with [x] put in at position [k]: one element
    longer, [x] at position [k], the elements before [k] where they were
    and the others one place further on. *)
Definition inserted_at {A : Type} (hand : list A) (k : nat) (x : A)
  (tempHand : list A) : Prop :=
  List.length tempHand = S (List.length hand) /\
  nth_error tempHand k = Some x /\
  (forall i, (i < k)%nat -> nth_error tempHand i = nth_error hand i) /\
  (forall i, (k <= i)%nat -> nth_error tempHand (S i) = nth_error hand i).

(** The row [r] of a game's card list is the event [gc] with the detail of
    the card [card]: id, name, image and index of the card, status, round,
    guess time and flag of the event. *)
Definition row_joins (r : game_card_details) (gc : game_card) (card : card)
  : Prop :=
  gd_id r = c_id card /\ gd_name r = c_name card /\
  gd_image r = c_image card /\
  gd_bad_luck_index r = c_bad_luck_index card /\
  gd_status r = gc_status gc /\ gd_round r = gc_round gc /\
  gd_guess_time r = gc_guess_time gc /\
  gd_is_correct_guess r = gc_is_correct_guess gc.

(** ** Concrete games

    The scenario of the specification's section 8: the catalog holds
    A (1), B (5), C (9) and D (7), one user starts a game that draws
    A, B and C, and the next card is D. *)

Definition card_A : card := mkCard 1 "A" "a.png" 1 "University Life".
Definition card_B : card := mkCard 2 "B" "b.png" 5 "University Life".
Definition card_C : card := mkCard 3 "C" "c.png" 9 "University Life".
Definition card_D : card := mkCard 4 "D" "d.png" 7 "University Life".

Definition scenario_conn : conn :=
  mkConn (mkDb [1] [card_A; card_B; card_C; card_D] [] [] 0 0) None [].

Definition scenario_started : conn :=
  snd (postGamesStart [O; O; O] "2025-06-01T10:00:00.000Z" 1 scenario_conn).

Definition scenario_hand : list hand_entry :=
  [mkEntry 1 1; mkEntry 2 5; mkEntry 3 9].

Definition scenario_guess (placementIndex : Z) : response guess_body * conn :=
  postGuess "2025-06-01T10:00:20.000Z" "2025-06-01T10:00:21.000Z"
    (Some 1) (Some 4) (Some scenario_hand) (Some placementIndex) (Some 1)
    scenario_started.

(** A longer game: ten cards with indices 10.5, 20.5, ..., 100.5; the game
    of user 1 starts with the cards 1, 2 and 3. *)

Definition deck_card (n : Z) (name : string) : card :=
  mkCard n name "card.png" (Qmake (20 * n + 1) 2) "University Life".

Definition deck : list card :=
  [deck_card 1 "Overslept"; deck_card 2 "Lost notes";
   deck_card 3 "Missed bus"; deck_card 4 "Failed quiz";
   deck_card 5 "Broken laptop"; deck_card 6 "Lost badge";
   deck_card 7 "Flooded room"; deck_card 8 "Missed exam";
   deck_card 9 "Lost thesis"; deck_card 10 "Expelled"].

Definition table_conn : conn :=
  mkConn (mkDb [1; 2] deck [] [] 0 0) None [].

Definition table_started : conn :=
  snd (postGamesStart [O; O; O] "2025-06-02T09:00:00.000Z" 1 table_conn).

Definition entries_of (ids : list Z) : list hand_entry :=
  map (fun n => mkEntry n (Qmake (20 * n + 1) 2)) ids.

(** Round [round] of game 1: the timer runs out on card [cardId]. *)
Definition timeout_round (round cardId : Z) (at_ : string) (c : conn)
  : response lose_round_body * conn :=
  postLoseRound at_ at_ (Some 1) (Some cardId) (Some round) c.

(** Round [round] of game 1: the player holds [held] and puts card
    [cardId] at [placementIndex]. *)
Definition guess_round (round cardId : Z) (held : list Z)
  (placementIndex : Z) (at_ : string) (c : conn)
  : response guess_body * conn :=
  postGuess at_ at_ (Some 1) (Some cardId) (Some (entries_of held))
    (Some placementIndex) (Some round) c.

(** Three rounds, each lost to the timer. *)
Definition after_timeout_1 : response lose_round_body * conn :=
  timeout_round 1 4 "2025-06-02T09:00:30.000Z" table_started.
Definition after_timeout_2 : response lose_round_body * conn :=
  timeout_round 2 5 "2025-06-02T09:01:00.000Z" (snd after_timeout_1).
Definition after_timeout_3 : response lose_round_body * conn :=
  timeout_round 3 6 "2025-06-02T09:01:30.000Z" (snd after_timeout_2).

(** Two cards won, then three wrong guesses: the game is Lost; then one
    more guess, a correct one. *)
Definition lost_game : conn :=
  let c1 := snd (guess_round 1 4 [1; 2; 3] 3 "2025-06-02T09:00:10.000Z"
                   table_started) in
  let c2 := snd (guess_round 2 5 [1; 2; 3; 4] 4 "2025-06-02T09:00:40.000Z" c1) in
  let c3 := snd (guess_round 3 6 [1; 2; 3; 4; 5] 0 "2025-06-02T09:01:10.000Z" c2) in
  let c4 := snd (guess_round 4 7 [1; 2; 3; 4; 5] 0 "2025-06-02T09:01:40.000Z" c3) in
  snd (guess_round 5 8 [1; 2; 3; 4; 5] 0 "2025-06-02T09:02:10.000Z" c4).

Definition guess_after_lost : response guess_body * conn :=
  guess_round 6 9 [1; 2; 3; 4; 5] 5 "2025-06-02T09:02:40.000Z" lost_game.

(** The game of the section 8 scenario once D has been won: every card of
    the catalog is involved. *)
Definition scenario_exhausted : conn := snd (scenario_guess 2).

(** The section 8 catalog with another index on D, the card that is drawn
    next. *)
Definition scenario_started_other_index : conn :=
  mkConn
    (mkDb (users (store scenario_started))
       [card_A; card_B; card_C; mkCard 4 "D" "d.png" (Qmake 13 2) "University Life"]
       (games (store scenario_started))
       (game_cards (store scenario_started))
       (games_seq (store scenario_started))
       (game_cards_seq (store scenario_started)))
    None [].

(** Two users, three games started at different times, the middle one by
    the other user. *)
Definition history_conn : conn :=
  mkConn
    (mkDb [1; 2] deck
       [mkGame 1 1 "2025-06-02T09:00:00.000Z" "2025-06-02T09:05:00.000Z" "Lost" 3;
        mkGame 2 2 "2025-06-03T09:00:00.000Z" "" "" 0;
        mkGame 3 1 "2025-06-04T09:00:00.000Z" "" "" 0]
       [mkGameCard 1 1 9 "initial" None None None;
        mkGameCard 2 1 2 "initial" None None None;
        mkGameCard 3 1 5 "initial" None None None;
        mkGameCard 4 3 7 "initial" None None None;
        mkGameCard 5 1 1 "lost" (Some 1) (Some "2025-06-02T09:01:00.000Z")
          (Some 0);
        mkGameCard 6 3 3 "initial" None None None;
        mkGameCard 7 3 4 "initial" None None None]
       3 7)
    None [].

(** ** Statements of the specification that the code does not meet *)

Definition outcome_is (o : string) (h : string * string * Z) : Prop :=
  fst (fst h) = o.

(** "No transition out of Won or Lost": a step on a game whose outcome is
    set leaves outcome, end timestamp and collected count as they are. *)
Definition stays_final {A : Type} (gameId : Z) (before : conn)
  (out : response A * conn) : Prop :=
  (exists h, In h (game_header gameId before) /\
             (outcome_is "Won" h \/ outcome_is "Lost" h)) ->
  game_header gameId (snd out) = game_header gameId before.

(** A placement index that is no insertion position of the hand. *)
Definition out_of_range (hand : list hand_entry) (placementIndex : Z) : Prop :=
  placementIndex < 0 \/ Z.of_nat (List.length hand) < placementIndex.

(** "Rejected before any persistence call": an error answer and no event
    recorded. *)
Definition rejected_unrecorded {A : Type} (before : conn)
  (out : response A * conn) : Prop :=
  (exists status error, fst out = JsonError status error) /\
  game_cards (store (snd out)) = game_cards (store before).

(** The section 8 scenario, D placed at index 2: judged correct, the hand
    returned is A, B, D, C (four cards), and the won-count returned is
    [wonCount]. *)
Definition scenario_result (wonCount : Z) : Prop :=
  exists (body : guess_body) (c' : conn),
    scenario_guess 2 = (Json 200 body, c') /\
    gb_isCorrect body = true /\
    map gd_id (gb_currentCards body) = [1; 2; 4; 3] /\
    List.length (gb_currentCards body) = 4%nat /\
    gb_cardsWonCount body = wonCount.

(** Three rounds of the longer game, each guessed wrong (card put first). *)
Definition after_wrong_1 : response guess_body * conn :=
  guess_round 1 4 [1; 2; 3] 0 "2025-06-02T09:00:30.000Z" table_started.
Definition after_wrong_2 : response guess_body * conn :=
  guess_round 2 5 [1; 2; 3] 0 "2025-06-02T09:01:00.000Z" (snd after_wrong_1).
Definition after_wrong_3 : response guess_body * conn :=
  guess_round 3 6 [1; 2; 3] 0 "2025-06-02T09:01:30.000Z" (snd after_wrong_2).

(** Three rounds, each guessed right (card put last). *)
Definition after_right_1 : response guess_body * conn :=
  guess_round 1 4 [1; 2; 3] 3 "2025-06-02T09:00:30.000Z" table_started.
Definition after_right_2 : response guess_body * conn :=
  guess_round 2 5 [1; 2; 3; 4] 4 "2025-06-02T09:01:00.000Z"
    (snd after_right_1).
Definition after_right_3 : response guess_body * conn :=
  guess_round 3 6 [1; 2; 3; 4; 5] 5 "2025-06-02T09:01:30.000Z"
    (snd after_right_2).

(** Outcome and lost-count of a lose-round answer, outcome and both counts
    of a guess answer. *)
Definition lose_round_summary (r : response lose_round_body)
  : option (option string * Z) :=
  match r with
  | Json _ body => Some (lb_gameOutcome body, lb_cardsLostCount body)
  | JsonError _ _ => None
  end.

Definition guess_summary (r : response guess_body)
  : option (bool * option string * Z * Z) :=
  match r with
  | Json _ body =>
      Some (gb_isCorrect body, gb_gameOutcome body, gb_cardsWonCount body,
            gb_cardsLostCount body)
  | JsonError _ _ => None
  end.

(** A fault on the fourth statement of [startGame]: BEGIN, the header
    insert and the prepare succeed, the first event insert fails. *)
Definition faulty_conn : conn :=
  mkConn (store scenario_conn) None [false; false; false; true].

(** ** Further properties of the engine: definitions *)

Definition entry_le (a b : hand_entry) : Prop :=
  (h_bad_luck_index a <= h_bad_luck_index b)%Q.

(** client/src/components/PlayGamePage.jsx, [renderPlacementButtons]: the
    indices the buttons pass to [handleGuess], or [None] where the
    component renders nothing.  A game outcome is truthy when it is a
    non-empty string. *)
Definition renderPlacementButtons {C P : Type} (currentRoundCard : option C)
  (proposedPlacementIndex : option Z) (gameOutcome : option string)
  (playerCards : list P) : option (list Z) :=
  let outcomeSet :=
    match gameOutcome with
    | Some o => negb (o =? "")%string
    | None => false
    end in
  match currentRoundCard, proposedPlacementIndex, outcomeSet with
  | Some _, None, false =>
      Some (0 :: map (fun i => Z.of_nat i + 1)
                  (seq 0 (List.length playerCards)))
  | _, _, _ => None
  end.

(** The rows of the catalog a draw with the given exclusions may return. *)
Definition eligible (excludeCardIds : list Z) (d : db) : list card :=
  filter (not_in excludeCardIds) (cards d).

(** A list of integers without repeats, as a test. *)
Fixpoint distinctb (l : list Z) : bool :=
  match l with
  | [] => true
  | x :: t => negb (existsb (fun y => x =? y) t) && distinctb t
  end.

(** The constraints of the schema (server/db.mjs) on the tables the engine
    reads and writes: primary keys, AUTOINCREMENT counters never behind the
    ids in use, [UNIQUE (game_id, card_id)] and the foreign keys. *)
Record db_ok (d : db) : Prop := mkDbOk {
  ok_cards_pk : NoDup (map c_id (cards d));
  ok_games_pk : NoDup (map g_id (games d));
  ok_games_seq : forall g, In g (games d) -> g_id g <= games_seq d;
  ok_games_user : forall g, In g (games d) -> In (g_user_id g) (users d);
  ok_events_pk : NoDup (map gc_id (game_cards d));
  ok_events_seq :
    forall r, In r (game_cards d) -> gc_id r <= game_cards_seq d;
  ok_events_unique :
    NoDup (map (fun r => (gc_game_id r, gc_card_id r)) (game_cards d));
  ok_events_game :
    forall r, In r (game_cards d) -> In (gc_game_id r) (map g_id (games d));
  ok_events_card :
    forall r, In r (game_cards d) -> In (gc_card_id r) (map c_id (cards d))
}.

(** The constraints hold of the database and of the snapshot an open
    transaction would roll back to. *)
Definition conn_ok (c : conn) : Prop :=
  db_ok (store c) /\ forall saved, tx c = Some saved -> db_ok saved.

Definition keeps_ok {A : Type} (m : M A) : Prop :=
  forall c r c', conn_ok c -> m c = (r, c') -> conn_ok c'.

Definition handler_keeps_ok {A : Type} (h : handler A) : Prop :=
  forall c, conn_ok c -> conn_ok (snd (h c)).

Definition card_index_le (a b : card_details) : Prop :=
  (cd_bad_luck_index a <= cd_bad_luck_index b)%Q.

(** The section 8 game, with a guess for a card id the catalog lacks. *)
Definition scenario_guess_unknown_card : response guess_body * conn :=
  postGuess "2025-06-01T10:00:20.000Z" "2025-06-01T10:00:21.000Z"
    (Some 1) (Some 77) (Some scenario_hand) (Some 2) (Some 1)
    scenario_started.

(** The body of the answer to the first right guess of the longer game. *)
Definition first_right_guess_body : guess_body :=
  match fst after_right_1 with
  | Json _ body => body
  | JsonError _ _ => mkGuessBody false 0 None [] None 0 0
  end.

(** Two databases agree on a game: same catalog, same rows of the game in
    games and in game_cards.  Header, hand, counts, involved cards and
    history entry of the game are functions of these. *)
Definition same_game (gameId : Z) (d d' : db) : Prop :=
  cards d' = cards d /\
  filter (fun g => g_id g =? gameId) (games d') =
  filter (fun g => g_id g =? gameId) (games d) /\
  filter (fun r => gc_game_id r =? gameId) (game_cards d') =
  filter (fun r => gc_game_id r =? gameId) (game_cards d).

Definition reads_only {A : Type} (m : M A) : Prop :=
  forall c r c', m c = (r, c') -> store c' = store c /\ tx c' = tx c.

(** A catalog of exactly three cards: a demo game finds no fourth. *)
Definition three_card_conn : conn :=
  mkConn (mkDb [1] [card_A; card_B; card_C] [] [] 0 0) None [].

(** The body of the answer to the first timeout of the longer game. *)
Definition first_timeout_body : lose_round_body :=
  match fst after_timeout_1 with
  | Json _ body => body
  | JsonError _ _ => mkLoseRoundBody "" None 0
  end.

(** The hand of a game as stored: its rows in possession, by index. *)
Definition hand_of (d : db) (gameId : Z) : list game_card_details :=
  filter in_possession
    (stable_sort by_bad_luck_index_asc (join_game_cards d gameId)).

(** ** server/db.mjs, [initializeDatabase]: preloading the catalog

    An element of card-data.json as the preload reads it. *)
Record card_datum := mkDatum {
  cdm_name : string;
  cdm_image : string;
  cdm_bad_luck_index : Q
}.

(** The id AUTOINCREMENT gives the next row of cards: one more than the
    largest id ever used, which is the largest id in the table since no
    statement of the server deletes a card. *)
Definition next_rowid (ids : list Z) : Z := fold_right Z.max 0 ids + 1.

(** [name TEXT UNIQUE] and [bad_luck_index REAL UNIQUE]: two rows clash
    when they have the same name or the same index (as numbers). *)
Definition clash (name1 : string) (index1 : Q) (name2 : string) (index2 : Q)
  : bool :=
  (name1 =? name2)%string || Qeq_bool index1 index2.

(** [INSERT INTO cards (name, image, bad_luck_index, theme)
    VALUES (?, ?, ?, ?)] *)
Definition insert_card (name image : string) (index : Q) (theme : string)
  (d : db) : result unit * db :=
  if existsb (fun k => clash (c_name k) (c_bad_luck_index k) name index)
       (cards d)
  then (Throw SQLITE_CONSTRAINT_UNIQUE, d)
  else
    (Ok tt,
     mkDb (users d)
       (cards d ++
          [mkCard (next_rowid (map c_id (cards d))) name image index theme])
       (games d) (game_cards d) (games_seq d) (game_cards_seq d)).

(** Lines 216-229: the catalog is loaded when the table is empty, one
    insert per element, outside any transaction. *)
Definition preloadCards (cardData : list card_datum) : M unit :=
  cardCount <- db_query (fun d => count_rows (fun _ => true) (cards d)) ;;
  if cardCount =? 0 then
    db_prepare ;;;
    for_each
      (fun card =>
         db_exec (insert_card (cdm_name card) (cdm_image card)
                    (cdm_bad_luck_index card) "University Life"))
      cardData ;;;
    db_finalize
  else ret tt.

(** The rows a preload writes for the data it is given, the first one
    with id [first]. *)
Fixpoint seed_rows (first : Z) (cardData : list card_datum) : list card :=
  match cardData with
  | [] => []
  | card :: rest =>
      mkCard first (cdm_name card) (cdm_image card) (cdm_bad_luck_index card)
        "University Life" :: seed_rows (first + 1) rest
  end.

(** No two elements of the data have the same name or the same index. *)
Fixpoint data_distinct (cardData : list card_datum) : bool :=
  match cardData with
  | [] => true
  | card :: rest =>
      negb (existsb
              (fun other =>
                 clash (cdm_name card) (cdm_bad_luck_index card)
                   (cdm_name other) (cdm_bad_luck_index other)) rest)
      && data_distinct rest
  end.

Definition empty_conn : conn := mkConn (mkDb [] [] [] [] 0 0) None [].

Definition sample_data : list card_datum :=
  [mkDatum "Overslept" "overslept.png" (Qmake 21 2);
   mkDatum "Lost notes" "notes.png" (Qmake 41 2);
   mkDatum "Missed bus" "bus.png" 30].

Definition clashing_data : list card_datum :=
  [mkDatum "Overslept" "overslept.png" (Qmake 21 2);
   mkDatum "Lost notes" "notes.png" (Qmake 41 2);
   mkDatum "Missed bus" "bus.png" (Qmake 42 4);
   mkDatum "Failed quiz" "quiz.png" 50].

(** What the server never changes of a game row. *)
Definition game_identity (g : game) : Z * Z * string :=
  (g_id g, g_user_id g, g_start_time g).

(** The second database extends the first: same users and catalog, the
    event log with rows added at the end, the games with id, user and
    start time kept in place and new ones added at the end. *)
Definition only_appends (d d' : db) : Prop :=
  users d' = users d /\ cards d' = cards d /\
  (exists rows, game_cards d' = game_cards d ++ rows) /\
  (exists news,
      map game_identity (games d') =
      map game_identity (games d) ++ map game_identity news).

(** ** Requests as parsed and requests in flight: concrete runs *)

(** Two start-game requests of user 1 on the section 8 catalog, both in
    flight: the first has run its BEGIN when the connection executes the
    BEGIN of the second and then the ROLLBACK of the second's [catch];
    after that the first runs to its end, then the second. *)
Definition overlapping_starts : result Z * result Z * conn :=
  Async.interleave [true; false; false]
    (Async.startGame "2025-06-01T10:00:00.000Z" 1
       (map select_details [card_A; card_B; card_C]))
    (Async.startGame "2025-06-01T10:00:00.001Z" 1
       (map select_details [card_B; card_C; card_D]))
    scenario_conn.

(** The guess of the section 8 scenario as the body is parsed: card 4 in
    round 1 of game 1, the hand A, B, C, with any value as placement
    index. *)
Definition scenario_request (placementIndex : Js.value Z)
  : response guess_body * conn :=
  Untyped.postGuess "2025-06-01T10:00:20.000Z" "2025-06-01T10:00:21.000Z"
    (Some 1) (Js.Num 4) (Some (map Untyped.of_entry scenario_hand))
    placementIndex (Js.Num 1) scenario_started.

(** The body of a guess answer, or a body of zeros for an error. *)
Definition body_of (r : response guess_body) : guess_body :=
  match r with
  | Json _ body => body
  | JsonError _ _ => mkGuessBody false 0 None [] None 0 0
  end.

(** The hand of the scenario with D between B and C. *)
Definition scenario_hand_with_D : list hand_entry :=
  [mkEntry 1 1; mkEntry 2 5; mkEntry 4 7; mkEntry 3 9].

(** The history of user 1 in the example database. *)
Definition user_1_history : list history_game :=
  match fst (getHistory 1 history_conn) with
  | Json _ history => history
  | JsonError _ _ => []
  end.

(** After the game of user 1 is won: a wrong guess on it, a game started by
    user 2, a timeout in that game, a right guess on the won game, and the
    history of user 1. *)
Definition requests_after_win : list request :=
  [Guess "2025-06-02T09:02:00.000Z" "2025-06-02T09:02:00.000Z" (Some 1)
     (Js.Num 7) (Some (map Untyped.of_entry (entries_of [1; 2; 3; 4; 5; 6])))
     (Js.Num 0) (Js.Num 4);
   StartGame [O; O; O] "2025-06-02T09:03:00.000Z" 2;
   LoseRound "2025-06-02T09:03:30.000Z" "2025-06-02T09:03:30.000Z" (Some 2)
     (Js.Num 9) (Js.Num 1);
   Guess "2025-06-02T09:04:00.000Z" "2025-06-02T09:04:00.000Z" (Some 1)
     (Js.Num 8) (Some (map Untyped.of_entry (entries_of [1; 2; 3; 4; 5; 6])))
     (Js.Num 6) Js.Null;
   History 1].

(** A connection on which another request has begun a transaction and
    inserted the header of its game. *)
Definition scenario_mid_start : conn :=
  snd ((db_begin ;;; db_exec (insert_game 1 "2025-06-01T09:59:59.000Z" "" "" 0))
         scenario_conn).

(** * Proofs *)

(** ** The round judge *)

Lemma gt_false_iff (a b : Q) : Js.gt a b = false <-> (a <= b)%Q.
Proof.
  unfold Js.gt. rewrite negb_false_iff. apply Qle_bool_iff.
Qed.

Lemma adjacent_nondecreasing_cons (a b : hand_entry) (rest : list hand_entry) :
  adjacent_nondecreasing (a :: b :: rest) <->
  (h_bad_luck_index a <= h_bad_luck_index b)%Q /\
  adjacent_nondecreasing (b :: rest).
Proof.
  unfold adjacent_nondecreasing. split.
  - intros H. split.
    + apply (H O); reflexivity.
    + intros i l r Hl Hr. apply (H (S i)); assumption.
  - intros [Hab H] [|i] l r Hl Hr.
    + simpl in Hl, Hr. injection Hl as <-. injection Hr as <-. exact Hab.
    + apply (H i); assumption.
Qed.

Lemma handStillSorted_iff (tempHand : list hand_entry) :
  handStillSorted tempHand = true <-> adjacent_nondecreasing tempHand.
Proof.
  induction tempHand as [|a [|b rest] IH].
  - split; [intros _ [|i] l r Hl; discriminate Hl | reflexivity].
  - split; [intros _ [|[|i]] l r Hl Hr; discriminate Hr | reflexivity].
  - rewrite adjacent_nondecreasing_cons, <- IH.
    change (handStillSorted (a :: b :: rest))
      with (if Js.gt (h_bad_luck_index a) (h_bad_luck_index b)
            then false else handStillSorted (b :: rest)).
    destruct (Js.gt (h_bad_luck_index a) (h_bad_luck_index b)) eqn:E.
    + split; [discriminate|].
      intros [Hle _]. apply gt_false_iff in Hle. congruence.
    + apply gt_false_iff in E. tauto.
Qed.

(** ** The connection monad *)

Lemma bind_run {A B : Type} (m : M A) (k : A -> M B) (c : conn) :
  bind m k c =
  match m c with
  | (Ok a, c') => k a c'
  | (Throw e, c') => (Throw e, c')
  end.
Proof. reflexivity. Qed.

(** A statement's fault flag changes neither the database nor the
    transaction. *)
Lemma io_run (c : conn) (r : result unit) (c' : conn) :
  io c = (r, c') -> store c' = store c /\ tx c' = tx c.
Proof.
  unfold io. destruct (faults c) as [|[|] fs]; intros H;
    injection H as <- <-; split; reflexivity.
Qed.

Lemma io_no_faults (c : conn) : faults c = [] -> io c = (Ok tt, c).
Proof. unfold io. intros ->. reflexivity. Qed.

Lemma db_query_run {A : Type} (q : db -> A) (c : conn) (r : result A)
  (c' : conn) :
  db_query q c = (r, c') ->
  store c' = store c /\ tx c' = tx c /\
  match r with Ok a => a = q (store c) | Throw _ => True end.
Proof.
  unfold db_query. rewrite bind_run.
  destruct (io c) as [[[]|e] c1] eqn:Hio; apply io_run in Hio;
    destruct Hio as [Hs Ht]; intros H; injection H as <- <-.
  - rewrite Hs. auto.
  - auto.
Qed.

Lemma db_query_no_faults {A : Type} (q : db -> A) (c : conn) :
  faults c = [] -> db_query q c = (Ok (q (store c)), c).
Proof.
  intros Hf. unfold db_query. rewrite bind_run, (io_no_faults c Hf).
  reflexivity.
Qed.

Lemma db_exec_run {A : Type} (stmt : db -> result A * db) (c : conn)
  (r : result A) (c' : conn) :
  db_exec stmt c = (r, c') ->
  tx c' = tx c /\
  match r with
  | Ok a => stmt (store c) = (Ok a, store c')
  | Throw _ => store c' = store c
  end.
Proof.
  unfold db_exec. rewrite bind_run.
  destruct (io c) as [[[]|e] c1] eqn:Hio; apply io_run in Hio;
    destruct Hio as [Hs Ht].
  - rewrite Hs. destruct (stmt (store c)) as [[a|e] d] eqn:Hstmt;
      intros H; injection H as <- <-; simpl; auto.
  - intros H; injection H as <- <-. auto.
Qed.

Lemma db_exec_no_faults {A : Type} (stmt : db -> result A * db) (c : conn) :
  faults c = [] ->
  db_exec stmt c =
  match stmt (store c) with
  | (Ok a, d) => (Ok a, mkConn d (tx c) [])
  | (Throw e, _) => (Throw e, c)
  end.
Proof.
  intros Hf. unfold db_exec. rewrite bind_run, (io_no_faults c Hf).
  rewrite Hf. reflexivity.
Qed.

Lemma db_query_eval {A : Type} (q : db -> A) (c : conn) :
  db_query q c =
  match faults c with
  | [] => (Ok (q (store c)), c)
  | false :: fs => (Ok (q (store c)), mkConn (store c) (tx c) fs)
  | true :: fs => (Throw SQLITE_IOERR, mkConn (store c) (tx c) fs)
  end.
Proof.
  unfold db_query, io. rewrite bind_run.
  destruct (faults c) as [|[|] fs]; reflexivity.
Qed.

(** ** [startGame] and its transaction *)

Lemma insert_game_card_ok (gameId cardId : Z) (status : string)
  (round : option Z) (guessTime : option string) (isCorrect : option Z)
  (d d' : db) :
  insert_game_card gameId cardId status round guessTime isCorrect d
    = (Ok tt, d') ->
  d' = mkDb (users d) (cards d) (games d)
         (game_cards d ++
            [mkGameCard (game_cards_seq d + 1) gameId cardId status round
               guessTime isCorrect])
         (games_seq d) (game_cards_seq d + 1).
Proof.
  unfold insert_game_card.
  destruct (has_game_card d gameId cardId); [discriminate|].
  destruct (has_game d gameId && has_card d cardId); [|discriminate].
  intros H. injection H as <-. reflexivity.
Qed.

Lemma insert_initial_rows (gameId : Z) (initialCards : list card_details) :
  forall (c : conn) (r : result unit) (c' : conn),
    for_each
      (fun card =>
         db_exec (insert_game_card gameId (cd_id card) "initial"
                    None None None))
      initialCards c = (r, c') ->
    tx c' = tx c /\
    match r with
    | Ok _ =>
        store c' =
        mkDb (users (store c)) (cards (store c)) (games (store c))
          (game_cards (store c) ++
             initial_rows gameId (game_cards_seq (store c)) initialCards)
          (games_seq (store c))
          (game_cards_seq (store c) + Z.of_nat (List.length initialCards))
    | Throw _ => True
    end.
Proof.
  induction initialCards as [|card rest IH]; intros c r c' H.
  - injection H as <- <-. split; [reflexivity|].
    simpl. rewrite app_nil_r, Z.add_0_r. destruct (store c); reflexivity.
  - simpl for_each in H. rewrite bind_run in H.
    destruct (db_exec _ c) as [[[]|e] c1] eqn:Hexec;
      apply db_exec_run in Hexec; destruct Hexec as [Ht Hs].
    + apply IH in H. destruct H as [Ht' H]. split; [congruence|].
      destruct r as [[]|e]; [|exact I].
      apply insert_game_card_ok in Hs. rewrite H, Hs. simpl.
      rewrite <- app_assoc. simpl. f_equal. lia.
    + injection H as <- <-. split; [assumption | exact I].
Qed.

Lemma rollback_rethrow {A : Type} (e : sql_error) (cx : conn) (saved : db) :
  tx cx = Some saved ->
  (db_rollback ;;; @throw A e) cx = (Throw e, mkConn saved None (faults cx)).
Proof.
  intros Hcx. rewrite bind_run. unfold db_rollback. rewrite Hcx. reflexivity.
Qed.

(** [startGame] alone on the section 8 catalog: it writes the header and
    three rows; with a storage fault on its fourth statement, or with a
    card given twice, it throws and nothing is written. *)
Example startGame_three_rows :
  let out := startGame "2025-06-01T10:00:00.000Z" 1
               (map select_details [card_A; card_B; card_C]) scenario_conn in
  fst out = Ok 1 /\
  map g_id (games (store (snd out))) = [1] /\
  map (fun r => (gc_game_id r, gc_card_id r, gc_status r))
    (game_cards (store (snd out))) =
  [(1, 1, "initial"); (1, 2, "initial"); (1, 3, "initial")].
Proof. vm_compute. repeat split. Qed.

Example startGame_rolls_back :
  startGame "2025-06-01T10:00:00.000Z" 1
    (map select_details [card_A; card_B; card_C]) faulty_conn =
  (Throw SQLITE_IOERR, scenario_conn) /\
  startGame "2025-06-01T10:00:00.000Z" 1
    (map select_details [card_A; card_B; card_A]) scenario_conn =
  (Throw SQLITE_CONSTRAINT_UNIQUE, scenario_conn).
Proof. vm_compute. split; reflexivity. Qed.

(** ** Drawing the next card *)

Lemma In_without_nth {A : Type} (k : nat) (rows : list A) (x : A) :
  In x (firstn k rows ++ skipn (S k) rows) -> In x rows.
Proof.
  intros H. apply in_app_or in H. destruct H as [H|H].
  - rewrite <- (firstn_skipn k rows). apply in_or_app. left. exact H.
  - rewrite <- (firstn_skipn (S k) rows). apply in_or_app. right. exact H.
Qed.

Lemma shuffle_In {A : Type} (fuel : nat) :
  forall (picks : list nat) (rows : list A) (x : A),
    In x (shuffle fuel picks rows) -> In x rows.
Proof.
  induction fuel as [|fuel IH]; intros picks rows x H.
  - destruct H.
  - destruct rows as [|r0 rest]; [destruct H|].
    cbn [shuffle] in H. destruct H as [H|H].
    + subst x. apply nth_In. apply Nat.mod_upper_bound. discriminate.
    + apply IH in H. exact (In_without_nth _ _ _ H).
Qed.

Lemma order_by_random_In {A : Type} (picks : list nat) (rows : list A) (x : A) :
  In x (order_by_random picks rows) -> In x rows.
Proof. apply shuffle_In. Qed.

Lemma firstn_In {A : Type} (n : nat) (l : list A) (x : A) :
  In x (firstn n l) -> In x l.
Proof.
  intros H. rewrite <- (firstn_skipn n l). apply in_or_app. left. exact H.
Qed.

Lemma not_in_spec (excludeCardIds : list Z) (c : card) :
  not_in excludeCardIds c = true <-> ~ In (c_id c) excludeCardIds.
Proof.
  unfold not_in. rewrite negb_true_iff. split.
  - intros H Hin.
    assert (E : existsb (fun x => c_id c =? x) excludeCardIds = true).
    { apply existsb_exists. exists (c_id c). split; [exact Hin|].
      apply Z.eqb_refl. }
    congruence.
  - intros H. destruct (existsb _ excludeCardIds) eqn:E; [|reflexivity].
    apply existsb_exists in E. destruct E as (x & Hin & Hx).
    apply Z.eqb_eq in Hx. subst x. contradiction.
Qed.

(** The rows a draw may return: in the catalog and not excluded. *)
Lemma drawn_card_eligible (picks : list nat) (limit : nat)
  (excludeCardIds : list Z) (d : db) (x : card) :
  In x (firstn limit (order_by_random picks
          match excludeCardIds with
          | [] => cards d
          | _ :: _ => filter (not_in excludeCardIds) (cards d)
          end)) ->
  In x (cards d) /\ ~ In (c_id x) excludeCardIds.
Proof.
  intros H. apply firstn_In, order_by_random_In in H.
  destruct excludeCardIds as [|e rest].
  - split; [exact H | intros []].
  - apply filter_In in H. destruct H as [Hin Hnot].
    split; [exact Hin | apply not_in_spec; exact Hnot].
Qed.

Lemma no_eligible_rows (excludeCardIds : list Z) (d : db) :
  (forall x, In x (cards d) -> In (c_id x) excludeCardIds) ->
  match excludeCardIds with
  | [] => cards d
  | _ :: _ => filter (not_in excludeCardIds) (cards d)
  end = [].
Proof.
  intros Hall. destruct excludeCardIds as [|e rest].
  - destruct (cards d) as [|x xs]; [reflexivity|].
    destruct (Hall x (or_introl eq_refl)).
  - destruct (filter _ (cards d)) as [|x xs] eqn:E; [reflexivity|].
    assert (Hx : In x (filter (not_in (e :: rest)) (cards d)))
      by (rewrite E; left; reflexivity).
    apply filter_In in Hx. destruct Hx as [Hin Hnot].
    apply not_in_spec in Hnot. elim Hnot. apply Hall. exact Hin.
Qed.

(** C5. The card [getNextRound] answers with is never one whose id is in
    the game's event log, whatever the status of the event; and when every
    card of the catalog is already in the log (and storage does not fail)
    the answer is the 404 error and no card. *)
Theorem next_round_card_never_involved
  (picks : list nat) (gameId : Z) (c : conn) :
  (forall (status : nat) (body : next_round_body),
      fst (getNextRound picks (Some gameId) c) = Json status body ->
      ~ In (nr_id body) (involved_ids (store c) gameId) /\
      exists x, In x (cards (store c)) /\ c_id x = nr_id body) /\
  ((forall x, In x (cards (store c)) ->
              In (c_id x) (involved_ids (store c) gameId)) ->
   faults c = [] ->
   fst (getNextRound picks (Some gameId) c) =
   JsonError 404 "No more unique cards available for this game.").
Proof.
  split.
  - intros status body. unfold getNextRound, handle.
    rewrite bind_run. unfold getInvolvedCardIds.
    destruct (db_query _ c) as [[involved|e] c1] eqn:Hq;
      apply db_query_run in Hq; destruct Hq as (Hs1 & _ & Hinv);
      [|discriminate].
    rewrite bind_run. unfold getRandomCards.
    destruct (db_query _ c1) as [[newCards|e] c2] eqn:Hq2;
      apply db_query_run in Hq2; destruct Hq2 as (_ & _ & Hnew);
      [|discriminate].
    rewrite Hs1 in Hnew. subst involved.
    destruct newCards as [|newCard rest]; [discriminate|].
    unfold ret, next_round_answer. simpl. intros H. injection H as _ <-.
    simpl.
    destruct (firstn 1 _) as [|x xs] eqn:E in Hnew; [discriminate|].
    assert (Hx : In x (x :: xs)) by (left; reflexivity).
    rewrite <- E in Hx. apply drawn_card_eligible in Hx.
    simpl in Hnew. injection Hnew as -> _. simpl.
    destruct Hx as [Hin Hnot]. split; [exact Hnot|].
    exists x. split; [exact Hin | reflexivity].
  - intros Hall Hf. unfold getNextRound, handle.
    rewrite bind_run. unfold getInvolvedCardIds.
    rewrite (db_query_no_faults _ c Hf).
    rewrite bind_run. unfold getRandomCards.
    rewrite (db_query_no_faults _ c Hf).
    rewrite (no_eligible_rows _ _ Hall). reflexivity.
Qed.

Lemma next_round_card_never_involved_witness :
  fst (getNextRound [2%nat] (Some 1) scenario_exhausted) =
  JsonError 404 "No more unique cards available for this game.".
Proof.
  apply (proj2 (next_round_card_never_involved [2%nat] 1 scenario_exhausted)).
  - vm_compute. intros x [<-|[<-|[<-|[<-|[]]]]]; simpl; tauto.
  - reflexivity.
Defined.

(** In the section 8 game the only card left to draw is D, whatever the
    pick. *)
Example next_round_draws_D :
  fst (getNextRound [7%nat] (Some 1) scenario_started) =
  Json 200 (mkNextRound 4 "D" "d.png").
Proof. vm_compute. reflexivity. Qed.

(** ** The next-round answer does not depend on any bad_luck_index *)

Lemma shuffle_map {A B : Type} (f : A -> B) (fuel : nat) :
  forall (picks : list nat) (rows : list A),
    map f (shuffle fuel picks rows) = shuffle fuel picks (map f rows).
Proof.
  induction fuel as [|fuel IH]; intros picks rows.
  - destruct rows; reflexivity.
  - destruct rows as [|r0 rest]; [reflexivity|].
    cbn [shuffle map]. rewrite IH.
    change (f r0 :: map f rest) with (map f (r0 :: rest)).
    rewrite length_map, map_nth, map_app, firstn_map, skipn_map.
    reflexivity.
Qed.

Lemma order_by_random_map {A B : Type} (f : A -> B) (picks : list nat)
  (rows : list A) :
  map f (order_by_random picks rows) = order_by_random picks (map f rows).
Proof.
  unfold order_by_random. rewrite length_map. apply shuffle_map.
Qed.

Lemma eligible_public_view (excludeCardIds : list Z) :
  forall rows1 rows2 : list card,
    map public_view rows1 = map public_view rows2 ->
    map public_view (filter (not_in excludeCardIds) rows1) =
    map public_view (filter (not_in excludeCardIds) rows2).
Proof.
  induction rows1 as [|x xs IH]; intros [|y ys] H; try discriminate H.
  - reflexivity.
  - cbn [map] in H. injection H as Hid Hname Himage Hrest.
    assert (Hn : not_in excludeCardIds x = not_in excludeCardIds y)
      by (unfold not_in; rewrite Hid; reflexivity).
    cbn [filter]. rewrite Hn.
    destruct (not_in excludeCardIds y); cbn [map];
      [unfold public_view at 1 3; rewrite Hid, Hname, Himage; f_equal|];
      apply IH; exact Hrest.
Qed.

Lemma draw_public_view (picks : list nat) (limit : nat)
  (excludeCardIds : list Z) (rows1 rows2 : list card) :
  map public_view rows1 = map public_view rows2 ->
  map public_view
    (firstn limit (order_by_random picks
       match excludeCardIds with
       | [] => rows1
       | _ :: _ => filter (not_in excludeCardIds) rows1
       end)) =
  map public_view
    (firstn limit (order_by_random picks
       match excludeCardIds with
       | [] => rows2
       | _ :: _ => filter (not_in excludeCardIds) rows2
       end)).
Proof.
  intros H. rewrite <- !firstn_map, !order_by_random_map.
  destruct excludeCardIds as [|e rest].
  - rewrite H. reflexivity.
  - rewrite (eligible_public_view (e :: rest) rows1 rows2 H). reflexivity.
Qed.

Lemma answer_public_view (drawn1 drawn2 : list card) :
  map public_view drawn1 = map public_view drawn2 ->
  next_round_answer (map select_details drawn1) =
  next_round_answer (map select_details drawn2).
Proof.
  destruct drawn1 as [|x xs], drawn2 as [|y ys]; intros H;
    try discriminate H; [reflexivity|].
  cbn [map] in H. injection H as Hid Hname Himage _.
  simpl. rewrite Hid, Hname, Himage. reflexivity.
Qed.

(** The answer as a function of the faults and of the draw. *)
Lemma getNextRound_answer (picks : list nat) (gameId : Z) (c : conn) :
  fst (getNextRound picks (Some gameId) c) =
  match faults c with
  | true :: _ | false :: true :: _ =>
      JsonError 500 "Failed to get next round card."
  | _ =>
      next_round_answer
        (map select_details
           (firstn 1 (order_by_random picks
              match involved_ids (store c) gameId with
              | [] => cards (store c)
              | _ :: _ =>
                  filter (not_in (involved_ids (store c) gameId))
                    (cards (store c))
              end)))
  end.
Proof.
  unfold getNextRound, handle, getInvolvedCardIds, getRandomCards.
  rewrite bind_run, db_query_eval.
  destruct (faults c) as [|[|] fs] eqn:Hf; [| reflexivity |].
  - rewrite bind_run, db_query_eval, Hf. reflexivity.
  - rewrite bind_run, db_query_eval. cbn [faults store].
    destruct fs as [|[|] fs']; reflexivity.
Qed.

(** C9. The answer of [getNextRound] is made of the drawn card's id, name
    and image only: two connections whose catalogs agree on id, name and
    image of every card (they may differ in any bad_luck_index), with the
    same event log, the same faults and the same picks, get the same
    answer. *)
Theorem next_round_hides_bad_luck_index
  (picks : list nat) (gameId : option Z) (c1 c2 : conn) :
  map public_view (cards (store c1)) = map public_view (cards (store c2)) ->
  game_cards (store c1) = game_cards (store c2) ->
  faults c1 = faults c2 ->
  fst (getNextRound picks gameId c1) = fst (getNextRound picks gameId c2).
Proof.
  intros Hpub Hlog Hf. destruct gameId as [gameId|]; [|reflexivity].
  assert (Hinv : involved_ids (store c1) gameId = involved_ids (store c2) gameId)
    by (unfold involved_ids; rewrite Hlog; reflexivity).
  rewrite !getNextRound_answer, <- Hf, <- Hinv.
  rewrite (answer_public_view _ _
             (draw_public_view picks 1 (involved_ids (store c1) gameId)
                _ _ Hpub)).
  reflexivity.
Qed.

Lemma next_round_hides_bad_luck_index_witness :
  fst (getNextRound [O] (Some 1) scenario_started) =
  fst (getNextRound [O] (Some 1) scenario_started_other_index).
Proof.
  apply next_round_hides_bad_luck_index; reflexivity.
Defined.

(** ** Sorting *)

Section StableSortFacts.
Context {A : Type} (leb : A -> A -> bool).
Hypothesis leb_total : forall a b, leb a b = true \/ leb b a = true.
Hypothesis leb_trans :
  forall a b c, leb a b = true -> leb b c = true -> leb a c = true.

Let le (a b : A) : Prop := leb a b = true.

Lemma insert_sorted_perm (x : A) (l : list A) :
  Permutation (insert_sorted leb x l) (x :: l).
Proof.
  induction l as [|y t IH]; simpl.
  - apply Permutation_refl.
  - destruct (leb x y).
    + apply Permutation_refl.
    + apply perm_trans with (y :: x :: t).
      * apply perm_skip. exact IH.
      * apply perm_swap.
Qed.

Lemma stable_sort_perm (l : list A) : Permutation (stable_sort leb l) l.
Proof.
  induction l as [|x t IH]; simpl.
  - apply perm_nil.
  - apply perm_trans with (x :: stable_sort leb t).
    + apply insert_sorted_perm.
    + apply perm_skip. exact IH.
Qed.

Lemma insert_sorted_ordered (x : A) (l : list A) :
  StronglySorted le l -> StronglySorted le (insert_sorted leb x l).
Proof.
  induction l as [|y t IH]; intros Hs; simpl.
  - constructor; constructor.
  - destruct (leb x y) eqn:E.
    + constructor; [exact Hs|].
      inversion Hs as [|? ? _ Hall]; subst.
      constructor; [exact E|].
      apply Forall_forall. intros z Hz.
      apply (leb_trans x y z E).
      exact (proj1 (Forall_forall _ _) Hall z Hz).
    + inversion Hs as [|? ? Ht Hall]; subst.
      constructor; [apply IH; exact Ht|].
      apply Forall_forall. intros z Hz.
      apply (Permutation_in _ (insert_sorted_perm x t)) in Hz.
      destruct Hz as [<-|Hz].
      * destruct (leb_total x y) as [H|H]; [congruence | exact H].
      * exact (proj1 (Forall_forall _ _) Hall z Hz).
Qed.

Lemma stable_sort_ordered (l : list A) : StronglySorted le (stable_sort leb l).
Proof.
  induction l as [|x t IH]; simpl.
  - constructor.
  - apply insert_sorted_ordered. exact IH.
Qed.
End StableSortFacts.

Lemma StronglySorted_map {A B : Type} (f : A -> B) (R : B -> B -> Prop)
  (l : list A) :
  StronglySorted (fun a b => R (f a) (f b)) l -> StronglySorted R (map f l).
Proof.
  induction 1 as [|a l Hs IH Hall]; simpl; constructor.
  - exact IH.
  - apply Forall_map. exact Hall.
Qed.

(** *** The order of ISO-8601 timestamps (text comparison) *)

Lemma string_compare_trans (s1 : string) :
  forall s2 s3 : string,
    String.compare s1 s2 <> Gt -> String.compare s2 s3 <> Gt ->
    String.compare s1 s3 <> Gt.
Proof.
  induction s1 as [|a s1 IH]; intros [|b s2] [|c s3] H12 H23;
    simpl in *; try congruence.
  unfold Ascii.compare in *.
  destruct (N.compare_spec (Ascii.N_of_ascii a) (Ascii.N_of_ascii b)) as [E|L|G];
    [| |congruence].
  - rewrite E.
    destruct (Ascii.N_of_ascii b ?= Ascii.N_of_ascii c)%N;
      [apply (IH s2 s3); assumption | discriminate | congruence].
  - destruct (N.compare_spec (Ascii.N_of_ascii b) (Ascii.N_of_ascii c)) as [E'|L'|G'];
      [| |congruence].
    + rewrite <- E'. rewrite (proj2 (N.compare_lt_iff _ _) L). discriminate.
    + rewrite (proj2 (N.compare_lt_iff _ _) (N.lt_trans _ _ _ L L')).
      discriminate.
Qed.

Lemma string_leb_trans (s1 s2 s3 : string) :
  String.leb s1 s2 = true -> String.leb s2 s3 = true -> String.leb s1 s3 = true.
Proof.
  unfold String.leb. intros H12 H23.
  assert (H : String.compare s1 s3 <> Gt).
  { apply (string_compare_trans s1 s2 s3).
    - destruct (String.compare s1 s2); congruence.
    - destruct (String.compare s2 s3); congruence. }
  destruct (String.compare s1 s3); congruence.
Qed.

Lemma by_start_time_desc_total (a b : game) :
  by_start_time_desc a b = true \/ by_start_time_desc b a = true.
Proof. apply String.leb_total. Qed.

Lemma by_start_time_desc_trans (a b c : game) :
  by_start_time_desc a b = true -> by_start_time_desc b c = true ->
  by_start_time_desc a c = true.
Proof.
  unfold by_start_time_desc. intros H1 H2.
  exact (string_leb_trans _ _ _ H2 H1).
Qed.

Lemma by_bad_luck_index_asc_total (a b : game_card_details) :
  by_bad_luck_index_asc a b = true \/ by_bad_luck_index_asc b a = true.
Proof.
  unfold by_bad_luck_index_asc. rewrite !Qle_bool_iff.
  destruct (Qlt_le_dec (gd_bad_luck_index b) (gd_bad_luck_index a)) as [H|H].
  - right. apply Qlt_le_weak. exact H.
  - left. exact H.
Qed.

Lemma by_bad_luck_index_asc_trans (a b c : game_card_details) :
  by_bad_luck_index_asc a b = true -> by_bad_luck_index_asc b c = true ->
  by_bad_luck_index_asc a c = true.
Proof.
  unfold by_bad_luck_index_asc. rewrite !Qle_bool_iff. apply Qle_trans.
Qed.

(** ** The history *)

(** Under referential integrity the join keeps every event of the game,
    once: its rows are the game's events, in log order, each with its
    card. *)
Lemma one_card_per_id (cardId : Z) (rows : list card) :
  NoDup (map c_id rows) -> In cardId (map c_id rows) ->
  exists x, filter (fun c => cardId =? c_id c) rows = [x] /\ c_id x = cardId.
Proof.
  induction rows as [|y rest IH]; intros Hnd Hin; [destruct Hin|].
  simpl in Hnd, Hin. inversion Hnd as [|? ? Hnotin Hnd']; subst.
  simpl. destruct (Z.eqb_spec cardId (c_id y)) as [E|E].
  - exists y. split; [|symmetry; exact E]. f_equal.
    destruct (filter _ rest) as [|z zs] eqn:F; [reflexivity|].
    assert (Hz : In z (filter (fun c => cardId =? c_id c) rest))
      by (rewrite F; left; reflexivity).
    apply filter_In in Hz. destruct Hz as [Hz Hid].
    apply Z.eqb_eq in Hid. elim Hnotin. rewrite <- E, Hid.
    apply in_map. exact Hz.
  - destruct Hin as [Hin|Hin]; [congruence|].
    apply IH; assumption.
Qed.

Lemma join_keeps_every_event (d : db) (gameId : Z) :
  events_refer_to_cards d ->
  map event_columns_of_row (join_game_cards d gameId) =
  map event_columns (filter (fun gc => gc_game_id gc =? gameId) (game_cards d)).
Proof.
  intros [Hnd Hfk]. unfold join_game_cards.
  induction (game_cards d) as [|gc rest IH]; [reflexivity|].
  assert (Hrest : forall gc', In gc' rest -> In (gc_card_id gc') (map c_id (cards d)))
    by (intros gc' H; apply Hfk; right; exact H).
  specialize (IH Hrest). simpl.
  destruct (gc_game_id gc =? gameId); [|exact IH].
  simpl. rewrite map_app, IH.
  destruct (one_card_per_id (gc_card_id gc) (cards d) Hnd
              (Hfk gc (or_introl eq_refl))) as (x & -> & Hx).
  simpl. unfold event_columns_of_row, event_columns. simpl. rewrite Hx.
  reflexivity.
Qed.

Lemma map_all_no_faults {A B : Type} (f : A -> M B) (g : A -> conn -> B) :
  (forall x c, faults c = [] -> f x c = (Ok (g x c), c)) ->
  forall xs c, faults c = [] -> map_all f xs c = (Ok (map (fun x => g x c) xs), c).
Proof.
  intros Hf xs c Hc. induction xs as [|x rest IH]; simpl.
  - reflexivity.
  - rewrite bind_run, (Hf x c Hc), bind_run, IH. reflexivity.
Qed.

Lemma getGameCards_no_faults (gameId : Z) (c : conn) :
  faults c = [] ->
  getGameCards gameId c =
  (Ok (stable_sort by_bad_luck_index_asc (join_game_cards (store c) gameId)), c).
Proof. apply db_query_no_faults. Qed.

Lemma getGameHistory_no_faults (userId : Z) (c : conn) :
  faults c = [] ->
  getGameHistory userId c =
  (Ok (map (fun game =>
              mkHistoryGame (g_id game) (g_start_time game) (g_end_time game)
                (g_outcome game) (g_cards_collected game)
                (stable_sort by_bad_luck_index_asc
                   (join_game_cards (store c) (g_id game))))
         (stable_sort by_start_time_desc (games_of_user (store c) userId))),
   c).
Proof.
  intros Hc. unfold getGameHistory.
  rewrite bind_run, (db_query_no_faults _ c Hc).
  apply (map_all_no_faults _
           (fun game c =>
              mkHistoryGame (g_id game) (g_start_time game) (g_end_time game)
                (g_outcome game) (g_cards_collected game)
                (stable_sort by_bad_luck_index_asc
                   (join_game_cards (store c) (g_id game)))));
    [|exact Hc].
  intros game c0 Hc0.
  rewrite bind_run, (getGameCards_no_faults _ c0 Hc0). reflexivity.
Qed.

(** The history of user 1 in the example: game 3 before game 1, and the
    cards of game 1 in the order 1, 2, 5, 9 of their indices. *)
Example history_of_user_1 :
  match fst (getHistory 1 history_conn) with
  | Json _ history =>
      map (fun h => (hg_id h, map gd_id (hg_gameCards h))) history
  | JsonError _ _ => []
  end = [(3, [3; 4; 7]); (1, [1; 2; 5; 9])].
Proof. vm_compute. reflexivity. Qed.

(** ** What a guess does to the database *)

(** Every run of the guess handler on well-formed input either records
    nothing, or records the event and then fails, or records the event,
    applies the thresholds to the counts read back, and answers 200. *)
Lemma postGuess_effect (guessTime endTime : string) (gameId cardId : Z)
  (playerHand : list hand_entry) (placementIndex roundNumber : Z) (c : conn) :
  let out := postGuess guessTime endTime (Some gameId) (Some cardId)
               (Some playerHand) (Some placementIndex) (Some roundNumber) c in
  ((exists status error, fst out = JsonError status error) /\
   store (snd out) = store c) \/
  exists (x : card) (d1 : db),
    find (fun k => c_id k =? cardId) (cards (store c)) = Some x /\
    let isCorrect :=
      guessIsCorrect playerHand placementIndex (select_details x) in
    insert_game_card gameId cardId (if isCorrect then "won" else "lost")
      (Some roundNumber) (Some guessTime) (sql_bool (Some isCorrect))
      (store c) = (Ok tt, d1) /\
    let held :=
      filter in_possession
        (stable_sort by_bad_luck_index_asc (join_game_cards d1 gameId)) in
    let won := count_rows (is_won_row gameId) (game_cards d1) in
    let lost := count_rows (is_lost_row gameId) (game_cards d1) in
    let outcome :=
      if 3 <=? won then Some "Won"
      else if 3 <=? lost then Some "Lost" else None in
    (((exists status error, fst out = JsonError status error) /\
      store (snd out) = d1) \/
     (fst out =
      Json 200
        (mkGuessBody isCorrect (c_bad_luck_index x)
           (if isCorrect then Some (select_details x) else None)
           held outcome won lost) /\
      store (snd out) =
      match outcome with
      | Some o =>
          snd (update_game endTime o (Z.of_nat (List.length held)) gameId d1)
      | None => d1
      end)).
Proof.
  cbv zeta. unfold postGuess, handle. rewrite bind_run.
  unfold getCardById.
  destruct (db_query _ c) as [[found|e] c1] eqn:E1;
    apply db_query_run in E1; destruct E1 as (Hs1 & _ & Hfound).
  2:{ left. simpl. split; [eauto | exact Hs1]. }
  destruct (find (fun k => c_id k =? cardId) (cards (store c))) as [x|] eqn:Hx;
    simpl in Hfound; subst found.
  2:{ left. simpl. split; [eauto | exact Hs1]. }
  set (isCorrect := guessIsCorrect playerHand placementIndex (select_details x)).
  rewrite bind_run. unfold recordRoundOutcome.
  destruct (db_exec _ c1) as [[[]|e] c2] eqn:E2;
    apply db_exec_run in E2; destruct E2 as [_ Hs2].
  2:{ left. simpl. split; [eauto | congruence]. }
  rewrite Hs1 in Hs2.
  right. exists x, (store c2). split; [reflexivity|]. split; [exact Hs2|].
  rewrite bind_run. unfold getGameCards.
  destruct (db_query _ c2) as [[cards3|e] c3] eqn:E3;
    apply db_query_run in E3; destruct E3 as (Hs3 & _ & Hcards).
  2:{ left. simpl. split; [eauto | exact Hs3]. }
  rewrite bind_run. unfold getWonCardsCount.
  destruct (db_query _ c3) as [[won|e] c4] eqn:E4;
    apply db_query_run in E4; destruct E4 as (Hs4 & _ & Hwon).
  2:{ left. simpl. split; [eauto | congruence]. }
  rewrite bind_run. unfold getLostRoundsCount.
  destruct (db_query _ c4) as [[lost|e] c5] eqn:E5;
    apply db_query_run in E5; destruct E5 as (Hs5 & _ & Hlost).
  2:{ left. simpl. split; [eauto | congruence]. }
  rewrite Hs4, Hs3 in Hlost. rewrite Hs3 in Hwon. subst cards3 won lost.
  assert (Hs5' : store c5 = store c2) by congruence.
  rewrite bind_run.
  destruct (3 <=? count_rows (is_won_row gameId) (game_cards (store c2))).
  - rewrite bind_run. unfold endGame.
    destruct (db_exec _ c5) as [[[]|e] c6] eqn:E6;
      apply db_exec_run in E6; destruct E6 as [_ Hs6].
    2:{ left. simpl. split; [eauto | congruence]. }
    right. simpl. split; [reflexivity|].
    rewrite Hs5' in Hs6. unfold update_game in *. congruence.
  - destruct (3 <=? count_rows (is_lost_row gameId) (game_cards (store c2))).
    + rewrite bind_run. unfold endGame.
      destruct (db_exec _ c5) as [[[]|e] c6] eqn:E6;
        apply db_exec_run in E6; destruct E6 as [_ Hs6].
      2:{ left. simpl. split; [eauto | congruence]. }
      right. simpl. split; [reflexivity|].
      rewrite Hs5' in Hs6. unfold update_game in *. congruence.
    + right. simpl. split; [reflexivity | exact Hs5'].
Qed.

(** ** Timeouts and the lost-count *)

Lemma count_rows_app {A : Type} (p : A -> bool) (l1 l2 : list A) :
  count_rows p (l1 ++ l2) = count_rows p l1 + count_rows p l2.
Proof.
  unfold count_rows. rewrite filter_app, length_app. lia.
Qed.

Lemma count_rows_nonneg {A : Type} (p : A -> bool) (l : list A) :
  0 <= count_rows p l.
Proof. unfold count_rows. lia. Qed.

Lemma count_rows_one {A : Type} (p : A -> bool) (r : A) :
  count_rows p [r] = if p r then 1 else 0.
Proof. unfold count_rows. simpl. destruct (p r); reflexivity. Qed.

(** X18. A guess answered with 200 was judged on the card fetched by id,
    and its counts are the counts before the call with one more on the
    side the judge chose; the outcome is Won from three won cards on, else
    Lost from three lost rounds on. *)
Lemma guess_counts_and_thresholds (guessTime endTime : string)
  (gameId cardId : Z) (playerHand : list hand_entry)
  (placementIndex roundNumber : Z) (c : conn) (status : nat)
  (body : guess_body) (c' : conn) :
  postGuess guessTime endTime (Some gameId) (Some cardId) (Some playerHand)
    (Some placementIndex) (Some roundNumber) c = (Json status body, c') ->
  exists x,
    find (fun k => c_id k =? cardId) (cards (store c)) = Some x /\
    gb_badLuckIndex body = c_bad_luck_index x /\
    gb_isCorrect body =
    guessIsCorrect playerHand placementIndex (select_details x) /\
    gb_cardsWonCount body =
    count_rows (is_won_row gameId) (game_cards (store c)) +
    (if gb_isCorrect body then 1 else 0) /\
    gb_cardsLostCount body =
    count_rows (is_lost_row gameId) (game_cards (store c)) +
    (if gb_isCorrect body then 0 else 1) /\
    gb_gameOutcome body =
    (if 3 <=? gb_cardsWonCount body then Some "Won"
     else if 3 <=? gb_cardsLostCount body then Some "Lost" else None).
Proof.
  intros Hrun.
  pose proof (postGuess_effect guessTime endTime gameId cardId playerHand
                placementIndex roundNumber c) as H.
  cbv zeta in H. rewrite Hrun in H. simpl fst in H. simpl snd in H.
  destruct H as [[(st & err & Herr) _]|(x & d1 & Hx & Hins & H)];
    [discriminate Herr|].
  destruct H as [[(st & err & Herr) _]|[Hok _]]; [discriminate Herr|].
  apply insert_game_card_ok in Hins. subst d1.
  injection Hok as _ ->. exists x.
  cbn [gb_isCorrect gb_badLuckIndex gb_cardsWonCount gb_cardsLostCount
         gb_gameOutcome game_cards].
  rewrite !count_rows_app, !count_rows_one.
  split; [exact Hx|]. split; [reflexivity|]. split; [reflexivity|].
  assert (Hw : forall ok : bool,
             is_won_row gameId
               (mkGameCard (game_cards_seq (store c) + 1) gameId cardId
                  (if ok then "won" else "lost") (Some roundNumber)
                  (Some guessTime) (sql_bool (Some ok))) = ok).
  { intros ok. unfold is_won_row. cbn [gc_game_id gc_status].
    rewrite Z.eqb_refl. destruct ok; reflexivity. }
  assert (Hl : forall ok : bool,
             is_lost_row gameId
               (mkGameCard (game_cards_seq (store c) + 1) gameId cardId
                  (if ok then "won" else "lost") (Some roundNumber)
                  (Some guessTime) (sql_bool (Some ok))) = negb ok).
  { intros ok. unfold is_lost_row.
    cbn [gc_game_id gc_status gc_is_correct_guess].
    rewrite Z.eqb_refl. destruct ok; reflexivity. }
  rewrite Hw, Hl.
  destruct (guessIsCorrect playerHand placementIndex (select_details x));
    repeat split; reflexivity.
Qed.

(** The demo handler judges the card fetched by id in the same way. *)
Lemma demo_guess_judged_on_fetched_card (initialCards : list hand_entry)
  (newCardId placementIndex : Z) (c : conn) (status : nat)
  (body : demo_guess_body) (c' : conn) :
  postDemoGuess (Some initialCards) (Some newCardId) (Some placementIndex) c =
  (Json status body, c') ->
  store c' = store c /\
  exists x,
    find (fun k => c_id k =? newCardId) (cards (store c)) = Some x /\
    dg_badLuckIndex body = c_bad_luck_index x /\
    dg_isCorrect body =
    guessIsCorrect initialCards placementIndex (select_details x).
Proof.
  unfold postDemoGuess, handle. rewrite bind_run. unfold getCardById.
  destruct (db_query _ c) as [[found|e] c1] eqn:E1;
    apply db_query_run in E1; destruct E1 as (Hs1 & _ & Hfound);
    [|discriminate].
  destruct (find (fun k => c_id k =? newCardId) (cards (store c))) as [x|];
    simpl in Hfound; subst found; [|discriminate].
  simpl. intros H. injection H as _ <- <-.
  split; [exact Hs1|]. exists x. repeat split.
Qed.

Lemma discarded_row_not_counted (gameId : Z) (r : game_card) :
  gc_status r = "discarded" -> is_lost_row gameId r = false.
Proof.
  intros H. unfold is_lost_row. rewrite H. simpl. apply andb_false_r.
Qed.

(** On every connection, a timeout answered with 200 reports the
    lost-count the game had before the call. *)
Lemma lose_round_leaves_lost_count (guessTime endTime : string)
  (gameId cardId roundNumber : Z) (c : conn) (status : nat)
  (body : lose_round_body) (c' : conn) :
  postLoseRound guessTime endTime (Some gameId) (Some cardId)
    (Some roundNumber) c = (Json status body, c') ->
  lb_cardsLostCount body =
  count_rows (is_lost_row gameId) (game_cards (store c)).
Proof.
  unfold postLoseRound, handle. rewrite bind_run.
  unfold recordRoundOutcome.
  destruct (db_exec _ c) as [[[]|e] c1] eqn:E1;
    apply db_exec_run in E1; destruct E1 as [_ Hs1]; [|discriminate].
  apply insert_game_card_ok in Hs1.
  rewrite bind_run. unfold getLostRoundsCount.
  destruct (db_query _ c1) as [[lost|e] c2] eqn:E2;
    apply db_query_run in E2; destruct E2 as (_ & _ & Hlost); [|discriminate].
  assert (Hcount : lost = count_rows (is_lost_row gameId) (game_cards (store c))).
  { rewrite Hlost, Hs1. simpl. rewrite count_rows_app.
    unfold count_rows at 2. simpl.
    rewrite discarded_row_not_counted by reflexivity. simpl. lia. }
  rewrite bind_run.
  destruct (3 <=? lost).
  - rewrite !bind_run.
    destruct (getGameCards gameId c2) as [[cards3|e] c3]; [|discriminate].
    rewrite bind_run.
    destruct (endGame _ _ _ _ c3) as [[[]|e] c4]; [|discriminate].
    simpl. intros H. injection H as _ <- _. exact Hcount.
  - simpl. intros H. injection H as _ <- _. exact Hcount.
Qed.

(** C1 (the code departs from the claim). In the longer game, before any
    round, the lost-count is 0; the first timeout records card 4 with
    status `discarded` and flag 0, and the lost-count the handler reads
    back and returns is still 0, not 1. *)
Theorem timeout_not_counted_as_lost :
  fst (getLostRoundsCount 1 table_started) = Ok 0 /\
  lose_round_summary (fst after_timeout_1) = Some (None, 0) /\
  map (fun r => (gc_card_id r, gc_status r, gc_is_correct_guess r))
    (game_cards (store (snd after_timeout_1))) =
  [(1, "initial", None); (2, "initial", None); (3, "initial", None);
   (4, "discarded", Some 0)] /\
  fst (getLostRoundsCount 1 (snd after_timeout_1)) = Ok 0.
Proof. vm_compute. repeat split. Qed.

(** C2 (the code departs from the claim). Three rounds of the longer game
    are lost to the timer: each answer reports no outcome and lost-count 0,
    and the game row still has the empty outcome and end time. *)
Theorem three_timeouts_do_not_end_game :
  map lose_round_summary
    [fst after_timeout_1; fst after_timeout_2; fst after_timeout_3] =
  [Some (None, 0); Some (None, 0); Some (None, 0)] /\
  map gc_status (game_cards (store (snd after_timeout_3))) =
  ["initial"; "initial"; "initial"; "discarded"; "discarded"; "discarded"] /\
  game_header 1 (snd after_timeout_3) = [("", "", 0)].
Proof. vm_compute. repeat split. Qed.

(** The guess path does what the timeout path misses: the third wrong
    guess ends the game as Lost, the third right guess as Won. *)
Example three_wrong_guesses_lose :
  map guess_summary [fst after_wrong_1; fst after_wrong_2; fst after_wrong_3] =
  [Some (false, None, 0, 1); Some (false, None, 0, 2);
   Some (false, Some "Lost", 0, 3)] /\
  game_header 1 (snd after_wrong_3) = [("Lost", "2025-06-02T09:01:30.000Z", 3)].
Proof. vm_compute. split; reflexivity. Qed.

Example three_right_guesses_win :
  map guess_summary [fst after_right_1; fst after_right_2; fst after_right_3] =
  [Some (true, None, 1, 0); Some (true, None, 2, 0);
   Some (true, Some "Won", 3, 0)] /\
  game_header 1 (snd after_right_3) = [("Won", "2025-06-02T09:01:30.000Z", 6)].
Proof. vm_compute. split; reflexivity. Qed.

(** ** The section 8 scenario *)

(** C8, as stated: a won-count of 4 is not what the handler returns. *)
Lemma scenario_won_count_is_not_4 : ~ scenario_result 4.
Proof.
  intros (body & c' & H & _ & _ & _ & Hwon).
  vm_compute in H. injection H as <- _. vm_compute in Hwon. discriminate Hwon.
Qed.

(** C8, amended. D placed at index 2 is judged correct, the hand returned
    is A, B, D, C, four cards, and the won-count returned is 1: the count
    of `won` rows, which the three initial cards are not. *)
Theorem scenario_won_count_is_1 : scenario_result 1.
Proof.
  unfold scenario_result. eexists. eexists.
  split; [vm_compute; reflexivity|]. repeat split.
Qed.

(** ** Terminal outcomes are not guarded *)

(** C6, as stated: the longer game is Lost with two cards won; one more
    guess, a correct one, turns it into Won with a new end timestamp and a
    new collected count. *)
Lemma lost_game_becomes_won : ~ stays_final 1 lost_game guess_after_lost.
Proof.
  intros H.
  assert (Hfinal : exists h, In h (game_header 1 lost_game) /\
                             (outcome_is "Won" h \/ outcome_is "Lost" h)).
  { exists ("Lost", "2025-06-02T09:02:10.000Z", 5). split.
    - vm_compute. left. reflexivity.
    - right. reflexivity. }
  apply H in Hfinal. vm_compute in Hfinal. discriminate Hfinal.
Qed.

Lemma game_header_same (gameId : Z) (c c' : conn) :
  games (store c') = games (store c) ->
  game_header gameId c' = game_header gameId c.
Proof. unfold game_header. intros ->. reflexivity. Qed.

Lemma game_header_updated (endTime outcome : string) (n gameId : Z)
  (c c' : conn) :
  games (store c') = games (snd (update_game endTime outcome n gameId (store c))) ->
  game_header gameId c' =
  map (fun _ => (outcome, endTime, n)) (game_header gameId c).
Proof.
  unfold game_header. intros ->. simpl.
  induction (games (store c)) as [|g rest IH]; [reflexivity|].
  simpl. destruct (g_id g =? gameId) eqn:E; simpl.
  - rewrite E. simpl. rewrite IH. reflexivity.
  - rewrite E. exact IH.
Qed.

(** In the longer game, Won with three right guesses, a fourth right guess
    overwrites the end timestamp and the collected count. *)
Example won_game_header_rewritten :
  game_header 1 (snd after_right_3) =
  [("Won", "2025-06-02T09:01:30.000Z", 6)] /\
  game_header 1
    (snd (guess_round 4 7 [1; 2; 3; 4; 5; 6] 6 "2025-06-02T09:02:00.000Z"
            (snd after_right_3))) =
  [("Won", "2025-06-02T09:02:00.000Z", 7)].
Proof. vm_compute. split; reflexivity. Qed.

(** ** The placement index is not range-checked *)

(** C7, as stated: in the section 8 game the hand has the insertion
    positions 0..3; a guess at position 99 is answered with 200 and its
    event is recorded. *)
Lemma out_of_range_guess_is_recorded :
  out_of_range scenario_hand 99 /\
  ~ rejected_unrecorded scenario_started (scenario_guess 99).
Proof.
  split.
  - right. vm_compute. reflexivity.
  - intros [(status & error & H) _]. vm_compute in H. discriminate H.
Qed.

Lemma splice_start_in_range (len start : Z) :
  0 <= len -> 0 <= Js.splice_start len start <= len.
Proof.
  unfold Js.splice_start. intros Hlen.
  destruct (Z.ltb_spec start 0); lia.
Qed.

Lemma splice_start_idempotent (len start : Z) :
  0 <= len ->
  Js.splice_start len (Js.splice_start len start) = Js.splice_start len start.
Proof.
  intros Hlen. pose proof (splice_start_in_range len start Hlen) as H.
  unfold Js.splice_start at 1.
  destruct (Z.ltb_spec (Js.splice_start len start) 0); lia.
Qed.

Lemma guessIsCorrect_clamped (playerHand : list hand_entry)
  (placementIndex : Z) (newCard : card_details) :
  guessIsCorrect playerHand placementIndex newCard =
  guessIsCorrect playerHand
    (Js.splice_start (Z.of_nat (List.length playerHand)) placementIndex)
    newCard.
Proof.
  unfold guessIsCorrect, Js.splice_insert.
  rewrite splice_start_idempotent by lia. reflexivity.
Qed.

(** * Further properties of the engine *)

(** ** The round judge on sorted and unsorted hands *)

Lemma StronglySorted_app_iff {A : Type} (R : A -> A -> Prop) (l1 l2 : list A) :
  StronglySorted R (l1 ++ l2) <->
  StronglySorted R l1 /\ StronglySorted R l2 /\
  (forall a b, In a l1 -> In b l2 -> R a b).
Proof.
  induction l1 as [|x l1 IH]; simpl.
  - split.
    + intros H. repeat split; [constructor | exact H | intros a b []].
    + intros (_ & H & _). exact H.
  - split.
    + intros H. inversion H as [|? ? Hs Hall]; subst.
      apply IH in Hs. destruct Hs as (H1 & H2 & H12).
      rewrite Forall_app in Hall. destruct Hall as [Ha1 Ha2].
      repeat split.
      * constructor; assumption.
      * exact H2.
      * intros a b [<-|Ha] Hb.
        -- exact (proj1 (Forall_forall _ _) Ha2 b Hb).
        -- exact (H12 a b Ha Hb).
    + intros (H1 & H2 & H12). inversion H1 as [|? ? Hs Hall]; subst.
      constructor.
      * apply IH. repeat split; [exact Hs | exact H2 |].
        intros a b Ha Hb. apply H12; [right; exact Ha | exact Hb].
      * apply Forall_app. split; [exact Hall|].
        apply Forall_forall. intros b Hb. apply H12; [left; reflexivity | exact Hb].
Qed.

Lemma handStillSorted_strongly (l : list hand_entry) :
  handStillSorted l = true <-> StronglySorted entry_le l.
Proof.
  rewrite handStillSorted_iff. split.
  - induction l as [|a [|b rest] IH]; intros H.
    + constructor.
    + constructor; constructor.
    + apply adjacent_nondecreasing_cons in H. destruct H as [Hab H].
      specialize (IH H). constructor; [exact IH|].
      inversion IH as [|? ? _ Hall]; subst.
      constructor; [exact Hab|].
      apply Forall_forall. intros z Hz. unfold entry_le.
      apply Qle_trans with (h_bad_luck_index b); [exact Hab|].
      exact (proj1 (Forall_forall _ _) Hall z Hz).
  - induction l as [|a [|b rest] IH]; intros H.
    + intros [|i] l r Hl; discriminate Hl.
    + intros [|[|i]] l r Hl Hr; discriminate Hr.
    + inversion H as [|? ? Hs Hall]; subst.
      apply adjacent_nondecreasing_cons. split.
      * inversion Hall; assumption.
      * apply IH. exact Hs.
Qed.

Lemma splice_sorted_iff (hand : list hand_entry) (k : nat) (x : hand_entry) :
  StronglySorted entry_le (firstn k hand ++ x :: skipn k hand) <->
  StronglySorted entry_le hand /\
  (forall e, In e (firstn k hand) -> entry_le e x) /\
  (forall e, In e (skipn k hand) -> entry_le x e).
Proof.
  rewrite <- (firstn_skipn k hand) at 3.
  rewrite !StronglySorted_app_iff. split.
  - intros (H1 & H2 & H12). inversion H2 as [|? ? Hs Hall]; subst.
    repeat split.
    + exact H1.
    + exact Hs.
    + intros a b Ha Hb. apply H12; [exact Ha | right; exact Hb].
    + intros e He. apply (H12 e x He). left. reflexivity.
    + intros e He. exact (proj1 (Forall_forall _ _) Hall e He).
  - intros ((H1 & H2 & H12) & Hbefore & Hafter). repeat split.
    + exact H1.
    + constructor; [exact H2|]. apply Forall_forall. exact Hafter.
    + intros a b Ha [<-|Hb].
      * apply Hbefore. exact Ha.
      * apply H12; assumption.
Qed.

Lemma hand_out_of_order_never_correct
  (hand : list hand_entry) (placementIndex : Z) (newCard : card_details) :
  handStillSorted hand = false ->
  guessIsCorrect hand placementIndex newCard = false.
Proof.
  intros H. destruct (guessIsCorrect hand placementIndex newCard) eqn:E;
    [|reflexivity].
  unfold guessIsCorrect, Js.splice_insert in E.
  apply handStillSorted_strongly, splice_sorted_iff in E.
  destruct E as [E _]. apply handStillSorted_strongly in E. congruence.
Qed.

Lemma sorted_hand_split (v : Q) (hand : list hand_entry) :
  StronglySorted entry_le hand ->
  exists k : nat,
    (k <= List.length hand)%nat /\
    (forall e, In e (firstn k hand) -> (h_bad_luck_index e <= v)%Q) /\
    (forall e, In e (skipn k hand) -> (v <= h_bad_luck_index e)%Q).
Proof.
  induction 1 as [|a rest Hs IH Hall].
  - exists O. repeat split; [apply Nat.le_refl | intros e [] | intros e []].
  - destruct (Qlt_le_dec (h_bad_luck_index a) v) as [Hlt|Hle].
    + destruct IH as (k & Hk & Hbefore & Hafter). exists (S k).
      repeat split.
      * simpl. apply le_n_S. exact Hk.
      * intros e [<-|He]; [apply Qlt_le_weak; exact Hlt | apply Hbefore; exact He].
      * exact Hafter.
    + exists O. repeat split.
      * apply Nat.le_0_l.
      * intros e [].
      * intros e [<-|He]; [exact Hle|].
        apply Qle_trans with (h_bad_luck_index a); [exact Hle|].
        exact (proj1 (Forall_forall _ _) Hall e He).
Qed.

(** X2. Whatever the index of the new card, a hand in non-decreasing order
    has an insertion position between 0 and its length at which the guess
    is judged correct. *)
Theorem sorted_hand_has_correct_position
  (hand : list hand_entry) (newCard : card_details) :
  handStillSorted hand = true ->
  exists placementIndex : Z,
    0 <= placementIndex <= Z.of_nat (List.length hand) /\
    guessIsCorrect hand placementIndex newCard = true.
Proof.
  intros Hsorted.
  destruct (sorted_hand_split (cd_bad_luck_index newCard) hand
              (proj1 (handStillSorted_strongly hand) Hsorted))
    as (k & Hk & Hbefore & Hafter).
  exists (Z.of_nat k). split; [lia|].
  assert (E : Js.splice_start (Z.of_nat (List.length hand)) (Z.of_nat k)
              = Z.of_nat k).
  { unfold Js.splice_start. destruct (Z.ltb_spec (Z.of_nat k) 0); lia. }
  unfold guessIsCorrect, Js.splice_insert. rewrite E, Nat2Z.id.
  apply handStillSorted_strongly, splice_sorted_iff.
  split; [apply handStillSorted_strongly; exact Hsorted|].
  split; assumption.
Qed.

Lemma sorted_hand_has_correct_position_witness :
  exists placementIndex : Z,
    0 <= placementIndex <= Z.of_nat (List.length scenario_hand) /\
    guessIsCorrect scenario_hand placementIndex (select_details card_D) = true.
Proof.
  apply sorted_hand_has_correct_position. reflexivity.
Defined.

(** X3. When the game page shows placement buttons, they carry exactly
    the insertion positions 0 .. n of the n cards held, and the server's
    [splice] uses each of them unchanged. *)
Theorem placement_buttons_are_insertion_positions {C P : Type}
  (currentRoundCard : option C) (proposedPlacementIndex : option Z)
  (gameOutcome : option string) (playerCards : list P) (buttons : list Z) :
  renderPlacementButtons currentRoundCard proposedPlacementIndex gameOutcome
    playerCards = Some buttons ->
  let n := Z.of_nat (List.length playerCards) in
  List.length buttons = S (List.length playerCards) /\
  (forall p, In p buttons <-> 0 <= p <= n) /\
  (forall p, In p buttons -> Js.splice_start n p = p).
Proof.
  unfold renderPlacementButtons.
  destruct currentRoundCard; [|discriminate].
  destruct proposedPlacementIndex; [discriminate|].
  destruct (match gameOutcome with Some o => _ | None => _ end); [discriminate|].
  intros H. injection H as <-. cbv zeta.
  assert (Hin : forall p,
             In p (0 :: map (fun i => Z.of_nat i + 1)
                         (seq 0 (List.length playerCards))) <->
             0 <= p <= Z.of_nat (List.length playerCards)).
  { intros p. simpl. rewrite in_map_iff. split.
    - intros [<-|(i & <- & Hi)]; [lia|]. apply in_seq in Hi. lia.
    - intros Hp. destruct (Z.eq_dec p 0) as [->|Hne]; [left; reflexivity|].
      right. exists (Z.to_nat (p - 1)). split; [lia|]. apply in_seq. lia. }
  split; [|split].
  - simpl. rewrite length_map, length_seq. reflexivity.
  - exact Hin.
  - intros p Hp. apply Hin in Hp. unfold Js.splice_start.
    destruct (Z.ltb_spec p 0); lia.
Qed.

Lemma placement_buttons_are_insertion_positions_witness :
  let n := Z.of_nat (List.length scenario_hand) in
  List.length [0; 1; 2; 3] = S (List.length scenario_hand) /\
  (forall p, In p [0; 1; 2; 3] <-> 0 <= p <= n) /\
  (forall p, In p [0; 1; 2; 3] -> Js.splice_start n p = p).
Proof.
  apply (placement_buttons_are_insertion_positions
           (Some (mkNextRound 4 "D" "d.png")) None None scenario_hand).
  reflexivity.
Defined.

(** ** Drawing cards *)

Lemma distinctb_NoDup (l : list Z) : distinctb l = true -> NoDup l.
Proof.
  induction l as [|x t IH]; simpl; intros H; constructor.
  - apply andb_prop in H. destruct H as [H _].
    apply negb_true_iff in H. intros Hin.
    assert (E : existsb (fun y => x =? y) t = true).
    { apply existsb_exists. exists x. split; [exact Hin | apply Z.eqb_refl]. }
    congruence.
  - apply IH. apply andb_prop in H. tauto.
Qed.

Lemma nth_split_at {A : Type} (d : A) :
  forall (k : nat) (l : list A),
    (k < List.length l)%nat ->
    l = firstn k l ++ nth k l d :: skipn (S k) l.
Proof.
  induction k as [|k IH]; intros [|x t] H; simpl in *; try lia.
  - reflexivity.
  - f_equal. apply IH. lia.
Qed.

Lemma shuffle_perm {A : Type} (fuel : nat) :
  forall (picks : list nat) (rows : list A),
    (List.length rows <= fuel)%nat ->
    Permutation (shuffle fuel picks rows) rows.
Proof.
  induction fuel as [|fuel IH]; intros picks rows Hlen.
  - destruct rows; [apply perm_nil | simpl in Hlen; lia].
  - destruct rows as [|r0 rest]; [apply perm_nil|].
    cbn [shuffle].
    set (k := Nat.modulo (hd O picks) (List.length (r0 :: rest))).
    assert (Hk : (k < List.length (r0 :: rest))%nat)
      by (apply Nat.mod_upper_bound; discriminate).
    rewrite (nth_split_at r0 k (r0 :: rest) Hk) at 4.
    apply Permutation_cons_app. apply IH.
    rewrite length_app, length_firstn, length_skipn. simpl in *. lia.
Qed.

Lemma order_by_random_perm {A : Type} (picks : list nat) (rows : list A) :
  Permutation (order_by_random picks rows) rows.
Proof. apply shuffle_perm. apply Nat.le_refl. Qed.

Lemma not_in_nil (rows : list card) : filter (not_in []) rows = rows.
Proof.
  induction rows as [|x t IH]; [reflexivity|].
  simpl. rewrite IH. reflexivity.
Qed.

Lemma eligible_rows (excludeCardIds : list Z) (d : db) :
  match excludeCardIds with
  | [] => cards d
  | _ :: _ => filter (not_in excludeCardIds) (cards d)
  end = eligible excludeCardIds d.
Proof.
  unfold eligible. destruct excludeCardIds; [|reflexivity].
  symmetry. apply not_in_nil.
Qed.

(** Rows selected from rows with distinct keys have distinct keys. *)
Lemma selected_keys_distinct {Row Key : Type} (key : Row -> Key)
  (keep : Row -> bool) :
  forall rows : list Row,
    NoDup (map key rows) -> NoDup (map key (filter keep rows)).
Proof.
  intros rows. induction rows as [|row rest IH].
  - intros _. apply NoDup_nil.
  - cbn [map filter]. intros Hd. apply NoDup_cons_iff in Hd.
    destruct Hd as [Hfresh Hrest]. specialize (IH Hrest).
    destruct (keep row); [|exact IH].
    cbn [map]. apply NoDup_cons; [|exact IH].
    intros Hin. apply Hfresh. apply in_map_iff in Hin.
    destruct Hin as (other & Hkey & Hother).
    apply filter_In in Hother. apply in_map_iff.
    exists other. split; [exact Hkey | exact (proj1 Hother)].
Qed.

(** The first rows of rows without repeats have no repeats. *)
Lemma first_rows_distinct {Row : Type} (n : nat) (rows : list Row) :
  NoDup rows -> NoDup (firstn n rows).
Proof.
  intros Hd. rewrite <- (firstn_skipn n rows) in Hd.
  exact (NoDup_app_remove_r _ _ Hd).
Qed.

(** The cards a draw returns, when the statement does not fail. *)
Lemma getRandomCards_no_faults (picks : list nat) (limit : nat)
  (excludeCardIds : list Z) (c : conn) :
  faults c = [] ->
  getRandomCards picks limit excludeCardIds c =
  (Ok (map select_details
         (firstn limit
            (order_by_random picks (eligible excludeCardIds (store c))))),
   c).
Proof.
  intros Hf. unfold getRandomCards.
  rewrite (db_query_no_faults _ c Hf), eligible_rows. reflexivity.
Qed.

Lemma drawn_cards_facts (picks : list nat) (limit : nat)
  (excludeCardIds : list Z) (d : db) :
  let drawn := firstn limit (order_by_random picks (eligible excludeCardIds d)) in
  List.length drawn = Nat.min limit (List.length (eligible excludeCardIds d)) /\
  (NoDup (map c_id (cards d)) -> NoDup (map c_id drawn)) /\
  (forall x, In x drawn -> In x (cards d) /\ ~ In (c_id x) excludeCardIds).
Proof.
  cbv zeta. split; [|split].
  - rewrite length_firstn.
    rewrite (Permutation_length (order_by_random_perm picks _)). reflexivity.
  - intros Hnd. rewrite <- firstn_map. apply first_rows_distinct.
    apply (Permutation_NoDup
             (Permutation_sym
                (Permutation_map c_id (order_by_random_perm picks _)))).
    apply selected_keys_distinct. exact Hnd.
  - intros x Hx. apply firstn_In in Hx.
    apply (Permutation_in _ (order_by_random_perm picks _)) in Hx.
    apply filter_In in Hx. destruct Hx as [Hin Hnot].
    split; [exact Hin | apply not_in_spec; exact Hnot].
Qed.

(** X4. When the statement does not fail, [getRandomCards] returns
    min(limit, number of eligible cards) cards, where a card is eligible
    when its id is not excluded: as many as asked for, or all that are
    left.  Each returned card is an eligible card of the catalog, and no
    card is returned twice when the catalog's ids are distinct.  The
    database is left as it was. *)
Theorem getRandomCards_returns_eligible_cards
  (picks : list nat) (limit : nat) (excludeCardIds : list Z) (c : conn) :
  faults c = [] ->
  NoDup (map c_id (cards (store c))) ->
  exists drawn : list card_details,
    getRandomCards picks limit excludeCardIds c = (Ok drawn, c) /\
    List.length drawn =
    Nat.min limit (List.length (eligible excludeCardIds (store c))) /\
    NoDup (map cd_id drawn) /\
    (forall card, In card drawn ->
       exists x, In x (cards (store c)) /\ card = select_details x /\
                 ~ In (c_id x) excludeCardIds).
Proof.
  intros Hf Hnd. eexists. split; [apply getRandomCards_no_faults; exact Hf|].
  destruct (drawn_cards_facts picks limit excludeCardIds (store c))
    as (Hlen & Hdistinct & Hmem).
  split; [|split].
  - rewrite length_map. exact Hlen.
  - rewrite map_map. apply Hdistinct. exact Hnd.
  - intros card Hcard. apply in_map_iff in Hcard.
    destruct Hcard as (x & <- & Hx). exists x.
    destruct (Hmem x Hx) as [Hin Hnot]. auto.
Qed.

Lemma getRandomCards_returns_eligible_cards_witness :
  exists drawn : list card_details,
    getRandomCards [3%nat; 1%nat] 5 [1; 2; 3] scenario_conn =
    (Ok drawn, scenario_conn) /\
    List.length drawn =
    Nat.min 5 (List.length (eligible [1; 2; 3] (store scenario_conn))) /\
    NoDup (map cd_id drawn) /\
    (forall card, In card drawn ->
       exists x, In x (cards (store scenario_conn)) /\
                 card = select_details x /\ ~ In (c_id x) [1; 2; 3]).
Proof.
  apply getRandomCards_returns_eligible_cards.
  - reflexivity.
  - apply distinctb_NoDup. reflexivity.
Defined.

(** ** The schema's constraints are an invariant of the handlers *)

Lemma has_user_In (d : db) (userId : Z) :
  has_user d userId = true <-> In userId (users d).
Proof.
  unfold has_user. rewrite existsb_exists. split.
  - intros (u & Hu & E). apply Z.eqb_eq in E. subst. exact Hu.
  - intros H. exists userId. split; [exact H | apply Z.eqb_refl].
Qed.

Lemma has_game_In (d : db) (gameId : Z) :
  has_game d gameId = true <-> In gameId (map g_id (games d)).
Proof.
  unfold has_game. rewrite existsb_exists, in_map_iff. split.
  - intros (g & Hg & E). apply Z.eqb_eq in E. exists g. tauto.
  - intros (g & E & Hg). exists g. split; [exact Hg | apply Z.eqb_eq; exact E].
Qed.

Lemma has_card_In (d : db) (cardId : Z) :
  has_card d cardId = true <-> In cardId (map c_id (cards d)).
Proof.
  unfold has_card. rewrite existsb_exists, in_map_iff. split.
  - intros (x & Hx & E). apply Z.eqb_eq in E. exists x. tauto.
  - intros (x & E & Hx). exists x. split; [exact Hx | apply Z.eqb_eq; exact E].
Qed.

Lemma has_game_card_In (d : db) (gameId cardId : Z) :
  has_game_card d gameId cardId = true <->
  In (gameId, cardId)
    (map (fun r => (gc_game_id r, gc_card_id r)) (game_cards d)).
Proof.
  unfold has_game_card. rewrite existsb_exists, in_map_iff. split.
  - intros (r & Hr & E). apply andb_prop in E. destruct E as [E1 E2].
    apply Z.eqb_eq in E1, E2. exists r. subst. tauto.
  - intros (r & E & Hr). injection E as E1 E2. exists r.
    split; [exact Hr|]. rewrite E1, E2, !Z.eqb_refl. reflexivity.
Qed.

Lemma NoDup_snoc {A : Type} (l : list A) (x : A) :
  NoDup l -> ~ In x l -> NoDup (l ++ [x]).
Proof.
  intros Hl Hx. apply NoDup_app; [exact Hl | repeat constructor; intros [] |].
  intros a Ha [<-|[]]. exact (Hx Ha).
Qed.

Lemma insert_game_keeps (userId : Z) (startTime endTime outcome : string)
  (n : Z) (d d' : db) (id : Z) :
  db_ok d -> insert_game userId startTime endTime outcome n d = (Ok id, d') ->
  db_ok d'.
Proof.
  intros [H1 H2 H3 H4 H5 H6 H7 H8 H9]. unfold insert_game.
  destruct (has_user d userId) eqn:Hu; [|discriminate].
  intros H. injection H as <- <-. apply has_user_In in Hu.
  constructor; simpl; try assumption.
  - rewrite map_app. simpl. apply NoDup_snoc; [exact H2|].
    intros Hin. apply in_map_iff in Hin. destruct Hin as (g & E & Hg).
    specialize (H3 g Hg). lia.
  - intros g Hg. apply in_app_or in Hg. destruct Hg as [Hg|[<-|[]]].
    + specialize (H3 g Hg). lia.
    + simpl. lia.
  - intros g Hg. apply in_app_or in Hg. destruct Hg as [Hg|[<-|[]]].
    + exact (H4 g Hg).
    + exact Hu.
  - intros r Hr. rewrite map_app. apply in_or_app. left. exact (H8 r Hr).
Qed.

Lemma insert_game_card_keeps (gameId cardId : Z) (status : string)
  (round : option Z) (guessTime : option string) (flag : option Z)
  (d d' : db) :
  db_ok d ->
  insert_game_card gameId cardId status round guessTime flag d = (Ok tt, d') ->
  db_ok d'.
Proof.
  intros [H1 H2 H3 H4 H5 H6 H7 H8 H9]. unfold insert_game_card.
  destruct (has_game_card d gameId cardId) eqn:Hgc; [discriminate|].
  destruct (has_game d gameId) eqn:Hg; [|discriminate].
  destruct (has_card d cardId) eqn:Hc; [|discriminate].
  simpl. intros H. injection H as <-.
  apply has_game_In in Hg. apply has_card_In in Hc.
  constructor; simpl; try assumption.
  - rewrite map_app. simpl. apply NoDup_snoc; [exact H5|].
    intros Hin. apply in_map_iff in Hin. destruct Hin as (r & E & Hr).
    specialize (H6 r Hr). lia.
  - intros r Hr. apply in_app_or in Hr. destruct Hr as [Hr|[<-|[]]].
    + specialize (H6 r Hr). lia.
    + simpl. lia.
  - rewrite map_app. simpl. apply NoDup_snoc; [exact H7|].
    intros Hin. apply has_game_card_In in Hin. congruence.
  - intros r Hr. apply in_app_or in Hr. destruct Hr as [Hr|[<-|[]]].
    + exact (H8 r Hr).
    + exact Hg.
  - intros r Hr. apply in_app_or in Hr. destruct Hr as [Hr|[<-|[]]].
    + exact (H9 r Hr).
    + exact Hc.
Qed.

Lemma update_game_ids (endTime outcome : string) (n gameId : Z)
  (gs : list game) :
  let gs' :=
    map (fun g =>
           if g_id g =? gameId
           then mkGame (g_id g) (g_user_id g) (g_start_time g)
                  endTime outcome n
           else g) gs in
  map g_id gs' = map g_id gs /\ map g_user_id gs' = map g_user_id gs.
Proof.
  cbv zeta. rewrite !map_map. split; apply map_ext; intros g;
    destruct (g_id g =? gameId); reflexivity.
Qed.

Lemma update_game_keeps (endTime outcome : string) (n gameId : Z) (d : db) :
  db_ok d -> db_ok (snd (update_game endTime outcome n gameId d)).
Proof.
  intros [H1 H2 H3 H4 H5 H6 H7 H8 H9].
  destruct (update_game_ids endTime outcome n gameId (games d)) as [Hid Huser].
  constructor; simpl; try assumption.
  - rewrite Hid. exact H2.
  - intros g Hg. apply in_map_iff in Hg. destruct Hg as (g0 & <- & Hg0).
    specialize (H3 g0 Hg0). destruct (g_id g0 =? gameId); exact H3.
  - intros g Hg. apply in_map_iff in Hg. destruct Hg as (g0 & <- & Hg0).
    specialize (H4 g0 Hg0). destruct (g_id g0 =? gameId); exact H4.
  - intros r Hr. rewrite Hid. exact (H8 r Hr).
Qed.

(** *** Every building block of the connection monad keeps the invariant *)

Lemma keeps_ret {A : Type} (a : A) : keeps_ok (ret a).
Proof. intros c r c' Hc H. injection H as _ <-. exact Hc. Qed.

Lemma keeps_throw {A : Type} (e : sql_error) : keeps_ok (@throw A e).
Proof. intros c r c' Hc H. injection H as _ <-. exact Hc. Qed.

Lemma keeps_bind {A B : Type} (m : M A) (k : A -> M B) :
  keeps_ok m -> (forall a, keeps_ok (k a)) -> keeps_ok (bind m k).
Proof.
  intros Hm Hk c r c' Hc. rewrite bind_run.
  destruct (m c) as [[a|e] c1] eqn:E; specialize (Hm c _ c1 Hc E).
  - apply Hk. exact Hm.
  - intros H. injection H as _ <-. exact Hm.
Qed.

Lemma keeps_try_catch {A : Type} (m : M A) (h : sql_error -> M A) :
  keeps_ok m -> (forall e, keeps_ok (h e)) -> keeps_ok (try_catch m h).
Proof.
  intros Hm Hh c r c' Hc. unfold try_catch.
  destruct (m c) as [[a|e] c1] eqn:E; specialize (Hm c _ c1 Hc E).
  - intros H. injection H as _ <-. exact Hm.
  - apply Hh. exact Hm.
Qed.

Lemma keeps_io : keeps_ok io.
Proof.
  intros c r c' [Hs Ht] H. apply io_run in H. destruct H as [E1 E2].
  unfold conn_ok. rewrite E1, E2. split; assumption.
Qed.

Lemma keeps_db_query {A : Type} (q : db -> A) : keeps_ok (db_query q).
Proof.
  intros c r c' [Hs Ht] H. apply db_query_run in H.
  destruct H as (E1 & E2 & _). unfold conn_ok. rewrite E1, E2.
  split; assumption.
Qed.

Lemma keeps_db_exec {A : Type} (stmt : db -> result A * db) :
  (forall d a d', db_ok d -> stmt d = (Ok a, d') -> db_ok d') ->
  keeps_ok (db_exec stmt).
Proof.
  intros Hstmt c r c' [Hs Ht] H. apply db_exec_run in H.
  destruct H as [E H]. unfold conn_ok. rewrite E. split; [|exact Ht].
  destruct r as [a|e]; [exact (Hstmt _ _ _ Hs H) | rewrite H; exact Hs].
Qed.

Lemma keeps_db_begin : keeps_ok db_begin.
Proof.
  intros c r c' Hc. unfold db_begin. rewrite bind_run.
  destruct (io c) as [[[]|e] c1] eqn:E; apply (keeps_io c _ c1 Hc) in E.
  - destruct (tx c1) eqn:T; intros H; injection H as _ <-; [exact E|].
    destruct E as [Hs _]. split; [exact Hs|].
    simpl. intros saved H. injection H as <-. exact Hs.
  - intros H. injection H as _ <-. exact E.
Qed.

Lemma keeps_db_commit : keeps_ok db_commit.
Proof.
  intros c r c' Hc. unfold db_commit. rewrite bind_run.
  destruct (io c) as [[[]|e] c1] eqn:E; apply (keeps_io c _ c1 Hc) in E.
  - destruct (tx c1) eqn:T; intros H; injection H as _ <-; [|exact E].
    destruct E as [Hs _]. split; [exact Hs|]. simpl. discriminate.
  - intros H. injection H as _ <-. exact E.
Qed.

Lemma keeps_db_rollback : keeps_ok db_rollback.
Proof.
  intros c r c' [Hs Ht]. unfold db_rollback.
  destruct (tx c) as [saved|] eqn:T; intros H; injection H as _ <-.
  - split; [apply Ht; reflexivity | simpl; discriminate].
  - split; [exact Hs | rewrite T; discriminate].
Qed.

Lemma keeps_for_each {A : Type} (f : A -> M unit) (xs : list A) :
  (forall x, keeps_ok (f x)) -> keeps_ok (for_each f xs).
Proof.
  intros Hf. induction xs as [|x rest IH]; simpl.
  - apply keeps_ret.
  - apply keeps_bind; [apply Hf | intros _; exact IH].
Qed.

Lemma keeps_map_all {A B : Type} (f : A -> M B) (xs : list A) :
  (forall x, keeps_ok (f x)) -> keeps_ok (map_all f xs).
Proof.
  intros Hf. induction xs as [|x rest IH]; simpl.
  - apply keeps_ret.
  - apply keeps_bind; [apply Hf|]. intros y.
    apply keeps_bind; [exact IH|]. intros ys. apply keeps_ret.
Qed.

Lemma keeps_handle {A : Type} (error : string) (body : M (response A)) :
  keeps_ok body -> handler_keeps_ok (handle error body).
Proof.
  intros Hb c Hc. unfold handle.
  destruct (body c) as [[r|e] c1] eqn:E; exact (Hb c _ c1 Hc E).
Qed.

(** *** The data-access functions *)

Lemma keeps_insert_event (gameId cardId : Z) (status : string)
  (round : option Z) (guessTime : option string) (flag : option Z) :
  keeps_ok (db_exec (insert_game_card gameId cardId status round guessTime flag)).
Proof.
  apply keeps_db_exec. intros d [] d' Hd H.
  exact (insert_game_card_keeps _ _ _ _ _ _ _ _ Hd H).
Qed.

Lemma keeps_startGame (startTime : string) (userId : Z)
  (initialCards : list card_details) :
  keeps_ok (startGame startTime userId initialCards).
Proof.
  unfold startGame. apply keeps_try_catch.
  - apply keeps_bind; [apply keeps_db_begin | intros _].
    apply keeps_bind.
    + apply keeps_db_exec. intros d id d' Hd H.
      exact (insert_game_keeps _ _ _ _ _ _ _ _ Hd H).
    + intros gameId. apply keeps_bind; [apply keeps_io | intros _].
      apply keeps_bind.
      * apply keeps_for_each. intros card. apply keeps_insert_event.
      * intros _. apply keeps_bind; [apply keeps_io | intros _].
        apply keeps_bind; [apply keeps_db_commit | intros _].
        apply keeps_ret.
  - intros e. apply keeps_bind; [apply keeps_db_rollback | intros _].
    apply keeps_throw.
Qed.

Lemma keeps_endGame (endTime : string) (gameId : Z) (outcome : string)
  (n : Z) : keeps_ok (endGame endTime gameId outcome n).
Proof.
  apply keeps_db_exec. intros d [] d' Hd H.
  replace d' with (snd (update_game endTime outcome n gameId d))
    by (rewrite H; reflexivity).
  apply update_game_keeps. exact Hd.
Qed.

Lemma keeps_getRandomCards (picks : list nat) (limit : nat)
  (excludeCardIds : list Z) :
  keeps_ok (getRandomCards picks limit excludeCardIds).
Proof. apply keeps_db_query. Qed.

Lemma keeps_getGameHistory (userId : Z) : keeps_ok (getGameHistory userId).
Proof.
  unfold getGameHistory. apply keeps_bind; [apply keeps_db_query|].
  intros games. apply keeps_map_all. intros game.
  apply keeps_bind; [apply keeps_db_query | intros rows; apply keeps_ret].
Qed.

Lemma keeps_postGuess (guessTime endTime : string) (gameId cardId : option Z)
  (playerHand : option (list hand_entry))
  (placementIndex roundNumber : option Z) :
  handler_keeps_ok
    (postGuess guessTime endTime gameId cardId playerHand placementIndex
       roundNumber).
Proof.
  unfold postGuess.
  destruct gameId as [gameId|], cardId as [cardId|],
    playerHand as [playerHand|], placementIndex as [placementIndex|],
    roundNumber as [roundNumber|];
    try (intros c Hc; exact Hc).
  apply keeps_handle.
  apply keeps_bind; [apply keeps_db_query|]. intros [newCard|];
    [|apply keeps_ret].
  apply keeps_bind; [apply keeps_insert_event | intros _].
  apply keeps_bind; [apply keeps_db_query | intros rows].
  apply keeps_bind; [apply keeps_db_query | intros won].
  apply keeps_bind; [apply keeps_db_query | intros lost].
  apply keeps_bind; [|intros outcome; apply keeps_ret].
  destruct (3 <=? won); [|destruct (3 <=? lost)].
  - apply keeps_bind; [apply keeps_endGame | intros _; apply keeps_ret].
  - apply keeps_bind; [apply keeps_endGame | intros _; apply keeps_ret].
  - apply keeps_ret.
Qed.

Lemma keeps_postLoseRound (guessTime endTime : string)
  (gameId cardId roundNumber : option Z) :
  handler_keeps_ok (postLoseRound guessTime endTime gameId cardId roundNumber).
Proof.
  unfold postLoseRound.
  destruct gameId as [gameId|], cardId as [cardId|],
    roundNumber as [roundNumber|];
    try (intros c Hc; exact Hc).
  apply keeps_handle.
  apply keeps_bind; [apply keeps_insert_event | intros _].
  apply keeps_bind; [apply keeps_db_query | intros lost].
  apply keeps_bind; [|intros outcome; apply keeps_ret].
  destruct (3 <=? lost); [|apply keeps_ret].
  apply keeps_bind; [apply keeps_db_query | intros rows].
  apply keeps_bind; [apply keeps_endGame | intros _; apply keeps_ret].
Qed.

Lemma keeps_postGamesStart (picks : list nat) (startTime : string)
  (userId : Z) : handler_keeps_ok (postGamesStart picks startTime userId).
Proof.
  apply keeps_handle.
  apply keeps_bind; [apply keeps_getRandomCards | intros initialCards].
  destruct (List.length initialCards <? 3)%nat; [apply keeps_ret|].
  apply keeps_bind; [apply keeps_startGame | intros gameId; apply keeps_ret].
Qed.

Lemma table_conn_ok : conn_ok table_conn.
Proof.
  split; [|discriminate].
  constructor; simpl; try (intros ? []);
    try (apply distinctb_NoDup; reflexivity); apply NoDup_nil.
Qed.

(** ** Starting a game *)

(** The runs of [startGame] from an idle connection. *)
Lemma startGame_run (c : conn) (startTime : string) (userId : Z)
  (initialCards : list card_details) (r : result Z) (c' : conn) :
  tx c = None ->
  startGame startTime userId initialCards c = (r, c') ->
  tx c' = None /\
  match r with
  | Throw _ => store c' = store c
  | Ok gameId =>
      gameId = games_seq (store c) + 1 /\
      has_user (store c) userId = true /\
      store c' =
      mkDb (users (store c)) (cards (store c))
        (games (store c) ++ [mkGame gameId userId startTime "" "" 0])
        (game_cards (store c) ++
           initial_rows gameId (game_cards_seq (store c)) initialCards)
        gameId
        (game_cards_seq (store c) + Z.of_nat (List.length initialCards))
  end.
Proof.
  intros Htx. unfold startGame, try_catch. rewrite bind_run.
  unfold db_begin at 1. rewrite bind_run.
  destruct (io c) as [[[]|e0] c0] eqn:Hio; apply io_run in Hio;
    destruct Hio as [Hs0 Ht0]; rewrite Htx in Ht0.
  2:{ rewrite bind_run. unfold db_rollback. rewrite Ht0. simpl.
      intros H. injection H as <- <-. auto. }
  rewrite Ht0. rewrite bind_run.
  set (c1 := mkConn (store c0) (Some (store c0)) (faults c0)).
  destruct (db_exec _ c1) as [[gameId|e] c2] eqn:Hhdr;
    apply db_exec_run in Hhdr; destruct Hhdr as [Ht2 Hs2]; simpl in Ht2.
  2:{ rewrite (rollback_rethrow e c2 _ Ht2).
      intros H. injection H as <- <-. simpl. auto. }
  simpl in Hs2. rewrite bind_run. unfold db_prepare.
  destruct (io c2) as [[[]|e] c3] eqn:Hio3; apply io_run in Hio3;
    destruct Hio3 as [Hs3 Ht3]; rewrite Ht2 in Ht3.
  2:{ rewrite (rollback_rethrow e c3 _ Ht3).
      intros H. injection H as <- <-. simpl. auto. }
  rewrite bind_run.
  destruct (for_each _ initialCards c3) as [[[]|e] c4] eqn:Hloop;
    apply insert_initial_rows in Hloop; destruct Hloop as [Ht4 Hs4];
    rewrite Ht3 in Ht4.
  2:{ rewrite (rollback_rethrow e c4 _ Ht4).
      intros H. injection H as <- <-. simpl. auto. }
  rewrite bind_run. unfold db_finalize.
  destruct (io c4) as [[[]|e] c5] eqn:Hio5; apply io_run in Hio5;
    destruct Hio5 as [Hs5 Ht5]; rewrite Ht4 in Ht5.
  2:{ rewrite (rollback_rethrow e c5 _ Ht5).
      intros H. injection H as <- <-. simpl. auto. }
  rewrite bind_run. unfold db_commit. rewrite bind_run.
  destruct (io c5) as [[[]|e] c6] eqn:Hio6; apply io_run in Hio6;
    destruct Hio6 as [Hs6 Ht6]; rewrite Ht5 in Ht6.
  2:{ rewrite (rollback_rethrow e c6 _ Ht6).
      intros H. injection H as <- <-. simpl. auto. }
  rewrite Ht6. simpl. intros H. injection H as <- <-. simpl.
  split; [reflexivity|].
  unfold insert_game in Hs2.
  destruct (has_user (store c0) userId) eqn:Hu; [|discriminate].
  injection Hs2 as Hid Hst. rewrite Hs0 in *.
  split; [congruence|]. split; [exact Hu|].
  rewrite Hs6, Hs5, Hs4, Hs3, <- Hst. simpl. subst gameId. reflexivity.
Qed.

Lemma stable_sort_length {A : Type} (leb : A -> A -> bool) (l : list A) :
  List.length (stable_sort leb l) = List.length l.
Proof. apply Permutation_length. apply stable_sort_perm. Qed.

Lemma by_index_asc_total (a b : card_details) :
  by_index_asc a b = true \/ by_index_asc b a = true.
Proof.
  unfold by_index_asc. rewrite !Qle_bool_iff.
  destruct (Qlt_le_dec (cd_bad_luck_index b) (cd_bad_luck_index a)) as [H|H].
  - right. apply Qlt_le_weak. exact H.
  - left. exact H.
Qed.

Lemma by_index_asc_trans (a b c : card_details) :
  by_index_asc a b = true -> by_index_asc b c = true ->
  by_index_asc a c = true.
Proof. unfold by_index_asc. rewrite !Qle_bool_iff. apply Qle_trans. Qed.

(** The runs of the start-game handler from an idle connection: an error
    and nothing written, or 201 with the three cards drawn, sorted, and
    the header and the three rows written. *)
Lemma postGamesStart_effect (picks : list nat) (startTime : string)
  (userId : Z) (c : conn) (resp : response start_body) (c' : conn) :
  tx c = None ->
  postGamesStart picks startTime userId c = (resp, c') ->
  tx c' = None /\
  (((exists status error, resp = JsonError status error) /\
    store c' = store c) \/
   (let drawn :=
      map select_details
        (firstn 3 (order_by_random picks (cards (store c)))) in
    let initialCards := stable_sort by_index_asc drawn in
    List.length drawn = 3%nat /\
    has_user (store c) userId = true /\
    resp = Json 201 (mkStartBody (games_seq (store c) + 1) initialCards) /\
    store c' =
    mkDb (users (store c)) (cards (store c))
      (games (store c) ++
         [mkGame (games_seq (store c) + 1) userId startTime "" "" 0])
      (game_cards (store c) ++
         initial_rows (games_seq (store c) + 1) (game_cards_seq (store c))
           initialCards)
      (games_seq (store c) + 1)
      (game_cards_seq (store c) + 3))).
Proof.
  intros Htx. cbv zeta. unfold postGamesStart, handle. rewrite bind_run.
  unfold getRandomCards.
  destruct (db_query _ c) as [[drawn|e] c1] eqn:E1;
    apply db_query_run in E1; destruct E1 as (Hs1 & Ht1 & Hdrawn).
  2:{ intros H. injection H as <- <-. split; [congruence|].
      left. split; [eauto | exact Hs1]. }
  cbv beta iota in Hdrawn.
  destruct (List.length drawn <? 3)%nat eqn:Hlen.
  { intros H. injection H as <- <-. split; [congruence|].
    left. split; [eauto | exact Hs1]. }
  rewrite bind_run. rewrite Htx in Ht1.
  destruct (startGame startTime userId (stable_sort by_index_asc drawn) c1)
    as [[gameId|e] c2] eqn:Hstart;
    apply (startGame_run c1 _ _ _ _ _ Ht1) in Hstart;
    destruct Hstart as [Ht2 Hrun]; intros H; injection H as <- <-.
  - destruct Hrun as (Hid & Hu & Hs2). split; [exact Ht2|]. right.
    assert (Hthree : List.length drawn = 3%nat).
    { apply Nat.ltb_ge in Hlen.
      assert (List.length drawn <= 3)%nat; [|lia].
      rewrite Hdrawn, length_map, length_firstn. apply Nat.le_min_l. }
    rewrite Hs1 in *. subst drawn gameId.
    split; [exact Hthree|]. split; [exact Hu|]. split; [reflexivity|].
    rewrite Hs2, stable_sort_length, Hthree. reflexivity.
  - split; [exact Ht2|]. left. split; [eauto | congruence].
Qed.

Lemma initial_rows_of_game (gameId seq : Z) (initialCards : list card_details) :
  filter (fun r => gc_game_id r =? gameId)
    (initial_rows gameId seq initialCards) =
  initial_rows gameId seq initialCards /\
  map gc_card_id (initial_rows gameId seq initialCards) =
  map cd_id initialCards.
Proof.
  revert seq. induction initialCards as [|card rest IH]; intros seq.
  - split; reflexivity.
  - destruct (IH (seq + 1)) as [H1 H2]. simpl.
    rewrite Z.eqb_refl, H1, H2. split; reflexivity.
Qed.

(** Under the constraints no event refers to a game id that is yet to be
    handed out. *)
Lemma no_event_of_future_game (d : db) (gameId : Z) :
  db_ok d -> games_seq d < gameId ->
  filter (fun r => gc_game_id r =? gameId) (game_cards d) = [].
Proof.
  intros Hok Hlt.
  destruct (filter _ (game_cards d)) as [|r rest] eqn:E; [reflexivity|].
  assert (Hr : In r (filter (fun r => gc_game_id r =? gameId) (game_cards d)))
    by (rewrite E; left; reflexivity).
  apply filter_In in Hr. destruct Hr as [Hr Hid]. apply Z.eqb_eq in Hid.
  pose proof (ok_events_game d Hok r Hr) as Hg.
  apply in_map_iff in Hg. destruct Hg as (g & Eg & Hg).
  pose proof (ok_games_seq d Hok g Hg). lia.
Qed.

Lemma StronglySorted_weaken {A : Type} (R R' : A -> A -> Prop) (l : list A) :
  (forall a b, R a b -> R' a b) -> StronglySorted R l -> StronglySorted R' l.
Proof.
  intros Himp. induction 1 as [|a l Hs IH Hall]; constructor.
  - exact IH.
  - apply Forall_forall. intros b Hb. apply Himp.
    exact (proj1 (Forall_forall _ _) Hall b Hb).
Qed.

(** X6. A game started on a database that meets the constraints: the
    answer is 201 with three cards of the catalog, pairwise distinct and
    in ascending order of index; the game row is appended with the empty
    outcome and end time and 0 cards collected; the cards involved in the
    new game are exactly these three; and no transaction is left open. *)
Theorem started_game_has_three_sorted_initial_cards
  (picks : list nat) (startTime : string) (userId : Z) (c : conn)
  (status : nat) (body : start_body) (c' : conn) :
  db_ok (store c) -> tx c = None ->
  postGamesStart picks startTime userId c = (Json status body, c') ->
  status = 201%nat /\
  tx c' = None /\
  List.length (sb_initialCards body) = 3%nat /\
  StronglySorted card_index_le (sb_initialCards body) /\
  NoDup (map cd_id (sb_initialCards body)) /\
  (forall card, In card (sb_initialCards body) ->
     exists x, In x (cards (store c)) /\ card = select_details x) /\
  games (store c') =
  games (store c) ++ [mkGame (sb_gameId body) userId startTime "" "" 0] /\
  involved_ids (store c') (sb_gameId body) = map cd_id (sb_initialCards body).
Proof.
  intros Hok Htx Hrun.
  destruct (postGamesStart_effect picks startTime userId c _ _ Htx Hrun)
    as [Ht [[(st & err & Herr) _]|H]]; [discriminate Herr|].
  cbv zeta in H. destruct H as (Hlen & _ & Hresp & Hs).
  clear Hrun.
  match type of Hresp with
  | Json _ _ = Json ?s ?b =>
      assert (status = s /\ body = b) as [-> ->] by (split; congruence)
  end.
  clear Hresp. cbn [sb_initialCards sb_gameId].
  set (drawn := firstn 3 (order_by_random picks (cards (store c)))) in *.
  assert (Hperm : Permutation
                    (stable_sort by_index_asc (map select_details drawn))
                    (map select_details drawn))
    by apply stable_sort_perm.
  split; [reflexivity|]. split; [exact Ht|].
  split; [rewrite stable_sort_length; exact Hlen|].
  split; [|split; [|split; [|split]]].
  - apply (StronglySorted_weaken (fun a b => by_index_asc a b = true)).
    + intros a b Hab. apply Qle_bool_iff. exact Hab.
    + apply (stable_sort_ordered by_index_asc by_index_asc_total
               by_index_asc_trans).
  - apply (Permutation_NoDup (Permutation_sym (Permutation_map cd_id Hperm))).
    rewrite map_map. change (fun x => cd_id (select_details x)) with c_id.
    unfold drawn. rewrite <- firstn_map. apply first_rows_distinct.
    apply (Permutation_NoDup
             (Permutation_sym
                (Permutation_map c_id (order_by_random_perm picks _)))).
    exact (ok_cards_pk _ Hok).
  - intros card Hcard. apply (Permutation_in _ Hperm) in Hcard.
    apply in_map_iff in Hcard. destruct Hcard as (x & <- & Hx).
    exists x. split; [|reflexivity].
    apply firstn_In in Hx.
    exact (Permutation_in _ (order_by_random_perm picks _) Hx).
  - rewrite Hs. reflexivity.
  - unfold involved_ids. rewrite Hs. cbn [game_cards].
    rewrite filter_app.
    rewrite (no_event_of_future_game (store c) _ Hok) by lia.
    destruct (initial_rows_of_game (games_seq (store c) + 1)
                (game_cards_seq (store c))
                (stable_sort by_index_asc (map select_details drawn)))
      as [H1 H2].
    rewrite H1. exact H2.
Qed.

Lemma started_game_has_three_sorted_initial_cards_witness :
  let out := postGamesStart [O; O; O] "2025-06-02T09:00:00.000Z" 1 table_conn in
  List.length [select_details (deck_card 1 "Overslept");
               select_details (deck_card 2 "Lost notes");
               select_details (deck_card 3 "Missed bus")] = 3%nat /\
  involved_ids (store (snd out)) 1 = [1; 2; 3].
Proof.
  destruct (started_game_has_three_sorted_initial_cards
              [O; O; O] "2025-06-02T09:00:00.000Z" 1 table_conn 201
              (mkStartBody 1
                 [select_details (deck_card 1 "Overslept");
                  select_details (deck_card 2 "Lost notes");
                  select_details (deck_card 3 "Missed bus")])
              table_started (proj1 table_conn_ok) eq_refl eq_refl)
    as (_ & _ & Hlen & _ & _ & _ & _ & Hinvolved).
  split; [exact Hlen | exact Hinvolved].
Defined.

(** ** Recording a round *)

(** The runs of the lose-round handler on well-formed input. *)
Lemma postLoseRound_effect (guessTime endTime : string)
  (gameId cardId roundNumber : Z) (c : conn) :
  let out := postLoseRound guessTime endTime (Some gameId) (Some cardId)
               (Some roundNumber) c in
  ((exists status error, fst out = JsonError status error) /\
   store (snd out) = store c) \/
  exists d1 : db,
    insert_game_card gameId cardId "discarded" (Some roundNumber)
      (Some guessTime) (Some 0) (store c) = (Ok tt, d1) /\
    let lost := count_rows (is_lost_row gameId) (game_cards d1) in
    let held :=
      filter in_possession
        (stable_sort by_bad_luck_index_asc (join_game_cards d1 gameId)) in
    let outcome := if 3 <=? lost then Some "Lost" else None in
    (((exists status error, fst out = JsonError status error) /\
      store (snd out) = d1) \/
     (fst out =
      Json 200 (mkLoseRoundBody "Round lost/card discarded." outcome lost) /\
      store (snd out) =
      match outcome with
      | Some o =>
          snd (update_game endTime o (Z.of_nat (List.length held)) gameId d1)
      | None => d1
      end)).
Proof.
  cbv zeta. unfold postLoseRound, handle. rewrite bind_run.
  unfold recordRoundOutcome.
  destruct (db_exec _ c) as [[[]|e] c1] eqn:E1;
    apply db_exec_run in E1; destruct E1 as [_ Hs1].
  2:{ left. simpl. split; [eauto | exact Hs1]. }
  right. exists (store c1). split; [exact Hs1|].
  rewrite bind_run. unfold getLostRoundsCount.
  destruct (db_query _ c1) as [[lost|e] c2] eqn:E2;
    apply db_query_run in E2; destruct E2 as (Hs2 & _ & Hlost).
  2:{ left. simpl. split; [eauto | exact Hs2]. }
  subst lost. rewrite bind_run.
  destruct (3 <=? count_rows (is_lost_row gameId) (game_cards (store c1))).
  - rewrite bind_run. unfold getGameCards.
    destruct (db_query _ c2) as [[rows|e] c3] eqn:E3;
      apply db_query_run in E3; destruct E3 as (Hs3 & _ & Hrows).
    2:{ left. simpl. split; [eauto | congruence]. }
    rewrite bind_run. unfold endGame.
    destruct (db_exec _ c3) as [[[]|e] c4] eqn:E4;
      apply db_exec_run in E4; destruct E4 as [_ Hs4].
    2:{ left. simpl. split; [eauto | congruence]. }
    right. simpl. split; [reflexivity|].
    rewrite Hs3, Hs2 in Hs4. rewrite Hs2 in Hrows. subst rows.
    unfold update_game in *. congruence.
  - right. simpl. split; [reflexivity | exact Hs2].
Qed.

Lemma insert_game_card_requires (gameId cardId : Z) (status : string)
  (round : option Z) (guessTime : option string) (flag : option Z)
  (d d' : db) :
  insert_game_card gameId cardId status round guessTime flag d = (Ok tt, d') ->
  has_game d gameId = true /\ has_card d cardId = true /\
  has_game_card d gameId cardId = false.
Proof.
  unfold insert_game_card.
  destruct (has_game_card d gameId cardId); [discriminate|].
  destruct (has_game d gameId); [|discriminate].
  destruct (has_card d cardId); [|discriminate]. auto.
Qed.

(** X8. A round is recorded at most once per card and game, and only for
    a game and a card that exist: when the game id or the card id is
    unknown, or the card already has an event in the game (of any status),
    both the guess handler and the lose-round handler answer with an error
    and leave the database exactly as it was. *)
Theorem round_recorded_once_for_existing_game_and_card
  (guessTime endTime : string) (gameId cardId : Z)
  (playerHand : list hand_entry) (placementIndex roundNumber : Z) (c : conn) :
  has_game (store c) gameId = false \/ has_card (store c) cardId = false \/
  has_game_card (store c) gameId cardId = true ->
  let guess := postGuess guessTime endTime (Some gameId) (Some cardId)
                 (Some playerHand) (Some placementIndex) (Some roundNumber) c in
  let timeout := postLoseRound guessTime endTime (Some gameId) (Some cardId)
                   (Some roundNumber) c in
  ((exists status error, fst guess = JsonError status error) /\
   store (snd guess) = store c) /\
  ((exists status error, fst timeout = JsonError status error) /\
   store (snd timeout) = store c).
Proof.
  intros Hbad. cbv zeta. split.
  - destruct (postGuess_effect guessTime endTime gameId cardId playerHand
                placementIndex roundNumber c) as [H|(x & d1 & _ & Hins & _)];
      [exact H|].
    apply insert_game_card_requires in Hins.
    destruct Hins as (Hg & Hc & Hgc).
    destruct Hbad as [H|[H|H]]; congruence.
  - destruct (postLoseRound_effect guessTime endTime gameId cardId
                roundNumber c) as [H|(d1 & Hins & _)]; [exact H|].
    apply insert_game_card_requires in Hins.
    destruct Hins as (Hg & Hc & Hgc).
    destruct Hbad as [H|[H|H]]; congruence.
Qed.

Lemma round_recorded_once_for_existing_game_and_card_witness :
  let again := guess_round 2 4 [1; 2; 3] 3 "2025-06-02T09:01:00.000Z"
                 (snd after_timeout_1) in
  (exists status error, fst again = JsonError status error) /\
  store (snd again) = store (snd after_timeout_1).
Proof.
  apply (round_recorded_once_for_existing_game_and_card
           "2025-06-02T09:01:00.000Z" "2025-06-02T09:01:00.000Z" 1 4
           (entries_of [1; 2; 3]) 3 2 (snd after_timeout_1)).
  right. right. reflexivity.
Defined.

Lemma find_card_none (d : db) (cardId : Z) :
  has_card d cardId = false ->
  find (fun k => c_id k =? cardId) (cards d) = None.
Proof.
  unfold has_card. intros H.
  destruct (find _ (cards d)) as [x|] eqn:E; [|reflexivity].
  apply find_some in E. destruct E as [Hin Hid].
  assert (Ht : existsb (fun k => c_id k =? cardId) (cards d) = true)
    by (apply existsb_exists; exists x; split; assumption).
  congruence.
Qed.

(** X9. A guess for a card id that is not in the catalog: when storage
    does not fail, both the guess handler and the demo guess handler
    answer 404 and leave the connection untouched, whatever hand and
    position were sent. *)
Theorem unknown_card_is_404
  (guessTime endTime : string) (gameId cardId : Z)
  (playerHand : list hand_entry) (placementIndex roundNumber : Z) (c : conn) :
  faults c = [] -> has_card (store c) cardId = false ->
  postGuess guessTime endTime (Some gameId) (Some cardId) (Some playerHand)
    (Some placementIndex) (Some roundNumber) c =
  (JsonError 404 "New card not found.", c) /\
  postDemoGuess (Some playerHand) (Some cardId) (Some placementIndex) c =
  (JsonError 404 "New card not found for demo game.", c).
Proof.
  intros Hf Hc. apply find_card_none in Hc.
  unfold postGuess, postDemoGuess, handle, getCardById.
  rewrite !bind_run, (db_query_no_faults _ c Hf), Hc. split; reflexivity.
Qed.

Lemma unknown_card_is_404_witness :
  scenario_guess_unknown_card =
  (JsonError 404 "New card not found.", scenario_started).
Proof.
  apply (unknown_card_is_404 "2025-06-01T10:00:20.000Z"
           "2025-06-01T10:00:21.000Z" 1 77 scenario_hand 2 1 scenario_started);
    reflexivity.
Defined.

Lemma join_row_event (d : db) (gameId : Z) (row : game_card_details) :
  In row (join_game_cards d gameId) ->
  exists gc x,
    In gc (game_cards d) /\ gc_game_id gc = gameId /\
    In x (cards d) /\ c_id x = gc_card_id gc /\ row = joined_row gc x.
Proof.
  unfold join_game_cards. intros H. apply in_flat_map in H.
  destruct H as (gc & Hgc & H). apply filter_In in Hgc.
  destruct Hgc as [Hgc Hid]. apply Z.eqb_eq in Hid.
  apply in_map_iff in H. destruct H as (x & <- & Hx).
  apply filter_In in Hx. destruct Hx as [Hx Hcid]. apply Z.eqb_eq in Hcid.
  exists gc, x. auto.
Qed.

Lemma join_after_insert (d d1 : db) (gameId : Z) (r : game_card) :
  cards d1 = cards d -> game_cards d1 = game_cards d ++ [r] ->
  gc_game_id r = gameId ->
  join_game_cards d1 gameId =
  join_game_cards d gameId ++
  map (joined_row r) (filter (fun x => gc_card_id r =? c_id x) (cards d)).
Proof.
  intros Hcards Hrows Hid. unfold join_game_cards. rewrite Hcards, Hrows.
  rewrite filter_app, flat_map_app. f_equal.
  simpl. rewrite Hid, Z.eqb_refl. simpl. apply app_nil_r.
Qed.

Lemma filter_sorted {A : Type} (R : A -> A -> Prop) (p : A -> bool)
  (l : list A) :
  StronglySorted R l -> StronglySorted R (filter p l).
Proof.
  induction 1 as [|a l Hs IH Hall]; simpl; [constructor|].
  destruct (p a); [|exact IH].
  constructor; [exact IH|].
  apply Forall_forall. intros b Hb. apply filter_In in Hb.
  exact (proj1 (Forall_forall _ _) Hall b (proj1 Hb)).
Qed.

Lemma sorted_rows (rows : list game_card_details) :
  StronglySorted index_no_greater (stable_sort by_bad_luck_index_asc rows).
Proof.
  apply (StronglySorted_weaken (fun a b => by_bad_luck_index_asc a b = true)).
  - intros a b Hab. apply Qle_bool_iff. exact Hab.
  - apply (stable_sort_ordered by_bad_luck_index_asc
             by_bad_luck_index_asc_total by_bad_luck_index_asc_trans).
Qed.

(** X10. The hand a guess answers with is what the player holds after the
    round: the game's `initial` and `won` cards, in ascending order of
    index, as stored when the answer is sent; the card of the round is in
    it exactly when the guess was judged correct; and when the answer
    carries an outcome, the game row has that outcome, the end time of the
    call and the size of this hand as collected count. *)
Theorem guess_answers_with_the_hand_held
  (guessTime endTime : string) (gameId cardId : Z)
  (playerHand : list hand_entry) (placementIndex roundNumber : Z) (c : conn)
  (status : nat) (body : guess_body) (c' : conn) :
  postGuess guessTime endTime (Some gameId) (Some cardId) (Some playerHand)
    (Some placementIndex) (Some roundNumber) c = (Json status body, c') ->
  gb_currentCards body =
  filter in_possession
    (stable_sort by_bad_luck_index_asc (join_game_cards (store c') gameId)) /\
  StronglySorted index_no_greater (gb_currentCards body) /\
  (In cardId (map gd_id (gb_currentCards body)) <-> gb_isCorrect body = true) /\
  (gb_wonCard body <> None <-> gb_isCorrect body = true) /\
  (forall o, gb_gameOutcome body = Some o ->
     game_header gameId c' =
     map (fun _ => (o, endTime,
                    Z.of_nat (List.length (gb_currentCards body))))
       (game_header gameId c)).
Proof.
  intros Hrun.
  pose proof (postGuess_effect guessTime endTime gameId cardId playerHand
                placementIndex roundNumber c) as H.
  cbv zeta in H. rewrite Hrun in H. simpl fst in H. simpl snd in H.
  destruct H as [[(st & err & Herr) _]|(x & d1 & Hx & Hins & H)];
    [discriminate Herr|].
  destruct H as [[(st & err & Herr) _]|[Hok Hs]]; [discriminate Herr|].
  pose proof (insert_game_card_requires _ _ _ _ _ _ _ _ Hins)
    as (_ & _ & Hnew).
  apply insert_game_card_ok in Hins.
  set (ok := guessIsCorrect playerHand placementIndex (select_details x)) in *.
  set (won := count_rows (is_won_row gameId) (game_cards d1)) in *.
  set (lost := count_rows (is_lost_row gameId) (game_cards d1)) in *.
  assert (Hjoin : join_game_cards (store c') gameId = join_game_cards d1 gameId).
  { rewrite Hs. destruct (3 <=? won); [|destruct (3 <=? lost)]; reflexivity. }
  assert (Hgames : games d1 = games (store c)) by (try rewrite Hins; reflexivity).
  match type of Hok with
  | Json _ _ = Json ?s ?b =>
      assert (status = s /\ body = b) as [-> ->] by (split; congruence)
  end.
  clear Hok Hrun. cbn [gb_currentCards gb_isCorrect gb_wonCard gb_gameOutcome].
  split; [rewrite Hjoin; reflexivity|].
  split; [apply filter_sorted, sorted_rows|].
  split; [|split].
  - rewrite in_map_iff. split.
    + intros (row & Hid & Hrow). apply filter_In in Hrow.
      destruct Hrow as [Hrow Hheld].
      apply (Permutation_in _ (stable_sort_perm _ _)) in Hrow.
      rewrite (join_after_insert (store c) d1 gameId
                 (mkGameCard (game_cards_seq (store c) + 1) gameId cardId
                    (if ok then "won" else "lost") (Some roundNumber)
                    (Some guessTime) (sql_bool (Some ok))))
        in Hrow by (try rewrite Hins; reflexivity).
      apply in_app_or in Hrow. destruct Hrow as [Hold|Hnewrow].
      * apply join_row_event in Hold.
        destruct Hold as (gc & y & Hgc & Hg & Hy & Hyid & ->).
        simpl in Hid.
        assert (Hhas : has_game_card (store c) gameId cardId = true).
        { apply has_game_card_In. apply in_map_iff. exists gc.
          split; [|exact Hgc]. congruence. }
        congruence.
      * apply in_map_iff in Hnewrow. destruct Hnewrow as (y & <- & _).
        unfold in_possession in Hheld. simpl in Hheld.
        destruct ok; [reflexivity | discriminate Hheld].
    + intros Hcorrect. rewrite Hcorrect in *.
      exists (joined_row
                (mkGameCard (game_cards_seq (store c) + 1) gameId cardId
                   "won" (Some roundNumber) (Some guessTime)
                   (sql_bool (Some true))) x).
      apply find_some in Hx. destruct Hx as [Hxin Hxid].
      apply Z.eqb_eq in Hxid. split; [exact Hxid|].
      apply filter_In. split; [|reflexivity].
      apply (Permutation_in _ (Permutation_sym (stable_sort_perm _ _))).
      rewrite (join_after_insert (store c) d1 gameId
                 (mkGameCard (game_cards_seq (store c) + 1) gameId cardId
                    "won" (Some roundNumber) (Some guessTime)
                    (sql_bool (Some true))))
        by (try rewrite Hins; reflexivity).
      apply in_or_app. right. apply in_map. apply filter_In.
      split; [exact Hxin|]. simpl. rewrite Hxid. apply Z.eqb_refl.
  - destruct ok; split; congruence.
  - intros o Ho.
    rewrite <- (game_header_same gameId c (mkConn d1 None []) Hgames).
    apply game_header_updated. rewrite Hs.
    destruct (3 <=? won); [|destruct (3 <=? lost)];
      injection Ho as <- || discriminate Ho; reflexivity.
Qed.

Lemma guess_answers_with_the_hand_held_witness :
  In 4 (map gd_id (gb_currentCards first_right_guess_body)) <->
  gb_isCorrect first_right_guess_body = true.
Proof.
  apply (guess_answers_with_the_hand_held "2025-06-02T09:00:30.000Z"
           "2025-06-02T09:00:30.000Z" 1 4 (entries_of [1; 2; 3]) 3 1
           table_started 200 first_right_guess_body (snd after_right_1)).
  vm_compute. reflexivity.
Defined.

(** ** From the draw to the round *)

Lemma has_game_card_involved (d : db) (gameId cardId : Z) :
  has_game_card d gameId cardId = true <-> In cardId (involved_ids d gameId).
Proof.
  unfold has_game_card, involved_ids.
  rewrite existsb_exists, in_map_iff. split.
  - intros (r & Hr & E). apply andb_prop in E. destruct E as [E1 E2].
    apply Z.eqb_eq in E2. exists r. split; [exact E2|].
    apply filter_In. split; assumption.
  - intros (r & E & Hr). apply filter_In in Hr. destruct Hr as [Hr Hg].
    exists r. split; [exact Hr|]. rewrite Hg, E, Z.eqb_refl. reflexivity.
Qed.

Lemma find_card_some (d : db) (cardId : Z) :
  has_card d cardId = true ->
  exists x, find (fun k => c_id k =? cardId) (cards d) = Some x.
Proof.
  unfold has_card. intros H.
  destruct (find _ (cards d)) as [x|] eqn:E; [exists x; reflexivity|].
  apply existsb_exists in H. destruct H as (y & Hy & Hid).
  pose proof (find_none _ _ E y Hy) as Hn. simpl in Hn. congruence.
Qed.





Lemma insert_initial_rows_succeed (gameId : Z)
  (initialCards : list card_details) :
  forall c : conn,
    faults c = [] ->
    has_game (store c) gameId = true ->
    (forall card, In card initialCards ->
                  has_card (store c) (cd_id card) = true) ->
    NoDup (map cd_id initialCards) ->
    (forall card, In card initialCards ->
                  has_game_card (store c) gameId (cd_id card) = false) ->
    exists c',
      for_each
        (fun card =>
           db_exec (insert_game_card gameId (cd_id card) "initial"
                      None None None))
        initialCards c = (Ok tt, c') /\
      faults c' = [] /\ tx c' = tx c.
Proof.
  induction initialCards as [|card rest IH]; intros c Hf Hg Hc Hnd Hfree.
  - exists c. repeat split. exact Hf.
  - simpl for_each. rewrite bind_run, (db_exec_no_faults _ c Hf).
    unfold insert_game_card at 1.
    rewrite (Hfree card (or_introl eq_refl)), Hg,
      (Hc card (or_introl eq_refl)).
    cbn [andb].
    set (c1 := mkConn _ (tx c) []).
    inversion Hnd as [|? ? Hnotin Hnd']; subst.
    destruct (IH c1) as (c' & Hrun & Hf' & Ht').
    + reflexivity.
    + exact Hg.
    + intros other Hother. apply Hc. right. exact Hother.
    + exact Hnd'.
    + intros other Hother. unfold has_game_card. simpl.
      rewrite existsb_app. simpl.
      fold (has_game_card (store c) gameId (cd_id other)).
      rewrite (Hfree other (or_intror Hother)). simpl.
      rewrite Z.eqb_refl. simpl. rewrite orb_false_r.
      apply Z.eqb_neq. intros E. apply Hnotin. rewrite E.
      apply in_map. exact Hother.
    + exists c'. split; [exact Hrun|]. split; [exact Hf' | exact Ht'].
Qed.

(** X12. Starting a game cannot fail for want of anything but cards or
    storage: on an idle connection with healthy storage and a database
    that meets the constraints, a start-game request of an existing user
    is answered 201 as soon as the catalog holds three cards. *)
Theorem start_succeeds_with_three_cards
  (picks : list nat) (startTime : string) (userId : Z) (c : conn) :
  faults c = [] -> tx c = None -> db_ok (store c) ->
  In userId (users (store c)) ->
  (3 <= List.length (cards (store c)))%nat ->
  exists body c',
    postGamesStart picks startTime userId c = (Json 201 body, c').
Proof.
  intros Hf Htx Hok Huser Hthree.
  unfold postGamesStart, handle.
  rewrite bind_run, (getRandomCards_no_faults picks 3 [] c Hf).
  destruct (drawn_cards_facts picks 3 [] (store c)) as (Hlen & Hdistinct & Hmem).
  set (drawn := firstn 3 (order_by_random picks (eligible [] (store c)))) in *.
  assert (Hlen3 : List.length (map select_details drawn) = 3%nat).
  { rewrite length_map, Hlen. unfold eligible. rewrite not_in_nil. lia. }
  rewrite (proj2 (Nat.ltb_ge _ _)) by lia.
  set (initialCards := stable_sort by_index_asc (map select_details drawn)).
  assert (Hperm : Permutation initialCards (map select_details drawn))
    by apply stable_sort_perm.
  rewrite bind_run. unfold startGame, try_catch.
  rewrite bind_run. unfold db_begin at 1.
  rewrite bind_run, (io_no_faults c Hf), Htx, Hf.
  rewrite bind_run.
  rewrite (db_exec_no_faults _ (mkConn (store c) (Some (store c)) []) eq_refl).
  cbn [store tx]. unfold insert_game at 1.
  rewrite (proj2 (has_user_In _ _) Huser).
  set (d1 := mkDb _ _ _ _ _ _).
  rewrite bind_run. unfold db_prepare. rewrite io_no_faults by reflexivity.
  rewrite bind_run.
  destruct (insert_initial_rows_succeed (games_seq (store c) + 1) initialCards
              (mkConn d1 (Some (store c)) []))
    as (c4 & Hloop & Hf4 & Ht4).
  - reflexivity.
  - unfold has_game, d1. simpl. rewrite existsb_app. simpl.
    rewrite Z.eqb_refl. apply orb_true_r.
  - intros card Hcard. apply (Permutation_in _ Hperm) in Hcard.
    apply in_map_iff in Hcard. destruct Hcard as (x & <- & Hx).
    apply has_card_In.
    change (In (c_id x) (map c_id (cards (store c)))).
    apply in_map. exact (proj1 (Hmem x Hx)).
  - apply (Permutation_NoDup (Permutation_sym (Permutation_map cd_id Hperm))).
    rewrite map_map. apply Hdistinct. exact (ok_cards_pk _ Hok).
  - intros card _. cbn [store].
    destruct (has_game_card d1 (games_seq (store c) + 1) (cd_id card)) eqn:E;
      [|reflexivity].
    apply has_game_card_involved in E. unfold involved_ids, d1 in E.
    cbn [game_cards] in E.
    rewrite (no_event_of_future_game (store c) _ Hok) in E by lia.
    destruct E.
  - rewrite Hloop. rewrite bind_run. unfold db_finalize.
    rewrite (io_no_faults c4 Hf4).
    rewrite bind_run. unfold db_commit.
    rewrite bind_run, (io_no_faults c4 Hf4), Ht4. simpl. eauto.
Qed.

Lemma start_succeeds_with_three_cards_witness :
  exists body c',
    postGamesStart [5%nat; 2%nat; 9%nat] "2025-06-05T09:00:00.000Z" 2
      table_started = (Json 201 body, c').
Proof.
  assert (Hok : conn_ok table_started)
    by exact (keeps_postGamesStart _ _ _ table_conn table_conn_ok).
  apply start_succeeds_with_three_cards.
  - reflexivity.
  - reflexivity.
  - exact (proj1 Hok).
  - vm_compute. right. left. reflexivity.
  - vm_compute. lia.
Defined.

(** ** Games do not interfere *)

Lemma same_game_refl (gameId : Z) (d : db) : same_game gameId d d.
Proof. repeat split. Qed.

Lemma same_game_after_insert (other gameId cardId : Z) (status : string)
  (round : option Z) (guessTime : option string) (flag : option Z)
  (d d1 : db) :
  other <> gameId ->
  insert_game_card gameId cardId status round guessTime flag d = (Ok tt, d1) ->
  same_game other d d1.
Proof.
  intros Hne Hins. apply insert_game_card_ok in Hins. subst d1.
  repeat split. cbn [game_cards]. rewrite filter_app. simpl.
  destruct (Z.eqb_spec gameId other) as [E|_]; [congruence|].
  apply app_nil_r.
Qed.

Lemma same_game_after_update (other gameId : Z) (endTime outcome : string)
  (n : Z) (d : db) :
  other <> gameId ->
  same_game other d (snd (update_game endTime outcome n gameId d)).
Proof.
  intros Hne. repeat split. simpl.
  induction (games d) as [|g rest IH]; [reflexivity|].
  simpl. destruct (Z.eqb_spec (g_id g) gameId) as [E|E]; simpl.
  - destruct (Z.eqb_spec gameId other) as [E'|_]; [congruence|].
    destruct (Z.eqb_spec (g_id g) other) as [E'|_]; [congruence|].
    exact IH.
  - destruct (g_id g =? other); [f_equal|]; exact IH.
Qed.

Lemma same_game_trans (gameId : Z) (d1 d2 d3 : db) :
  same_game gameId d1 d2 -> same_game gameId d2 d3 -> same_game gameId d1 d3.
Proof.
  intros (A1 & A2 & A3) (B1 & B2 & B3). repeat split; congruence.
Qed.

(** What is read of a game is the same in databases that agree on it. *)
Lemma same_game_views (gameId : Z) (d d' : db) :
  same_game gameId d d' ->
  join_game_cards d' gameId = join_game_cards d gameId /\
  involved_ids d' gameId = involved_ids d gameId /\
  count_rows (is_won_row gameId) (game_cards d') =
  count_rows (is_won_row gameId) (game_cards d) /\
  count_rows (is_lost_row gameId) (game_cards d') =
  count_rows (is_lost_row gameId) (game_cards d).
Proof.
  intros (Hc & _ & Hrows).
  assert (Hcount : forall (p : game_card -> bool) (l : list game_card),
             filter (fun r => (gc_game_id r =? gameId) && p r) l =
             filter p (filter (fun r => gc_game_id r =? gameId) l)).
  { intros p l. induction l as [|r rest IH]; [reflexivity|].
    simpl. destruct (gc_game_id r =? gameId); simpl; rewrite IH; reflexivity. }
  unfold join_game_cards, involved_ids, count_rows.
  unfold is_won_row, is_lost_row.
  rewrite !Hcount, Hc, Hrows. repeat split.
Qed.

(** X13. A round of one game leaves every other game alone: after a guess
    or a timeout in game [gameId], whatever its answer, the catalog and
    the rows of any other game in games and in game_cards are what they
    were, and so are that game's hand, involved cards and counts. *)
Theorem round_leaves_other_games_untouched
  (guessTime endTime : string) (gameId cardId : Z)
  (playerHand : list hand_entry) (placementIndex roundNumber : Z)
  (other : Z) (c : conn) :
  other <> gameId ->
  let guess := postGuess guessTime endTime (Some gameId) (Some cardId)
                 (Some playerHand) (Some placementIndex) (Some roundNumber) c in
  let timeout := postLoseRound guessTime endTime (Some gameId) (Some cardId)
                   (Some roundNumber) c in
  (same_game other (store c) (store (snd guess)) /\
   join_game_cards (store (snd guess)) other =
   join_game_cards (store c) other /\
   game_header other (snd guess) = game_header other c) /\
  (same_game other (store c) (store (snd timeout)) /\
   join_game_cards (store (snd timeout)) other =
   join_game_cards (store c) other /\
   game_header other (snd timeout) = game_header other c).
Proof.
  intros Hne. cbv zeta.
  assert (Hview : forall c' : conn,
             same_game other (store c) (store c') ->
             same_game other (store c) (store c') /\
             join_game_cards (store c') other =
             join_game_cards (store c) other /\
             game_header other c' = game_header other c).
  { intros c' H. split; [exact H|]. split.
    - exact (proj1 (same_game_views other _ _ H)).
    - unfold game_header. destruct H as (_ & -> & _). reflexivity. }
  split; apply Hview.
  - destruct (postGuess_effect guessTime endTime gameId cardId playerHand
                placementIndex roundNumber c)
      as [[_ Hs]|(x & d1 & _ & Hins & H)].
    + rewrite Hs. apply same_game_refl.
    + cbv zeta in H. apply (same_game_after_insert other) in Hins; [|exact Hne].
      destruct H as [[_ Hs]|[_ Hs]]; rewrite Hs; [exact Hins|].
      destruct (3 <=? _); [|destruct (3 <=? _)]; try exact Hins;
        apply (same_game_trans other _ d1); try exact Hins;
        apply same_game_after_update; exact Hne.
  - destruct (postLoseRound_effect guessTime endTime gameId cardId
                roundNumber c) as [[_ Hs]|(d1 & Hins & H)].
    + rewrite Hs. apply same_game_refl.
    + cbv zeta in H. apply (same_game_after_insert other) in Hins; [|exact Hne].
      destruct H as [[_ Hs]|[_ Hs]]; rewrite Hs; [exact Hins|].
      destruct (3 <=? _); [|exact Hins].
      apply (same_game_trans other _ d1); [exact Hins|].
      apply same_game_after_update; exact Hne.
Qed.

Lemma round_leaves_other_games_untouched_witness :
  game_header 3
    (snd (postGuess "2025-06-05T09:00:00.000Z" "2025-06-05T09:00:01.000Z"
            (Some 1) (Some 4) (Some (entries_of [1; 2; 5; 9])) (Some 2)
            (Some 2) history_conn)) =
  game_header 3 history_conn.
Proof.
  apply (round_leaves_other_games_untouched "2025-06-05T09:00:00.000Z"
           "2025-06-05T09:00:01.000Z" 1 4 (entries_of [1; 2; 5; 9]) 2 2 3
           history_conn).
  discriminate.
Defined.

(** ** Handlers that only read *)

Lemma reads_only_ret {A : Type} (a : A) : reads_only (ret a).
Proof. intros c r c' H. injection H as _ <-. split; reflexivity. Qed.

Lemma reads_only_bind {A B : Type} (m : M A) (k : A -> M B) :
  reads_only m -> (forall a, reads_only (k a)) -> reads_only (bind m k).
Proof.
  intros Hm Hk c r c'. rewrite bind_run.
  destruct (m c) as [[a|e] c1] eqn:E; destruct (Hm c _ c1 E) as [Hs Ht].
  - intros H. destruct (Hk a c1 r c' H). split; congruence.
  - intros H. injection H as _ <-. split; assumption.
Qed.

Lemma reads_only_query {A : Type} (q : db -> A) : reads_only (db_query q).
Proof.
  intros c r c' H. apply db_query_run in H. destruct H as (Hs & Ht & _).
  split; assumption.
Qed.

Lemma reads_only_map_all {A B : Type} (f : A -> M B) (xs : list A) :
  (forall x, reads_only (f x)) -> reads_only (map_all f xs).
Proof.
  intros Hf. induction xs as [|x rest IH]; simpl.
  - apply reads_only_ret.
  - apply reads_only_bind; [apply Hf|]. intros y.
    apply reads_only_bind; [exact IH|]. intros ys. apply reads_only_ret.
Qed.

Lemma reads_only_handle {A : Type} (error : string) (body : M (response A))
  (c : conn) :
  reads_only body ->
  store (snd (handle error body c)) = store c /\
  tx (snd (handle error body c)) = tx c.
Proof.
  intros Hb. unfold handle.
  destruct (body c) as [[r|e] c1] eqn:E; exact (Hb c _ c1 E).
Qed.

(** X14. The read paths write nothing: whatever the request and whatever
    fails, the next-round handler, the history handler and both demo
    handlers leave the database and the transaction state as they found
    them; in particular a demo game is never persisted. *)
Theorem read_paths_write_nothing (c : conn) :
  (forall picks gameId,
     store (snd (getNextRound picks gameId c)) = store c /\
     tx (snd (getNextRound picks gameId c)) = tx c) /\
  (forall userId,
     store (snd (getHistory userId c)) = store c /\
     tx (snd (getHistory userId c)) = tx c) /\
  (forall picks picksNew,
     store (snd (postDemoStart picks picksNew c)) = store c /\
     tx (snd (postDemoStart picks picksNew c)) = tx c) /\
  (forall initialCards newCardId placementIndex,
     store (snd (postDemoGuess initialCards newCardId placementIndex c))
     = store c /\
     tx (snd (postDemoGuess initialCards newCardId placementIndex c)) = tx c).
Proof.
  split; [|split; [|split]].
  - intros picks [gameId|]; [|split; reflexivity].
    apply reads_only_handle.
    apply reads_only_bind; [apply reads_only_query | intros involved].
    apply reads_only_bind; [apply reads_only_query | intros newCards].
    apply reads_only_ret.
  - intros userId. apply reads_only_handle.
    apply reads_only_bind; [|intros history; apply reads_only_ret].
    unfold getGameHistory.
    apply reads_only_bind; [apply reads_only_query | intros games].
    apply reads_only_map_all. intros game.
    apply reads_only_bind; [apply reads_only_query | intros rows].
    apply reads_only_ret.
  - intros picks picksNew. apply reads_only_handle.
    apply reads_only_bind; [apply reads_only_query | intros initialCards].
    destruct (List.length initialCards <? 3)%nat; [apply reads_only_ret|].
    apply reads_only_bind; [apply reads_only_query | intros newCards].
    destruct newCards; apply reads_only_ret.
  - intros [initialCards|] [newCardId|] [placementIndex|];
      try (split; reflexivity).
    apply reads_only_handle.
    apply reads_only_bind; [apply reads_only_query | intros [newCard|]];
      apply reads_only_ret.
Qed.

(** ** The demo game *)

(** X15. A demo game that starts shows three cards in ascending order of
    index and a fourth card of the catalog whose id is none of theirs
    (so a different card, ids being distinct); and with healthy storage
    and a catalog of exactly three cards the answer is the 500
    "Not enough unique cards for demo game." *)
Theorem demo_start_draws_a_fourth_card
  (picks picksNew : list nat) (c : conn) :
  (forall status body c',
     postDemoStart picks picksNew c = (Json status body, c') ->
     List.length (ds_initialCards body) = 3%nat /\
     StronglySorted card_index_le (ds_initialCards body) /\
     ~ In (nr_id (ds_newCard body)) (map cd_id (ds_initialCards body)) /\
     exists x, In x (cards (store c)) /\ c_id x = nr_id (ds_newCard body) /\
               c_name x = nr_name (ds_newCard body) /\
               c_image x = nr_image (ds_newCard body)) /\
  (faults c = [] -> NoDup (map c_id (cards (store c))) ->
   List.length (cards (store c)) = 3%nat ->
   fst (postDemoStart picks picksNew c) =
   JsonError 500 "Not enough unique cards for demo game.").
Proof.
  split.
  - intros status body c'. unfold postDemoStart, handle. rewrite bind_run.
    unfold getRandomCards at 1.
    destruct (db_query _ c) as [[drawn|e] c1] eqn:E1;
      apply db_query_run in E1; destruct E1 as (Hs1 & _ & Hdrawn);
      [|discriminate].
    cbv beta iota in Hdrawn.
    destruct (List.length drawn <? 3)%nat eqn:Hlen; [discriminate|].
    rewrite bind_run.
    set (initialCards := stable_sort by_index_asc drawn).
    unfold getRandomCards.
    destruct (db_query _ c1) as [[newCards|e] c2] eqn:E2;
      apply db_query_run in E2; destruct E2 as (_ & _ & Hnew);
      [|discriminate].
    rewrite eligible_rows, Hs1 in Hnew.
    destruct newCards as [|newCard rest]; [discriminate|].
    simpl. intros H. injection H as _ <- _.
    cbn [ds_initialCards ds_newCard nr_id nr_name nr_image].
    assert (Hthree : List.length drawn = 3%nat).
    { apply Nat.ltb_ge in Hlen.
      assert (List.length drawn <= 3)%nat; [|lia].
      rewrite Hdrawn, length_map, length_firstn. apply Nat.le_min_l. }
    destruct (drawn_cards_facts picksNew 1 (map cd_id initialCards) (store c))
      as (_ & _ & Hmem).
    destruct (firstn 1 _) as [|x xs] eqn:Ex in Hnew; [discriminate Hnew|].
    assert (Hx : In x (firstn 1
                         (order_by_random picksNew
                            (eligible (map cd_id initialCards) (store c)))))
      by (rewrite Ex; left; reflexivity).
    apply Hmem in Hx. destruct Hx as [Hin Hnot].
    simpl in Hnew. injection Hnew as -> _.
    split; [unfold initialCards; rewrite stable_sort_length; exact Hthree|].
    split; [|split].
    + apply (StronglySorted_weaken (fun a b => by_index_asc a b = true)).
      * intros a b Hab. apply Qle_bool_iff. exact Hab.
      * apply (stable_sort_ordered by_index_asc by_index_asc_total
                 by_index_asc_trans).
    + exact Hnot.
    + exists x. repeat split. exact Hin.
  - intros Hf Hnd Hthree. unfold postDemoStart, handle.
    rewrite bind_run, (getRandomCards_no_faults picks 3 [] c Hf).
    destruct (drawn_cards_facts picks 3 [] (store c)) as (Hlen & _ & _).
    set (drawn := firstn 3 (order_by_random picks (eligible [] (store c)))) in *.
    assert (Hall : eligible [] (store c) = cards (store c))
      by apply not_in_nil.
    rewrite Hall in Hlen.
    assert (Hlen3 : List.length (map select_details drawn) = 3%nat)
      by (rewrite length_map, Hlen, Hthree; reflexivity).
    rewrite (proj2 (Nat.ltb_ge _ _)) by lia.
    rewrite bind_run.
    rewrite (getRandomCards_no_faults picksNew 1 _ c Hf).
    set (initialCards := stable_sort by_index_asc (map select_details drawn)).
    assert (Hnone : eligible (map cd_id initialCards) (store c) = []).
    { assert (Hdrawn_all : Permutation drawn (cards (store c))).
      { unfold drawn. rewrite firstn_all2.
        - apply perm_trans with (eligible [] (store c));
            [apply order_by_random_perm | rewrite Hall; apply Permutation_refl].
        - rewrite (Permutation_length (order_by_random_perm picks _)), Hall.
          lia. }
      unfold eligible.
      destruct (filter _ (cards (store c))) as [|x xs] eqn:E; [reflexivity|].
      assert (Hx : In x (filter (not_in (map cd_id initialCards))
                           (cards (store c))))
        by (rewrite E; left; reflexivity).
      apply filter_In in Hx. destruct Hx as [Hin Hnot].
      apply not_in_spec in Hnot. elim Hnot.
      apply (Permutation_in _ (Permutation_sym Hdrawn_all)) in Hin.
      apply (Permutation_in _
               (Permutation_sym
                  (Permutation_map cd_id (stable_sort_perm by_index_asc _)))).
      rewrite map_map. apply (in_map c_id) in Hin. exact Hin. }
    rewrite Hnone. reflexivity.
Qed.

Lemma demo_start_draws_a_fourth_card_witness :
  fst (postDemoStart [2%nat; 1%nat] [O] three_card_conn) =
  JsonError 500 "Not enough unique cards for demo game.".
Proof.
  apply (demo_start_draws_a_fourth_card [2%nat; 1%nat] [O] three_card_conn).
  - reflexivity.
  - apply distinctb_NoDup. reflexivity.
  - reflexivity.
Defined.


(** ** Timeouts *)

Section FilterSorted.
Context {A : Type} (leb : A -> A -> bool) (p : A -> bool).
Hypothesis leb_total : forall a b, leb a b = true \/ leb b a = true.
Hypothesis leb_trans :
  forall a b c, leb a b = true -> leb b c = true -> leb a c = true.

Lemma insert_sorted_first (x : A) (l : list A) :
  (forall z, In z l -> leb x z = true) -> insert_sorted leb x l = x :: l.
Proof.
  destruct l as [|y t]; [reflexivity|].
  intros H. simpl. rewrite (H y (or_introl eq_refl)). reflexivity.
Qed.

Lemma filter_insert_sorted (x : A) (s : list A) :
  StronglySorted (fun a b => leb a b = true) s ->
  filter p (insert_sorted leb x s) =
  if p x then insert_sorted leb x (filter p s) else filter p s.
Proof.
  induction 1 as [|y t Hs IH Hall].
  - simpl. destruct (p x); reflexivity.
  - cbn [insert_sorted]. destruct (leb x y) eqn:Hxy.
    + cbn [filter]. destruct (p x) eqn:Hpx; [|reflexivity].
      symmetry. apply insert_sorted_first.
      intros z Hz.
      assert (Hz' : In z (y :: t)).
      { destruct (p y); [destruct Hz as [<-|Hz]; [left; reflexivity|]|];
          right; apply filter_In in Hz; tauto. }
      destruct Hz' as [<-|Hz']; [exact Hxy|].
      apply (leb_trans x y z Hxy).
      exact (proj1 (Forall_forall _ _) Hall z Hz').
    + cbn [filter]. rewrite IH.
      destruct (p y), (p x); cbn [insert_sorted]; rewrite ?Hxy; reflexivity.
Qed.

Lemma filter_stable_sort (l : list A) :
  filter p (stable_sort leb l) = stable_sort leb (filter p l).
Proof.
  induction l as [|x t IH]; [reflexivity|].
  cbn [stable_sort filter].
  rewrite filter_insert_sorted
    by (apply stable_sort_ordered; assumption).
  rewrite IH. destruct (p x); reflexivity.
Qed.
End FilterSorted.

(** X16. A timeout answered with 200 has appended exactly one event, for
    the card and game of the request, with status `discarded`, the round
    number and time of the request and the correctness flag 0; the card
    becomes involved in the game, and neither the hand of the game nor
    its won-count changes. *)
Theorem timeout_discards_the_card
  (guessTime endTime : string) (gameId cardId roundNumber : Z) (c : conn)
  (status : nat) (body : lose_round_body) (c' : conn) :
  postLoseRound guessTime endTime (Some gameId) (Some cardId)
    (Some roundNumber) c = (Json status body, c') ->
  game_cards (store c') =
  game_cards (store c) ++
    [mkGameCard (game_cards_seq (store c) + 1) gameId cardId "discarded"
       (Some roundNumber) (Some guessTime) (Some 0)] /\
  In cardId (involved_ids (store c') gameId) /\
  hand_of (store c') gameId = hand_of (store c) gameId /\
  count_rows (is_won_row gameId) (game_cards (store c')) =
  count_rows (is_won_row gameId) (game_cards (store c)).
Proof.
  intros Hrun.
  pose proof (postLoseRound_effect guessTime endTime gameId cardId
                roundNumber c) as H.
  cbv zeta in H. rewrite Hrun in H. simpl fst in H. simpl snd in H.
  destruct H as [[(st & err & Herr) _]|(d1 & Hins & H)];
    [discriminate Herr|].
  destruct H as [[(st & err & Herr) _]|[_ Hs]]; [discriminate Herr|].
  apply insert_game_card_ok in Hins.
  assert (Hfinal : cards (store c') = cards d1 /\
                   game_cards (store c') = game_cards d1).
  { rewrite Hs. destruct (3 <=? _); split; reflexivity. }
  destruct Hfinal as [Hcards Hrows]. rewrite Hins in Hcards, Hrows.
  cbn [cards game_cards] in Hcards, Hrows.
  split; [exact Hrows|]. split; [|split].
  - unfold involved_ids. rewrite Hrows, filter_app, map_app.
    apply in_or_app. right. simpl. rewrite Z.eqb_refl. left. reflexivity.
  - unfold hand_of.
    rewrite !(filter_stable_sort by_bad_luck_index_asc in_possession
                by_bad_luck_index_asc_total by_bad_luck_index_asc_trans).
    rewrite (join_after_insert (store c) (store c') gameId _ Hcards Hrows
               eq_refl).
    rewrite filter_app. f_equal.
    rewrite <- app_nil_r. f_equal.
    induction (filter _ (cards (store c))) as [|x xs IH]; [reflexivity|].
    exact IH.
  - rewrite Hrows, count_rows_app, count_rows_one.
    unfold is_won_row at 2. simpl. rewrite andb_false_r. lia.
Qed.

Lemma timeout_discards_the_card_witness :
  hand_of (store (snd after_timeout_1)) 1 = hand_of (store table_started) 1 /\
  In 4 (involved_ids (store (snd after_timeout_1)) 1).
Proof.
  destruct (timeout_discards_the_card "2025-06-02T09:00:30.000Z"
              "2025-06-02T09:00:30.000Z" 1 4 1 table_started 200
              first_timeout_body (snd after_timeout_1))
    as (_ & Hin & Hhand & _).
  - vm_compute. reflexivity.
  - split; [exact Hhand | exact Hin].
Defined.

(** ** Ending a game *)

Lemma update_game_twice (t1 o1 : string) (n1 : Z) (t2 o2 : string) (n2 : Z)
  (gameId : Z) (d : db) :
  snd (update_game t2 o2 n2 gameId (snd (update_game t1 o1 n1 gameId d))) =
  snd (update_game t2 o2 n2 gameId d).
Proof.
  unfold update_game. simpl. f_equal. rewrite map_map. apply map_ext.
  intros g. destruct (g_id g =? gameId) eqn:E; simpl; rewrite E; reflexivity.
Qed.

Lemma update_game_unknown (endTime outcome : string) (n gameId : Z) (d : db) :
  has_game d gameId = false ->
  snd (update_game endTime outcome n gameId d) = d.
Proof.
  unfold has_game, update_game. intros H. simpl.
  assert (Hmap : forall gs : list game,
             existsb (fun g => g_id g =? gameId) gs = false ->
             map (fun g =>
                    if g_id g =? gameId
                    then mkGame (g_id g) (g_user_id g) (g_start_time g)
                           endTime outcome n
                    else g) gs = gs).
  { induction gs as [|g rest IH]; [reflexivity|].
    simpl. intros E. apply orb_false_elim in E. destruct E as [E1 E2].
    rewrite E1, (IH E2). reflexivity. }
  rewrite (Hmap _ H). destruct d; reflexivity.
Qed.

(** X17. [endGame] writes unconditionally: with healthy storage it
    succeeds whether or not the game exists or is already ended; for an
    unknown game id it changes nothing; called twice for a game, the
    second call's end time, outcome and count replace the first's, so the
    database is as if only the second call had been made; and it leaves
    game_cards and the rows of every other game as they are. *)
Theorem endGame_last_write_wins
  (t1 o1 : string) (n1 : Z) (t2 o2 : string) (n2 : Z) (gameId : Z)
  (c : conn) :
  faults c = [] ->
  exists c2 : conn,
    (endGame t1 gameId o1 n1 ;;; endGame t2 gameId o2 n2) c = (Ok tt, c2) /\
    endGame t2 gameId o2 n2 c = (Ok tt, c2) /\
    game_header gameId c2 =
    map (fun _ => (o2, t2, n2)) (game_header gameId c) /\
    game_cards (store c2) = game_cards (store c) /\
    (forall other, other <> gameId ->
                   game_header other c2 = game_header other c) /\
    (has_game (store c) gameId = false -> store c2 = store c).
Proof.
  intros Hf.
  exists (mkConn (snd (update_game t2 o2 n2 gameId (store c))) (tx c) []).
  split; [|split; [|split; [|split; [|split]]]].
  - rewrite bind_run. unfold endGame.
    rewrite (db_exec_no_faults _ c Hf). cbn [update_game].
    rewrite db_exec_no_faults by reflexivity. cbn [store tx update_game].
    rewrite <- (update_game_twice t1 o1 n1 t2 o2 n2 gameId (store c)).
    reflexivity.
  - unfold endGame. rewrite (db_exec_no_faults _ c Hf). reflexivity.
  - apply game_header_updated. reflexivity.
  - reflexivity.
  - intros other Hne. unfold game_header. cbn [store].
    destruct (same_game_after_update other gameId t2 o2 n2 (store c) Hne)
      as (_ & H & _).
    rewrite H. reflexivity.
  - intros Hnone. simpl. apply update_game_unknown. exact Hnone.
Qed.

Lemma endGame_last_write_wins_witness :
  exists c2 : conn,
    (endGame "2025-06-02T09:05:00.000Z" 1 "Lost" 3 ;;;
     endGame "2025-06-02T09:06:00.000Z" 1 "Won" 6) table_started
    = (Ok tt, c2) /\
    endGame "2025-06-02T09:06:00.000Z" 1 "Won" 6 table_started = (Ok tt, c2) /\
    game_header 1 c2 =
    map (fun _ => ("Won", "2025-06-02T09:06:00.000Z", 6))
      (game_header 1 table_started) /\
    game_cards (store c2) = game_cards (store table_started) /\
    (forall other, other <> 1 ->
                   game_header other c2 = game_header other table_started) /\
    (has_game (store table_started) 1 = false ->
     store c2 = store table_started).
Proof.
  apply (endGame_last_write_wins "2025-06-02T09:05:00.000Z" "Lost" 3
           "2025-06-02T09:06:00.000Z" "Won" 6 1 table_started).
  reflexivity.
Defined.

(** ** The log of a game under the constraints *)

Lemma unique_pairs_distinct_cards (gameId : Z) (rows : list game_card) :
  NoDup (map (fun r => (gc_game_id r, gc_card_id r)) rows) ->
  NoDup (map gc_card_id (filter (fun r => gc_game_id r =? gameId) rows)).
Proof.
  induction rows as [|r rest IH]; simpl; intros H; [constructor|].
  inversion H as [|? ? Hnotin Hnd]; subst.
  destruct (Z.eqb_spec (gc_game_id r) gameId) as [E|E];
    [|apply IH; exact Hnd].
  simpl. constructor; [|apply IH; exact Hnd].
  intros Hin. apply Hnotin. apply in_map_iff in Hin.
  destruct Hin as (r' & Hcard & Hr'). apply filter_In in Hr'.
  destruct Hr' as [Hr' Hgame]. apply Z.eqb_eq in Hgame.
  apply in_map_iff. exists r'. split; [|exact Hr']. congruence.
Qed.

(** X19. In a database that meets the constraints, the log of a game names
    each card at most once, and the rows [getGameCards] joins for the game
    are its events one for one, in log order, each with the columns of its
    card: no event is dropped or doubled by the join, and no card appears
    twice in a hand. *)
Theorem game_log_names_each_card_once (d : db) (gameId : Z) :
  db_ok d ->
  NoDup (involved_ids d gameId) /\
  map event_columns_of_row (join_game_cards d gameId) =
  map event_columns
    (filter (fun gc => gc_game_id gc =? gameId) (game_cards d)) /\
  map gd_id (join_game_cards d gameId) = involved_ids d gameId /\
  NoDup (map gd_id (hand_of d gameId)).
Proof.
  intros Hok.
  assert (Hinv : NoDup (involved_ids d gameId))
    by (apply unique_pairs_distinct_cards; exact (ok_events_unique d Hok)).
  assert (Hjoin : map event_columns_of_row (join_game_cards d gameId) =
                  map event_columns
                    (filter (fun gc => gc_game_id gc =? gameId)
                       (game_cards d))).
  { apply join_keeps_every_event. split.
    - exact (ok_cards_pk d Hok).
    - exact (ok_events_card d Hok). }
  assert (Hids : map gd_id (join_game_cards d gameId) = involved_ids d gameId).
  { unfold involved_ids.
    transitivity (map (fun e : Z * string * option Z * option string * option Z
                       => fst (fst (fst (fst e))))
                    (map event_columns_of_row (join_game_cards d gameId))).
    - rewrite map_map. reflexivity.
    - rewrite Hjoin, map_map. reflexivity. }
  split; [exact Hinv|]. split; [exact Hjoin|]. split; [exact Hids|].
  unfold hand_of. apply selected_keys_distinct.
  apply (Permutation_NoDup
           (Permutation_sym
              (Permutation_map gd_id (stable_sort_perm _ _)))).
  rewrite Hids. exact Hinv.
Qed.

Lemma game_log_names_each_card_once_witness :
  NoDup (involved_ids (store table_started) 1) /\
  map event_columns_of_row (join_game_cards (store table_started) 1) =
  map event_columns
    (filter (fun gc => gc_game_id gc =? 1) (game_cards (store table_started))) /\
  map gd_id (join_game_cards (store table_started) 1) =
  involved_ids (store table_started) 1 /\
  NoDup (map gd_id (hand_of (store table_started) 1)).
Proof.
  apply game_log_names_each_card_once.
  exact (proj1 (keeps_postGamesStart _ _ _ table_conn table_conn_ok)).
Defined.

Lemma guess_counts_and_thresholds_witness :
  gb_cardsWonCount first_right_guess_body =
  count_rows (is_won_row 1) (game_cards (store table_started)) + 1 /\
  gb_gameOutcome first_right_guess_body = None.
Proof.
  destruct (guess_counts_and_thresholds "2025-06-02T09:00:30.000Z"
              "2025-06-02T09:00:30.000Z" 1 4 (entries_of [1; 2; 3]) 3 1
              table_started 200 first_right_guess_body (snd after_right_1))
    as (x & _ & _ & _ & Hwon & _ & Hout).
  - vm_compute. reflexivity.
  - split; [exact Hwon | exact Hout].
Defined.

(** ** The draw does not look at the game row *)

(** X20. The next-round handler never checks that the game exists or is
    still in progress: for a game id without a row in games (hence, under
    the constraints, without events), healthy storage and a non-empty
    catalog, it answers 200 with a card of the catalog rather than a
    not-found error. *)
Theorem next_round_answers_for_unknown_game
  (picks : list nat) (gameId : Z) (c : conn) :
  faults c = [] -> db_ok (store c) ->
  has_game (store c) gameId = false -> cards (store c) <> [] ->
  exists x,
    In x (cards (store c)) /\
    getNextRound picks (Some gameId) c =
    (Json 200 (mkNextRound (c_id x) (c_name x) (c_image x)), c).
Proof.
  intros Hf Hok Hnone Hcards.
  assert (Hinv : involved_ids (store c) gameId = []).
  { unfold involved_ids.
    destruct (filter _ (game_cards (store c))) as [|r rest] eqn:E;
      [reflexivity|].
    assert (Hr : In r (filter (fun r => gc_game_id r =? gameId)
                         (game_cards (store c))))
      by (rewrite E; left; reflexivity).
    apply filter_In in Hr. destruct Hr as [Hr Hid]. apply Z.eqb_eq in Hid.
    pose proof (ok_events_game _ Hok r Hr) as Hg. rewrite Hid in Hg.
    apply has_game_In in Hg. congruence. }
  unfold getNextRound, handle, getInvolvedCardIds.
  rewrite bind_run, (db_query_no_faults _ c Hf), Hinv.
  rewrite bind_run, (getRandomCards_no_faults _ _ _ c Hf).
  destruct (drawn_cards_facts picks 1 [] (store c)) as (Hlen & _ & Hmem).
  unfold eligible in *. rewrite not_in_nil in *.
  destruct (firstn 1 (order_by_random picks (cards (store c))))
    as [|x xs] eqn:E.
  - simpl in Hlen. destruct (cards (store c)); [congruence | discriminate Hlen].
  - exists x. split; [exact (proj1 (Hmem x (or_introl eq_refl)))|].
    reflexivity.
Qed.

Lemma next_round_answers_for_unknown_game_witness :
  exists x,
    In x (cards (store table_conn)) /\
    getNextRound [4%nat] (Some 42) table_conn =
    (Json 200 (mkNextRound (c_id x) (c_name x) (c_image x)), table_conn).
Proof.
  apply next_round_answers_for_unknown_game.
  - reflexivity.
  - exact (proj1 table_conn_ok).
  - reflexivity.
  - discriminate.
Defined.

(** ** Preloading the catalog *)

Lemma max_id_snoc (ids : list Z) (x : Z) :
  fold_right Z.max 0 (ids ++ [x]) = Z.max (fold_right Z.max 0 ids) (Z.max x 0).
Proof.
  induction ids as [|y t IH]; simpl.
  - lia.
  - rewrite IH. lia.
Qed.

Lemma next_rowid_snoc (ids : list Z) :
  next_rowid (ids ++ [next_rowid ids]) = next_rowid ids + 1.
Proof.
  unfold next_rowid. rewrite max_id_snoc.
  assert (0 <= fold_right Z.max 0 ids).
  { induction ids as [|y t IH]; simpl; lia. }
  lia.
Qed.

Lemma next_rowid_above (ids : list Z) (x : Z) :
  In x ids -> x < next_rowid ids.
Proof.
  unfold next_rowid. induction ids as [|y t IH]; simpl; [intros []|].
  intros [<-|H]; [lia|]. specialize (IH H). lia.
Qed.

(** The insert loop on data that clashes neither with the catalog nor
    with itself. *)
Lemma seed_loop_succeeds (cardData : list card_datum) :
  forall c : conn,
    faults c = [] ->
    (forall k card, In k (cards (store c)) -> In card cardData ->
       clash (c_name k) (c_bad_luck_index k) (cdm_name card)
         (cdm_bad_luck_index card) = false) ->
    data_distinct cardData = true ->
    for_each
      (fun card =>
         db_exec (insert_card (cdm_name card) (cdm_image card)
                    (cdm_bad_luck_index card) "University Life"))
      cardData c =
    (Ok tt,
     mkConn
       (mkDb (users (store c))
          (cards (store c) ++
             seed_rows (next_rowid (map c_id (cards (store c)))) cardData)
          (games (store c)) (game_cards (store c)) (games_seq (store c))
          (game_cards_seq (store c)))
       (tx c) []).
Proof.
  induction cardData as [|card rest IH]; intros c Hf Hfree Hdata.
  - simpl. rewrite app_nil_r. destruct c as [[] ? ?]. simpl in *.
    subst. reflexivity.
  - simpl for_each. rewrite bind_run, (db_exec_no_faults _ c Hf).
    unfold insert_card at 1.
    assert (Hnone : existsb
                      (fun k => clash (c_name k) (c_bad_luck_index k)
                                  (cdm_name card) (cdm_bad_luck_index card))
                      (cards (store c)) = false).
    { destruct (existsb _ (cards (store c))) eqn:E; [|reflexivity].
      apply existsb_exists in E. destruct E as (k & Hk & Hclash).
      rewrite (Hfree k card Hk (or_introl eq_refl)) in Hclash.
      discriminate Hclash. }
    rewrite Hnone.
    simpl in Hdata. apply andb_prop in Hdata. destruct Hdata as [Hhead Hrest].
    apply negb_true_iff in Hhead.
    rewrite IH.
    + cbn [store tx faults users cards games game_cards games_seq
             game_cards_seq].
      rewrite map_app. cbn [map c_id]. rewrite next_rowid_snoc.
      rewrite <- app_assoc. reflexivity.
    + reflexivity.
    + cbn [store cards]. intros k other Hk Hother.
      apply in_app_or in Hk. destruct Hk as [Hk|[<-|[]]].
      * apply Hfree; [exact Hk | right; exact Hother].
      * cbn [c_name c_bad_luck_index].
        destruct (clash (cdm_name card) (cdm_bad_luck_index card)
                    (cdm_name other) (cdm_bad_luck_index other)) eqn:E;
          [|reflexivity].
        assert (Ht : existsb
                       (fun o => clash (cdm_name card)
                                   (cdm_bad_luck_index card) (cdm_name o)
                                   (cdm_bad_luck_index o)) rest = true)
          by (apply existsb_exists; exists other; split; assumption).
        congruence.
    + exact Hrest.
Qed.

Lemma seed_rows_ids (first : Z) (cardData : list card_datum) :
  forall x, In x (map c_id (seed_rows first cardData)) -> first <= x.
Proof.
  revert first. induction cardData as [|card rest IH]; intros first x;
    simpl; [intros []|].
  intros [<-|H]; [lia|]. specialize (IH _ _ H). lia.
Qed.

Lemma seed_rows_distinct_ids (first : Z) (cardData : list card_datum) :
  NoDup (map c_id (seed_rows first cardData)).
Proof.
  revert first. induction cardData as [|card rest IH]; intros first; simpl;
    constructor.
  - intros H. apply seed_rows_ids in H. lia.
  - apply IH.
Qed.

(** X21. Preloading an empty cards table with data in which no two
    elements share a name or an index, storage healthy: every element
    becomes a card, in the order of the data, with the ids 1, 2, ... and
    the theme "University Life"; the ids are distinct, and the other
    tables are untouched. *)
Theorem preload_fills_empty_catalog (cardData : list card_datum) (c : conn) :
  faults c = [] -> cards (store c) = [] ->
  data_distinct cardData = true ->
  exists c',
    preloadCards cardData c = (Ok tt, c') /\
    cards (store c') = seed_rows 1 cardData /\
    NoDup (map c_id (cards (store c'))) /\
    users (store c') = users (store c) /\
    games (store c') = games (store c) /\
    game_cards (store c') = game_cards (store c).
Proof.
  intros Hf Hempty Hdata. unfold preloadCards.
  rewrite bind_run, (db_query_no_faults _ c Hf), Hempty.
  cbn [count_rows filter List.length Z.of_nat Z.eqb].
  rewrite bind_run. unfold db_prepare. rewrite (io_no_faults c Hf).
  rewrite bind_run, (seed_loop_succeeds cardData c Hf).
  - unfold db_finalize. rewrite io_no_faults by reflexivity.
    eexists. split; [reflexivity|]. cbn [store cards users games game_cards].
    rewrite Hempty. cbn [map app next_rowid fold_right Z.add].
    repeat split. apply seed_rows_distinct_ids.
  - rewrite Hempty. intros k card [].
  - exact Hdata.
Qed.

Lemma preload_fills_empty_catalog_witness :
  exists c',
    preloadCards sample_data empty_conn = (Ok tt, c') /\
    cards (store c') = seed_rows 1 sample_data /\
    NoDup (map c_id (cards (store c'))) /\
    users (store c') = users (store empty_conn) /\
    games (store c') = games (store empty_conn) /\
    game_cards (store c') = game_cards (store empty_conn).
Proof.
  apply preload_fills_empty_catalog; reflexivity.
Defined.

(** X22. Preloading is skipped when the table has a card: whatever the
    data and whatever fails, a cards table that is not empty is left as it
    is, with the rest of the database; with healthy storage the call
    succeeds.  So a restart never reloads or repairs a catalog. *)
Theorem preload_skips_non_empty_catalog (cardData : list card_datum) (c : conn) :
  cards (store c) <> [] ->
  store (snd (preloadCards cardData c)) = store c /\
  (faults c = [] -> preloadCards cardData c = (Ok tt, c)).
Proof.
  intros Hcards.
  assert (Hcount : (count_rows (fun _ => true) (cards (store c)) =? 0) = false).
  { apply Z.eqb_neq. unfold count_rows.
    destruct (cards (store c)); [congruence|]. simpl. lia. }
  split.
  - unfold preloadCards. rewrite bind_run.
    destruct (db_query _ c) as [[n|e] c1] eqn:E;
      apply db_query_run in E; destruct E as (Hs & _ & Hn); [|exact Hs].
    subst n. rewrite Hcount. exact Hs.
  - intros Hf. unfold preloadCards.
    rewrite bind_run, (db_query_no_faults _ c Hf), Hcount. reflexivity.
Qed.

Lemma preload_skips_non_empty_catalog_witness :
  store (snd (preloadCards sample_data scenario_conn)) = store scenario_conn /\
  (faults scenario_conn = [] ->
   preloadCards sample_data scenario_conn = (Ok tt, scenario_conn)).
Proof.
  apply preload_skips_non_empty_catalog. discriminate.
Defined.

Lemma insert_card_ok (name image : string) (index : Q) (theme : string)
  (d d' : db) :
  insert_card name image index theme d = (Ok tt, d') ->
  d' = mkDb (users d)
         (cards d ++
            [mkCard (next_rowid (map c_id (cards d))) name image index theme])
         (games d) (game_cards d) (games_seq d) (game_cards_seq d).
Proof.
  unfold insert_card. destruct (existsb _ (cards d)); [discriminate|].
  intros H. injection H as <-. reflexivity.
Qed.

(** However the insert loop ends, it has written the rows of a prefix of
    the data, all of it when it succeeds. *)
Lemma seed_loop_prefix (cardData : list card_datum) :
  forall (c : conn) (r : result unit) (c' : conn),
    for_each
      (fun card =>
         db_exec (insert_card (cdm_name card) (cdm_image card)
                    (cdm_bad_luck_index card) "University Life"))
      cardData c = (r, c') ->
    exists k : nat,
      (k <= List.length cardData)%nat /\
      (r = Ok tt -> k = List.length cardData) /\
      store c' =
      mkDb (users (store c))
        (cards (store c) ++
           seed_rows (next_rowid (map c_id (cards (store c))))
             (firstn k cardData))
        (games (store c)) (game_cards (store c)) (games_seq (store c))
        (game_cards_seq (store c)).
Proof.
  induction cardData as [|card rest IH]; intros c r c' H.
  - injection H as <- <-. exists O.
    split; [apply Nat.le_refl|]. split; [reflexivity|].
    simpl. rewrite app_nil_r. destruct (store c); reflexivity.
  - simpl for_each in H. rewrite bind_run in H.
    destruct (db_exec _ c) as [[[]|e] c1] eqn:E;
      apply db_exec_run in E; destruct E as [_ Hs].
    + apply insert_card_ok in Hs. apply IH in H.
      destruct H as (k & Hk & Hall & Hstore). exists (S k).
      split; [simpl; lia|]. split; [intros Hr; simpl; f_equal; auto|].
      rewrite Hstore, Hs.
      cbn [users cards games game_cards games_seq game_cards_seq firstn
             seed_rows].
      rewrite map_app. cbn [map c_id]. rewrite next_rowid_snoc.
      rewrite <- app_assoc. reflexivity.
    + injection H as <- <-. exists O.
      split; [simpl; lia|]. split; [discriminate|].
      rewrite Hs. simpl. rewrite app_nil_r. destruct (store c); reflexivity.
Qed.

(** X23. The preload is not atomic: when it fails on an empty table, at
    the count, at an insert (a name or an index met twice, a storage
    fault) or at the end, the cards of the elements before the failure stay
    in the table, in order, with the ids 1, 2, ...; nothing else is
    written. *)
Theorem failed_preload_keeps_a_prefix
  (cardData : list card_datum) (c : conn) (e : sql_error) (c' : conn) :
  cards (store c) = [] ->
  preloadCards cardData c = (Throw e, c') ->
  exists k : nat,
    (k <= List.length cardData)%nat /\
    cards (store c') = seed_rows 1 (firstn k cardData) /\
    users (store c') = users (store c) /\
    games (store c') = games (store c) /\
    game_cards (store c') = game_cards (store c).
Proof.
  intros Hempty. unfold preloadCards. rewrite bind_run.
  destruct (db_query _ c) as [[n|e0] c1] eqn:E1;
    apply db_query_run in E1; destruct E1 as (Hs1 & _ & Hn).
  2:{ intros H. injection H as _ <-. exists O. rewrite Hs1, Hempty.
      repeat split. apply Nat.le_0_l. }
  subst n. rewrite Hempty. cbn [count_rows filter List.length Z.of_nat Z.eqb].
  rewrite bind_run. unfold db_prepare.
  destruct (io c1) as [[[]|e2] c2] eqn:E2; apply io_run in E2;
    destruct E2 as [Hs2 _].
  2:{ intros H. injection H as _ <-. exists O. rewrite Hs2, Hs1, Hempty.
      repeat split. apply Nat.le_0_l. }
  rewrite bind_run.
  destruct (for_each _ cardData c2) as [[[]|e3] c3] eqn:E3;
    apply seed_loop_prefix in E3; destruct E3 as (k & Hk & _ & Hs3);
    rewrite Hs2, Hs1, Hempty in Hs3;
    cbn [map app next_rowid fold_right Z.add] in Hs3.
  - unfold db_finalize.
    destruct (io c3) as [[[]|e4] c4] eqn:E4; apply io_run in E4;
      destruct E4 as [Hs4 _]; intros H; [discriminate H|].
    injection H as _ <-. exists k. rewrite Hs4, Hs3. repeat split. exact Hk.
  - intros H. injection H as _ <-. exists k. rewrite Hs3. repeat split.
    exact Hk.
Qed.

Lemma failed_preload_keeps_a_prefix_witness :
  exists k : nat,
    (k <= List.length clashing_data)%nat /\
    cards (store (snd (preloadCards clashing_data empty_conn))) =
    seed_rows 1 (firstn k clashing_data) /\
    users (store (snd (preloadCards clashing_data empty_conn))) =
    users (store empty_conn) /\
    games (store (snd (preloadCards clashing_data empty_conn))) =
    games (store empty_conn) /\
    game_cards (store (snd (preloadCards clashing_data empty_conn))) =
    game_cards (store empty_conn).
Proof.
  apply (failed_preload_keeps_a_prefix clashing_data empty_conn
           SQLITE_CONSTRAINT_UNIQUE).
  - reflexivity.
  - vm_compute. reflexivity.
Defined.

(** With the index 10.5 given twice, as 21/2 and as 42/4, the third insert
    fails and two cards stay; a second run then loads nothing. *)
Example preload_stops_at_the_clash :
  let once := snd (preloadCards clashing_data empty_conn) in
  map c_name (cards (store once)) = ["Overslept"; "Lost notes"] /\
  preloadCards clashing_data once = (Ok tt, once).
Proof. vm_compute. split; reflexivity. Qed.

(** * Requests as parsed, in sequence and in flight *)

(** ** Putting a card into a hand *)

Lemma inserted_at_splice {A : Type} (hand : list A) (k : nat) (x : A) :
  (k <= List.length hand)%nat ->
  inserted_at hand k x (firstn k hand ++ x :: skipn k hand).
Proof.
  intros Hk.
  assert (Hlen : List.length (firstn k hand) = k)
    by (rewrite length_firstn; lia).
  repeat split.
  - rewrite length_app. simpl. rewrite length_skipn, Hlen. lia.
  - rewrite nth_error_app2 by lia. rewrite Hlen, Nat.sub_diag. reflexivity.
  - intros i Hi. rewrite nth_error_app1 by lia.
    rewrite nth_error_firstn.
    rewrite (proj2 (Nat.ltb_lt i k) Hi). reflexivity.
  - intros i Hi. rewrite nth_error_app2 by lia. rewrite Hlen.
    replace (S i - k)%nat with (S (i - k)) by lia. simpl.
    rewrite nth_error_skipn. f_equal. lia.
Qed.

Lemma inserted_at_unique {A : Type} (hand : list A) (k : nat) (x : A)
  (result : list A) :
  inserted_at hand k x result ->
  (k <= List.length hand)%nat /\
  result = firstn k hand ++ x :: skipn k hand.
Proof.
  intros (Hlen & Hx & Hbefore & Hafter).
  assert (Hk : (k <= List.length hand)%nat).
  { assert (k < List.length result)%nat
      by (apply nth_error_Some; rewrite Hx; discriminate).
    lia. }
  split; [exact Hk|].
  destruct (inserted_at_splice hand k x Hk) as (_ & Hx' & Hbefore' & Hafter').
  apply nth_error_ext. intros n.
  destruct (Nat.lt_ge_cases n k) as [Hn|Hn].
  - rewrite Hbefore, Hbefore' by exact Hn. reflexivity.
  - destruct (Nat.eq_dec n k) as [->|Hne]; [congruence|].
    destruct n as [|i]; [lia|].
    rewrite Hafter, Hafter' by lia. reflexivity.
Qed.

Lemma splice_start_in_place (len k : Z) :
  0 <= k <= len -> Js.splice_start len k = k.
Proof.
  intros Hk. unfold Js.splice_start. destruct (Z.ltb_spec k 0); lia.
Qed.

(** The typed judge on the hand with the card put in. *)
Lemma guessIsCorrect_inserted (hand : list hand_entry) (placementIndex : Z)
  (newCard : card_details) (tempHand : list hand_entry) :
  0 <= placementIndex ->
  inserted_at hand (Z.to_nat placementIndex)
    (mkEntry (cd_id newCard) (cd_bad_luck_index newCard)) tempHand ->
  guessIsCorrect hand placementIndex newCard = handStillSorted tempHand.
Proof.
  intros Hpos Hins. apply inserted_at_unique in Hins.
  destruct Hins as [Hk ->].
  unfold guessIsCorrect, Js.splice_insert.
  rewrite splice_start_in_place by lia. reflexivity.
Qed.

(** ** The handlers on numbers are the typed handlers *)

Lemma untyped_handStillSorted (hand : list hand_entry) :
  Untyped.handStillSorted (map Untyped.of_entry hand) =
  Some (handStillSorted hand).
Proof.
  induction hand as [|a [|b rest] IH]; try reflexivity.
  change (Untyped.handStillSorted (map Untyped.of_entry (a :: b :: rest)))
    with (if Js.gt (h_bad_luck_index a) (h_bad_luck_index b)
          then Some false
          else Untyped.handStillSorted (map Untyped.of_entry (b :: rest))).
  change (handStillSorted (a :: b :: rest))
    with (if Js.gt (h_bad_luck_index a) (h_bad_luck_index b)
          then false else handStillSorted (b :: rest)).
  rewrite IH.
  destruct (Js.gt (h_bad_luck_index a) (h_bad_luck_index b)); reflexivity.
Qed.

Lemma splice_insert_map {A B : Type} (f : A -> B) (arr : list A) (start : Z)
  (item : A) :
  Js.splice_insert (map f arr) start (f item) =
  map f (Js.splice_insert arr start item).
Proof.
  unfold Js.splice_insert. rewrite length_map, map_app. simpl.
  rewrite firstn_map, skipn_map. reflexivity.
Qed.

Lemma untyped_guessIsCorrect (hand : list hand_entry) (placementIndex : Z)
  (newCard : card_details) :
  Untyped.guessIsCorrect (map Untyped.of_entry hand) (Js.Num placementIndex)
    newCard = Some (guessIsCorrect hand placementIndex newCard).
Proof.
  unfold Untyped.guessIsCorrect, guessIsCorrect.
  change (Untyped.element_of_card newCard)
    with (Untyped.of_entry (entry_of_card newCard)).
  change (Js.ToIntegerOrInfinity (Js.Num placementIndex)) with placementIndex.
  rewrite splice_insert_map. apply untyped_handStillSorted.
Qed.

Lemma untyped_demoIsCorrect (hand : list Js.element)
  (placementIndex : Js.value Z) (newCard : card_details) :
  Untyped.demoIsCorrect hand placementIndex newCard =
  Untyped.guessIsCorrect hand placementIndex newCard.
Proof. reflexivity. Qed.

Lemma untyped_postGuess_typed (guessTime endTime : string)
  (gameId cardId : option Z) (playerHand : option (list hand_entry))
  (placementIndex roundNumber : option Z) (c : conn) :
  Untyped.postGuess guessTime endTime gameId (Untyped.of_number cardId)
    (option_map (map Untyped.of_entry) playerHand)
    (Untyped.of_number placementIndex) (Untyped.of_number roundNumber) c =
  postGuess guessTime endTime gameId cardId playerHand placementIndex
    roundNumber c.
Proof.
  destruct gameId as [gameId|], cardId as [cardId|],
    playerHand as [playerHand|], placementIndex as [placementIndex|],
    roundNumber as [roundNumber|]; try reflexivity.
  unfold Untyped.postGuess, postGuess, handle.
  cbn [option_map Untyped.of_number Js.isNaN Js.ToNumber orb].
  rewrite !bind_run.
  change (Untyped.getCardById (Js.Num cardId)) with (getCardById cardId).
  destruct (getCardById cardId c) as [[[newCard|]|e] c1]; try reflexivity.
  rewrite untyped_guessIsCorrect. reflexivity.
Qed.

Lemma untyped_postLoseRound_typed (guessTime endTime : string)
  (gameId cardId roundNumber : option Z) (c : conn) :
  Untyped.postLoseRound guessTime endTime gameId (Untyped.of_number cardId)
    (Untyped.of_number roundNumber) c =
  postLoseRound guessTime endTime gameId cardId roundNumber c.
Proof.
  destruct gameId as [gameId|], cardId as [cardId|],
    roundNumber as [roundNumber|]; reflexivity.
Qed.

Lemma untyped_postDemoGuess_typed (initialCards : option (list hand_entry))
  (newCardId placementIndex : option Z) (c : conn) :
  Untyped.postDemoGuess (option_map (map Untyped.of_entry) initialCards)
    (Untyped.of_number newCardId) (Untyped.of_number placementIndex) c =
  postDemoGuess initialCards newCardId placementIndex c.
Proof.
  destruct initialCards as [initialCards|], newCardId as [newCardId|],
    placementIndex as [placementIndex|]; try reflexivity.
  unfold Untyped.postDemoGuess, postDemoGuess, handle.
  cbn [option_map Untyped.of_number Js.isNaN Js.ToNumber orb].
  rewrite !bind_run.
  change (Untyped.getCardById (Js.Num newCardId)) with (getCardById newCardId).
  destruct (getCardById newCardId c) as [[[newCard|]|e] c1]; try reflexivity.
  rewrite untyped_demoIsCorrect, untyped_guessIsCorrect. reflexivity.
Qed.

(** ** What a guess does, on the body as parsed *)

(** Every run of the guess handler on a request that passes its checks
    records nothing, or records the event and then fails, or records the
    event, applies the thresholds to the counts read back and answers
    200; it never touches the transaction state. *)
Lemma untyped_postGuess_effect (guessTime endTime : string) (gameId : Z)
  (cardId : Js.value Z) (playerHand : list Js.element)
  (placementIndex roundNumber : Js.value Z) (c : conn) :
  Js.isNaN cardId || Js.isNaN placementIndex || Js.isNaN roundNumber = false ->
  let out := Untyped.postGuess guessTime endTime (Some gameId) cardId
               (Some playerHand) placementIndex roundNumber c in
  tx (snd out) = tx c /\
  (((fst out = JsonError 404 "New card not found." \/
     fst out = JsonError 500 "Failed to process guess.") /\
    store (snd out) = store c) \/
   exists (id : Z) (x : card) (isCorrect : bool) (d1 : db),
     Untyped.bind_param cardId = Some id /\
     find (fun k => c_id k =? id) (cards (store c)) = Some x /\
     Untyped.guessIsCorrect playerHand placementIndex (select_details x) =
     Some isCorrect /\
     insert_game_card gameId id (if isCorrect then "won" else "lost")
       (Untyped.bind_param roundNumber) (Some guessTime)
       (sql_bool (Some isCorrect)) (store c) = (Ok tt, d1) /\
     let held :=
       filter in_possession
         (stable_sort by_bad_luck_index_asc (join_game_cards d1 gameId)) in
     let won := count_rows (is_won_row gameId) (game_cards d1) in
     let lost := count_rows (is_lost_row gameId) (game_cards d1) in
     let outcome :=
       if 3 <=? won then Some "Won"
       else if 3 <=? lost then Some "Lost" else None in
     ((fst out = JsonError 500 "Failed to process guess." /\
       store (snd out) = d1) \/
      (fst out =
       Json 200
         (mkGuessBody isCorrect (c_bad_luck_index x)
            (if isCorrect then Some (select_details x) else None)
            held outcome won lost) /\
       store (snd out) =
       match outcome with
       | Some o =>
           snd (update_game endTime o (Z.of_nat (List.length held)) gameId d1)
       | None => d1
       end))).
Proof.
  intros Hvalid. cbv zeta. unfold Untyped.postGuess. rewrite Hvalid.
  unfold handle. rewrite bind_run. unfold Untyped.getCardById.
  destruct (db_query _ c) as [[found|e] c1] eqn:E1;
    apply db_query_run in E1; destruct E1 as (Hs1 & Ht1 & Hfound).
  2:{ simpl. split; [exact Ht1|]. left. split; [right; reflexivity | exact Hs1]. }
  destruct (Untyped.bind_param cardId) as [id|] eqn:Hid.
  2:{ subst found. simpl. split; [exact Ht1|]. left.
      split; [left; reflexivity | exact Hs1]. }
  destruct (find (fun k => c_id k =? id) (cards (store c))) as [x|] eqn:Hx;
    simpl in Hfound; subst found.
  2:{ simpl. split; [exact Ht1|]. left. split; [left; reflexivity | exact Hs1]. }
  destruct (Untyped.guessIsCorrect playerHand placementIndex (select_details x))
    as [isCorrect|] eqn:Hjudge.
  2:{ simpl. split; [exact Ht1|]. left. split; [right; reflexivity | exact Hs1]. }
  rewrite bind_run. unfold Untyped.recordRoundOutcome. rewrite Hid.
  cbn [Untyped.insert_bound_game_card].
  destruct (db_exec _ c1) as [[[]|e] c2] eqn:E2;
    apply db_exec_run in E2; destruct E2 as [Ht2 Hs2].
  2:{ simpl. split; [congruence|]. left. split; [right; reflexivity | congruence]. }
  rewrite Hs1 in Hs2. cbn [Untyped.insert_bound_game_card] in Hs2.
  rewrite bind_run. unfold getGameCards.
  destruct (db_query _ c2) as [[cards3|e] c3] eqn:E3;
    apply db_query_run in E3; destruct E3 as (Hs3 & Ht3 & Hcards).
  2:{ simpl. split; [congruence|]. right. exists id, x, isCorrect, (store c2).
      repeat (split; [first [reflexivity | assumption]|]).
      left. split; [reflexivity | exact Hs3]. }
  rewrite bind_run. unfold getWonCardsCount.
  destruct (db_query _ c3) as [[won|e] c4] eqn:E4;
    apply db_query_run in E4; destruct E4 as (Hs4 & Ht4 & Hwon).
  2:{ simpl. split; [congruence|]. right. exists id, x, isCorrect, (store c2).
      repeat (split; [first [reflexivity | assumption]|]).
      left. split; [reflexivity | congruence]. }
  rewrite bind_run. unfold getLostRoundsCount.
  destruct (db_query _ c4) as [[lost|e] c5] eqn:E5;
    apply db_query_run in E5; destruct E5 as (Hs5 & Ht5 & Hlost).
  2:{ simpl. split; [congruence|]. right. exists id, x, isCorrect, (store c2).
      repeat (split; [first [reflexivity | assumption]|]).
      left. split; [reflexivity | congruence]. }
  rewrite Hs4, Hs3 in Hlost. rewrite Hs3 in Hwon. subst cards3 won lost.
  assert (Hs5' : store c5 = store c2) by congruence.
  assert (Ht5' : tx c5 = tx c) by congruence.
  rewrite bind_run.
  destruct (3 <=? count_rows (is_won_row gameId) (game_cards (store c2)))
    eqn:Hw.
  - rewrite bind_run. unfold endGame.
    destruct (db_exec _ c5) as [[[]|e] c6] eqn:E6;
      apply db_exec_run in E6; destruct E6 as [Ht6 Hs6].
    2:{ simpl. split; [congruence|]. right.
        exists id, x, isCorrect, (store c2).
        repeat (split; [first [reflexivity | assumption]|]).
        left. split; [reflexivity | congruence]. }
    simpl. split; [congruence|]. right. exists id, x, isCorrect, (store c2).
    repeat (split; [first [reflexivity | assumption]|]).
    right. rewrite Hw. split; [reflexivity|].
    rewrite Hs5' in Hs6. unfold update_game in *. congruence.
  - destruct (3 <=? count_rows (is_lost_row gameId) (game_cards (store c2)))
      eqn:Hl.
    + rewrite bind_run. unfold endGame.
      destruct (db_exec _ c5) as [[[]|e] c6] eqn:E6;
        apply db_exec_run in E6; destruct E6 as [Ht6 Hs6].
      2:{ simpl. split; [congruence|]. right.
          exists id, x, isCorrect, (store c2).
          repeat (split; [first [reflexivity | assumption]|]).
          left. split; [reflexivity | congruence]. }
      simpl. split; [congruence|]. right. exists id, x, isCorrect, (store c2).
      repeat (split; [first [reflexivity | assumption]|]).
      right. rewrite Hw, Hl. split; [reflexivity|].
      rewrite Hs5' in Hs6. unfold update_game in *. congruence.
    + simpl. split; [congruence|]. right. exists id, x, isCorrect, (store c2).
      repeat (split; [first [reflexivity | assumption]|]).
      right. rewrite Hw, Hl. split; [reflexivity | exact Hs5'].
Qed.

Lemma isNaN_undefined (v : Js.value Z) :
  Js.isNaN v = true <-> v = Js.Undefined.
Proof.
  destruct v as [| |[|]|z]; cbv [Js.isNaN Js.ToNumber]; split; congruence.
Qed.

Lemma isNaN_bound (v : Js.value Z) (z : Z) :
  Untyped.bind_param v = Some z -> Js.isNaN v = false.
Proof.
  destruct v as [| |[|]|k]; cbv [Js.isNaN Js.ToNumber Untyped.bind_param];
    congruence.
Qed.

(** The position [splice] gives a placement index that passed [isNaN]. *)
Lemma splice_position (len : Z) (placementIndex : Js.value Z) :
  0 <= len -> Js.isNaN placementIndex = false ->
  Js.splice_start len (Js.ToIntegerOrInfinity placementIndex) =
  match placementIndex with
  | Js.Num k => if k <? 0 then Z.max (len + k) 0 else Z.min k len
  | Js.Bool true => Z.min 1 len
  | _ => 0
  end.
Proof.
  intros Hlen.
  destruct placementIndex as [| |[|]|k];
    cbv [Js.isNaN Js.ToNumber Js.ToIntegerOrInfinity]; intros H;
    try discriminate H; unfold Js.splice_start; simpl; try reflexivity; lia.
Qed.

Lemma untyped_guessIsCorrect_position (hand : list Js.element)
  (placementIndex : Js.value Z) (newCard : card_details) :
  Js.isNaN placementIndex = false ->
  let position :=
    match placementIndex with
    | Js.Num k =>
        if k <? 0 then Z.max (Z.of_nat (List.length hand) + k) 0
        else Z.min k (Z.of_nat (List.length hand))
    | Js.Bool true => Z.min 1 (Z.of_nat (List.length hand))
    | _ => 0
    end in
  0 <= position <= Z.of_nat (List.length hand) /\
  Untyped.guessIsCorrect hand placementIndex newCard =
  Untyped.guessIsCorrect hand (Js.Num position) newCard /\
  forall tempHand,
    inserted_at hand (Z.to_nat position) (Untyped.element_of_card newCard)
      tempHand ->
    Untyped.guessIsCorrect hand placementIndex newCard =
    Untyped.handStillSorted tempHand.
Proof.
  intros Hvalid. cbv zeta.
  rewrite <- (splice_position _ placementIndex (Nat2Z.is_nonneg _) Hvalid).
  pose proof (splice_start_in_range (Z.of_nat (List.length hand))
                (Js.ToIntegerOrInfinity placementIndex) (Nat2Z.is_nonneg _))
    as Hrange.
  split; [exact Hrange|]. split.
  - unfold Untyped.guessIsCorrect, Js.splice_insert.
    change (Js.ToIntegerOrInfinity (Js.Num ?z)) with z.
    rewrite splice_start_idempotent by lia. reflexivity.
  - intros tempHand Hins. apply inserted_at_unique in Hins.
    destruct Hins as [_ ->]. reflexivity.
Qed.

(** With healthy storage a guess that passes the checks, for a card of the
    catalog that the game does not hold yet and a hand without [null]
    elements in the way, is answered 200. *)
Lemma untyped_postGuess_accepts (guessTime endTime : string) (gameId : Z)
  (cardId : Js.value Z) (playerHand : list Js.element)
  (placementIndex roundNumber : Js.value Z) (c : conn) (id : Z) (x : card)
  (isCorrect : bool) :
  faults c = [] ->
  Js.isNaN placementIndex = false -> Js.isNaN roundNumber = false ->
  Untyped.bind_param cardId = Some id ->
  find (fun k => c_id k =? id) (cards (store c)) = Some x ->
  Untyped.guessIsCorrect playerHand placementIndex (select_details x) =
  Some isCorrect ->
  has_game (store c) gameId = true ->
  has_game_card (store c) gameId id = false ->
  exists body c',
    Untyped.postGuess guessTime endTime (Some gameId) cardId (Some playerHand)
      placementIndex roundNumber c = (Json 200 body, c').
Proof.
  intros Hf Hp Hr Hid Hx Hjudge Hg Hgc.
  assert (Hc : has_card (store c) id = true).
  { apply has_card_In. apply find_some in Hx. destruct Hx as [Hin E].
    apply Z.eqb_eq in E. rewrite <- E. apply in_map. exact Hin. }
  unfold Untyped.postGuess.
  rewrite (isNaN_bound cardId id Hid), Hp, Hr. cbn [orb].
  unfold handle, Untyped.getCardById.
  rewrite bind_run, (db_query_no_faults _ c Hf), Hid, Hx. cbn [option_map].
  rewrite Hjudge.
  rewrite bind_run. unfold Untyped.recordRoundOutcome.
  rewrite (db_exec_no_faults _ c Hf), Hid.
  cbn [Untyped.insert_bound_game_card].
  unfold insert_game_card at 1. rewrite Hgc, Hg, Hc. cbn [andb].
  set (c1 := mkConn _ (tx c) []).
  assert (Hf1 : faults c1 = []) by reflexivity.
  rewrite bind_run. unfold getGameCards.
  rewrite (db_query_no_faults _ c1 Hf1).
  rewrite bind_run. unfold getWonCardsCount.
  rewrite (db_query_no_faults _ c1 Hf1).
  rewrite bind_run. unfold getLostRoundsCount.
  rewrite (db_query_no_faults _ c1 Hf1).
  rewrite bind_run.
  destruct (3 <=? _); [|destruct (3 <=? _)].
  - rewrite bind_run. unfold endGame. rewrite (db_exec_no_faults _ c1 Hf1).
    unfold update_game at 1. simpl. eauto.
  - rewrite bind_run. unfold endGame. rewrite (db_exec_no_faults _ c1 Hf1).
    unfold update_game at 1. simpl. eauto.
  - simpl. eauto.
Qed.

Lemma untyped_postDemoGuess_run (initialCards : list Js.element)
  (newCardId placementIndex : Js.value Z) (c : conn) (status : nat)
  (body : demo_guess_body) (c' : conn) :
  Untyped.postDemoGuess (Some initialCards) newCardId placementIndex c =
  (Json status body, c') ->
  status = 200%nat /\ store c' = store c /\ tx c' = tx c /\
  exists id x,
    Untyped.bind_param newCardId = Some id /\
    find (fun k => c_id k =? id) (cards (store c)) = Some x /\
    dg_badLuckIndex body = c_bad_luck_index x /\
    dg_wonCard body =
    (if dg_isCorrect body then Some (select_details x) else None) /\
    Untyped.guessIsCorrect initialCards placementIndex (select_details x) =
    Some (dg_isCorrect body).
Proof.
  unfold Untyped.postDemoGuess.
  destruct (Js.isNaN newCardId || Js.isNaN placementIndex); [discriminate|].
  unfold handle. rewrite bind_run. unfold Untyped.getCardById.
  destruct (db_query _ c) as [[found|e] c1] eqn:E1;
    apply db_query_run in E1; destruct E1 as (Hs1 & Ht1 & Hfound);
    [|discriminate].
  destruct (Untyped.bind_param newCardId) as [id|] eqn:Hid;
    [|subst found; discriminate].
  destruct (find (fun k => c_id k =? id) (cards (store c))) as [x|] eqn:Hx;
    simpl in Hfound; subst found; [|discriminate].
  rewrite untyped_demoIsCorrect.
  destruct (Untyped.guessIsCorrect initialCards placementIndex
              (select_details x)) as [ok|] eqn:Hjudge; [|discriminate].
  simpl. intros H. injection H as <- <- <-.
  split; [reflexivity|]. split; [exact Hs1|]. split; [exact Ht1|].
  exists id, x. repeat split; assumption.
Qed.

Lemma untyped_postDemoGuess_accepts (initialCards : list Js.element)
  (newCardId placementIndex : Js.value Z) (c : conn) (id : Z) (x : card)
  (isCorrect : bool) :
  faults c = [] -> Js.isNaN placementIndex = false ->
  Untyped.bind_param newCardId = Some id ->
  find (fun k => c_id k =? id) (cards (store c)) = Some x ->
  Untyped.guessIsCorrect initialCards placementIndex (select_details x) =
  Some isCorrect ->
  Untyped.postDemoGuess (Some initialCards) newCardId placementIndex c =
  (Json 200
     (mkDemoGuessBody isCorrect (c_bad_luck_index x)
        (if isCorrect then Some (select_details x) else None)), c).
Proof.
  intros Hf Hp Hid Hx Hjudge. unfold Untyped.postDemoGuess.
  rewrite (isNaN_bound newCardId id Hid), Hp. cbn [orb].
  unfold handle, Untyped.getCardById.
  rewrite bind_run, (db_query_no_faults _ c Hf), Hid, Hx. cbn [option_map].
  rewrite untyped_demoIsCorrect, Hjudge. reflexivity.
Qed.

Lemma handStillSorted_step (a b : Js.value Q) (rest : list Js.element) :
  Untyped.handStillSorted (Js.Element a :: Js.Element b :: rest) =
  if Js.gt_value a b then Some false
  else Untyped.handStillSorted (Js.Element b :: rest).
Proof. reflexivity. Qed.

(** The loop of the judge ends without an error on a hand that has no
    [null] element. *)
Lemma handStillSorted_without_null (tempHand : list Js.element) :
  ~ In Js.NullElement tempHand ->
  exists isCorrect, Untyped.handStillSorted tempHand = Some isCorrect.
Proof.
  induction tempHand as [|a [|b rest] IH]; intros Hnull.
  - exists true. reflexivity.
  - exists true. reflexivity.
  - destruct a as [|x]; [exfalso; apply Hnull; left; reflexivity|].
    destruct b as [|y];
      [exfalso; apply Hnull; right; left; reflexivity|].
    rewrite handStillSorted_step.
    destruct (Js.gt_value x y); [exists false; reflexivity|].
    apply IH. intros H. apply Hnull. right. exact H.
Qed.

Lemma guessIsCorrect_without_null (hand : list Js.element)
  (placementIndex : Js.value Z) (newCard : card_details) :
  ~ In Js.NullElement hand ->
  exists isCorrect,
    Untyped.guessIsCorrect hand placementIndex newCard = Some isCorrect.
Proof.
  intros Hnull. unfold Untyped.guessIsCorrect, Js.splice_insert.
  apply handStillSorted_without_null. intros H.
  apply in_app_or in H. destruct H as [H|[H|H]].
  - apply Hnull. exact (firstn_In _ _ _ H).
  - discriminate H.
  - apply Hnull.
    match type of H with
    | In _ (skipn ?n _) => rewrite <- (firstn_skipn n hand)
    end.
    apply in_or_app. right. exact H.
Qed.

(** With healthy storage a guess that passes the checks is answered 200
    when the game exists, the card is in the catalog and not yet on the
    log of the game, and the hand has no [null] element. *)
Lemma untyped_postGuess_answers (guessTime endTime : string) (gameId : Z)
  (cardId : Js.value Z) (playerHand : list Js.element)
  (placementIndex roundNumber : Js.value Z) (c : conn) (id : Z) :
  faults c = [] ->
  placementIndex <> Js.Undefined -> roundNumber <> Js.Undefined ->
  Untyped.bind_param cardId = Some id ->
  In id (map c_id (cards (store c))) ->
  In gameId (map g_id (games (store c))) ->
  ~ In (gameId, id)
      (map (fun r => (gc_game_id r, gc_card_id r)) (game_cards (store c))) ->
  ~ In Js.NullElement playerHand ->
  exists body c',
    Untyped.postGuess guessTime endTime (Some gameId) cardId (Some playerHand)
      placementIndex roundNumber c = (Json 200 body, c').
Proof.
  intros Hf Hp Hr Hid Hcard Hgame Hfree Hnull.
  assert (HpN : Js.isNaN placementIndex = false).
  { destruct (Js.isNaN placementIndex) eqn:E; [|reflexivity].
    apply isNaN_undefined in E. contradiction. }
  assert (HrN : Js.isNaN roundNumber = false).
  { destruct (Js.isNaN roundNumber) eqn:E; [|reflexivity].
    apply isNaN_undefined in E. contradiction. }
  destruct (find_card_some (store c) id (proj2 (has_card_In _ _) Hcard))
    as (x & Hx).
  destruct (guessIsCorrect_without_null playerHand placementIndex
              (select_details x) Hnull) as (isCorrect & Hjudge).
  apply (untyped_postGuess_accepts guessTime endTime gameId cardId playerHand
           placementIndex roundNumber c id x isCorrect Hf HpN HrN Hid Hx
           Hjudge).
  - apply has_game_In. exact Hgame.
  - destruct (has_game_card (store c) gameId id) eqn:E; [|reflexivity].
    apply has_game_card_In in E. contradiction.
Qed.

(** ** The placement index, as parsed *)

(** C7, amended. The guess handler answers 400, before any database call
    and with the connection untouched, exactly when one of its checks
    fails: the game id is not a number, the hand is not an array, or card
    id, placement index or round number is missing ([isNaN] lets [null]
    and booleans pass).  A 404 has written nothing.  A placement index
    that passes is never rejected for its range: [splice] puts the card
    at max(len + k, 0) for a negative k, at min(k, len) otherwise, at 0
    for [null] and [false], at min(1, len) for [true], and the request
    is answered and recorded exactly as with that position.  Every answer
    with a body is a 200, its isCorrect is the judgement of the hand with
    the card at that position, and it has appended exactly one event, for
    the requested game and card.  With healthy storage a request that
    passes the checks is answered with a body when the game exists, the
    card is in the catalog and not yet on the log of the game, and the
    hand has no [null] element. *)
Theorem placement_index_clamped_not_rejected
  (guessTime endTime : string) (gameId : option Z) (cardId : Js.value Z)
  (playerHand : option (list Js.element))
  (placementIndex roundNumber : Js.value Z) (c : conn) :
  let out := Untyped.postGuess guessTime endTime gameId cardId playerHand
               placementIndex roundNumber c in
  let position (hand : list Js.element) : Z :=
    let len := Z.of_nat (List.length hand) in
    match placementIndex with
    | Js.Num k => if k <? 0 then Z.max (len + k) 0 else Z.min k len
    | Js.Bool true => Z.min 1 len
    | _ => 0
    end in
  (gameId = None \/ cardId = Js.Undefined \/ playerHand = None \/
   placementIndex = Js.Undefined \/ roundNumber = Js.Undefined ->
   out = (JsonError 400 "Invalid input for guess.", c)) /\
  (forall error,
      fst out = JsonError 400 error ->
      gameId = None \/ cardId = Js.Undefined \/ playerHand = None \/
      placementIndex = Js.Undefined \/ roundNumber = Js.Undefined) /\
  (forall error,
      fst out = JsonError 404 error -> store (snd out) = store c) /\
  (forall hand,
      playerHand = Some hand -> placementIndex <> Js.Undefined ->
      0 <= position hand <= Z.of_nat (List.length hand) /\
      out = Untyped.postGuess guessTime endTime gameId cardId playerHand
              (Js.Num (position hand)) roundNumber c) /\
  (forall status body c',
      out = (Json status body, c') ->
      exists (g : Z) (hand : list Js.element) (id : Z) (x : card),
        gameId = Some g /\ playerHand = Some hand /\
        Untyped.bind_param cardId = Some id /\
        find (fun k => c_id k =? id) (cards (store c)) = Some x /\
        status = 200%nat /\
        (forall tempHand,
            inserted_at hand (Z.to_nat (position hand))
              (Js.Element (Js.Num (c_bad_luck_index x))) tempHand ->
            Untyped.handStillSorted tempHand = Some (gb_isCorrect body)) /\
        game_cards (store c') =
        game_cards (store c) ++
        [mkGameCard (game_cards_seq (store c) + 1) g id
           (if gb_isCorrect body then "won" else "lost")
           (Untyped.bind_param roundNumber) (Some guessTime)
           (Some (if gb_isCorrect body then 1 else 0))]) /\
  (forall g hand id,
      gameId = Some g -> playerHand = Some hand ->
      faults c = [] ->
      placementIndex <> Js.Undefined -> roundNumber <> Js.Undefined ->
      Untyped.bind_param cardId = Some id ->
      In id (map c_id (cards (store c))) ->
      In g (map g_id (games (store c))) ->
      ~ In (g, id)
          (map (fun r => (gc_game_id r, gc_card_id r))
             (game_cards (store c))) ->
      ~ In Js.NullElement hand ->
      exists body c', out = (Json 200 body, c')).
Proof.
  cbv zeta.
  assert (Hanswers :
    forall g hand id,
      gameId = Some g -> playerHand = Some hand ->
      faults c = [] ->
      placementIndex <> Js.Undefined -> roundNumber <> Js.Undefined ->
      Untyped.bind_param cardId = Some id ->
      In id (map c_id (cards (store c))) ->
      In g (map g_id (games (store c))) ->
      ~ In (g, id)
          (map (fun r => (gc_game_id r, gc_card_id r))
             (game_cards (store c))) ->
      ~ In Js.NullElement hand ->
      exists body c',
        Untyped.postGuess guessTime endTime gameId cardId playerHand
          placementIndex roundNumber c = (Json 200 body, c')).
  { intros g hand id -> -> Hf Hp Hr Hid Hcard Hgame Hfree Hnull.
    exact (untyped_postGuess_answers guessTime endTime g cardId hand
             placementIndex roundNumber c id Hf Hp Hr Hid Hcard Hgame Hfree
             Hnull). }
  assert (Hcheck :
    gameId = None \/ cardId = Js.Undefined \/ playerHand = None \/
    placementIndex = Js.Undefined \/ roundNumber = Js.Undefined \/
    exists g hand,
      gameId = Some g /\ playerHand = Some hand /\
      Js.isNaN cardId || Js.isNaN placementIndex || Js.isNaN roundNumber
      = false).
  { destruct gameId as [g|]; [|auto].
    destruct playerHand as [hand|]; [|auto].
    destruct (Js.isNaN cardId) eqn:E1;
      [apply isNaN_undefined in E1; auto|].
    destruct (Js.isNaN placementIndex) eqn:E2;
      [apply isNaN_undefined in E2; auto|].
    destruct (Js.isNaN roundNumber) eqn:E3;
      [apply isNaN_undefined in E3; auto 6|].
    do 5 right. exists g, hand. auto. }
  assert (Hreject :
    gameId = None \/ cardId = Js.Undefined \/ playerHand = None \/
    placementIndex = Js.Undefined \/ roundNumber = Js.Undefined ->
    Untyped.postGuess guessTime endTime gameId cardId playerHand
      placementIndex roundNumber c =
    (JsonError 400 "Invalid input for guess.", c)).
  { unfold Untyped.postGuess.
    destruct gameId as [g|]; [|reflexivity].
    destruct playerHand as [hand|]; [|reflexivity].
    intros [H|[H|[H|[H|H]]]]; try discriminate H; subst;
      cbv [Js.isNaN Js.ToNumber]; rewrite ?orb_true_r; reflexivity. }
  split; [exact Hreject|].
  split; [|split; [|split; [|split; [|exact Hanswers]]]].
  - intros error H400.
    destruct Hcheck as [H|[H|[H|[H|[H|(g & hand & -> & -> & Hvalid)]]]]];
      auto 6.
    destruct (untyped_postGuess_effect guessTime endTime g cardId hand
                placementIndex roundNumber c Hvalid)
      as [_ [[[H|H] _]|(id & x & ok & d1 & _ & _ & _ & _ & [[H _]|[H _]])]];
      cbv zeta in H; rewrite H in H400; discriminate H400.
  - intros error H404.
    destruct Hcheck as [H|[H|[H|[H|[H|(g & hand & -> & -> & Hvalid)]]]]];
      try (rewrite Hreject in * by auto 6; reflexivity).
    destruct (untyped_postGuess_effect guessTime endTime g cardId hand
                placementIndex roundNumber c Hvalid)
      as [_ [[_ Hs]|(id & x & ok & d1 & _ & _ & _ & _ & [[H _]|[H _]])]];
      [exact Hs | |]; cbv zeta in H; rewrite H in H404; discriminate H404.
  - intros hand -> Hdefined.
    assert (Hnum : Js.isNaN placementIndex = false).
    { destruct (Js.isNaN placementIndex) eqn:E; [|reflexivity].
      apply isNaN_undefined in E. contradiction. }
    destruct (untyped_guessIsCorrect_position hand placementIndex
                (mkDetails 0 "" "" 0) Hnum) as [Hrange _].
    cbv zeta in Hrange. split; [exact Hrange|].
    unfold Untyped.postGuess. destruct gameId as [g|]; [|reflexivity].
    rewrite Hnum. change (Js.isNaN (Js.Num ?z)) with false.
    destruct (Js.isNaN cardId || false || Js.isNaN roundNumber);
      [reflexivity|].
    unfold handle. rewrite !bind_run.
    destruct (Untyped.getCardById cardId c) as [[[newCard|]|e] c1];
      try reflexivity.
    destruct (untyped_guessIsCorrect_position hand placementIndex newCard Hnum)
      as (_ & Hsame & _).
    cbv zeta in Hsame. rewrite <- Hsame. reflexivity.
  - intros status body c' Hrun.
    destruct Hcheck as [H|[H|[H|[H|[H|(g & hand & -> & -> & Hvalid)]]]]];
      try (rewrite Hreject in Hrun by auto 6; discriminate Hrun).
    pose proof (untyped_postGuess_effect guessTime endTime g cardId hand
                  placementIndex roundNumber c Hvalid) as H.
    cbv zeta in H. rewrite Hrun in H. simpl fst in H. simpl snd in H.
    destruct H as [_ [[[H|H] _]|(id & x & ok & d1 & Hid & Hx & Hjudge & Hins & H)]];
      try discriminate H.
    destruct H as [[H _]|[Hok Hs]]; [discriminate H|].
    apply insert_game_card_ok in Hins.
    injection Hok as -> ->. cbn [gb_isCorrect].
    exists g, hand, id, x.
    repeat (split; [first [reflexivity | assumption]|]).
    assert (Hnum : Js.isNaN placementIndex = false).
    { destruct (Js.isNaN placementIndex); [|reflexivity].
      rewrite orb_true_r in Hvalid. discriminate Hvalid. }
    split.
    + intros tempHand Htemp.
      destruct (untyped_guessIsCorrect_position hand placementIndex
                  (select_details x) Hnum) as (_ & _ & Hspec).
      cbv zeta in Hspec. rewrite <- (Hspec tempHand Htemp). exact Hjudge.
    + rewrite Hs.
      destruct (3 <=? _); [|destruct (3 <=? _)]; simpl;
        rewrite Hins; simpl; destruct ok; reflexivity.
Qed.

Lemma placement_index_clamped_not_rejected_witness :
  scenario_request (Js.Num 99) = scenario_request (Js.Num 3) /\
  scenario_request (Js.Num (-1)) = scenario_request (Js.Num 2) /\
  scenario_request Js.Null = scenario_request (Js.Num 0) /\
  scenario_request Js.Undefined =
  (JsonError 400 "Invalid input for guess.", scenario_started).
Proof.
  assert (Hdefined : forall k : Z, @Js.Num Z k <> Js.Undefined)
    by (intros k H; discriminate H).
  assert (Hnull : @Js.Null Z <> Js.Undefined) by (intros H; discriminate H).
  split; [|split; [|split]].
  - destruct (placement_index_clamped_not_rejected
                "2025-06-01T10:00:20.000Z" "2025-06-01T10:00:21.000Z"
                (Some 1) (Js.Num 4) (Some (map Untyped.of_entry scenario_hand))
                (Js.Num 99) (Js.Num 1) scenario_started)
      as (_ & _ & _ & Hclamp & _).
    exact (proj2 (Hclamp (map Untyped.of_entry scenario_hand) eq_refl
                    (Hdefined 99))).
  - destruct (placement_index_clamped_not_rejected
                "2025-06-01T10:00:20.000Z" "2025-06-01T10:00:21.000Z"
                (Some 1) (Js.Num 4) (Some (map Untyped.of_entry scenario_hand))
                (Js.Num (-1)) (Js.Num 1) scenario_started)
      as (_ & _ & _ & Hclamp & _).
    exact (proj2 (Hclamp (map Untyped.of_entry scenario_hand) eq_refl
                    (Hdefined (-1)))).
  - destruct (placement_index_clamped_not_rejected
                "2025-06-01T10:00:20.000Z" "2025-06-01T10:00:21.000Z"
                (Some 1) (Js.Num 4) (Some (map Untyped.of_entry scenario_hand))
                Js.Null (Js.Num 1) scenario_started)
      as (_ & _ & _ & Hclamp & _).
    exact (proj2 (Hclamp (map Untyped.of_entry scenario_hand) eq_refl Hnull)).
  - destruct (placement_index_clamped_not_rejected
                "2025-06-01T10:00:20.000Z" "2025-06-01T10:00:21.000Z"
                (Some 1) (Js.Num 4) (Some (map Untyped.of_entry scenario_hand))
                Js.Undefined (Js.Num 1) scenario_started)
      as (Hreject & _).
    apply Hreject. right; right; right; left. reflexivity.
Defined.

(** A null round number and a null placement index: the guess is recorded
    with round NULL, the card put first. *)
Example null_round_is_stored_null :
  let out :=
    Untyped.postGuess "2025-06-01T10:00:20.000Z" "2025-06-01T10:00:21.000Z"
      (Some 1) (Js.Num 4) (Some (map Untyped.of_entry scenario_hand))
      Js.Null Js.Null scenario_started in
  map (fun r => (gc_card_id r, gc_status r, gc_round r))
    (game_cards (store (snd out))) =
  [(1, "initial", None); (2, "initial", None); (3, "initial", None);
   (4, "lost", None)].
Proof. vm_compute. reflexivity. Qed.

(** ** The judge in both guess handlers *)

(** C3. The judge of a round.  [tempHand] is the hand with the fetched
    card put in at the proposed position, said without [splice]: one
    element longer, the card at that position, the other cards in their
    order around it.  Whenever the guess handler or the demo handler
    answers a guess for that hand, position and card, the answer carries
    the card's bad_luck_index, and isCorrect is true exactly when every
    adjacent pair of [tempHand] has
    left.bad_luck_index <= right.bad_luck_index.  With healthy storage
    both handlers do answer (the guess handler for an existing game that
    does not hold the card yet).  The two judge functions are that same
    test. *)
Theorem round_judge_adjacent_pairs
  (hand : list hand_entry) (placementIndex : Z) (x : card)
  (tempHand : list hand_entry) :
  0 <= placementIndex ->
  inserted_at hand (Z.to_nat placementIndex)
    (mkEntry (c_id x) (c_bad_luck_index x)) tempHand ->
  (forall guessTime endTime gameId cardId roundNumber c status body c',
      Untyped.bind_param cardId = Some (c_id x) ->
      find (fun k => c_id k =? c_id x) (cards (store c)) = Some x ->
      Untyped.postGuess guessTime endTime gameId cardId
        (Some (map Untyped.of_entry hand)) (Js.Num placementIndex)
        roundNumber c = (Json status body, c') ->
      gb_badLuckIndex body = c_bad_luck_index x /\
      (gb_isCorrect body = true <-> adjacent_nondecreasing tempHand)) /\
  (forall newCardId c status body c',
      Untyped.bind_param newCardId = Some (c_id x) ->
      find (fun k => c_id k =? c_id x) (cards (store c)) = Some x ->
      Untyped.postDemoGuess (Some (map Untyped.of_entry hand)) newCardId
        (Js.Num placementIndex) c = (Json status body, c') ->
      dg_badLuckIndex body = c_bad_luck_index x /\
      (dg_isCorrect body = true <-> adjacent_nondecreasing tempHand)) /\
  (forall guessTime endTime gameId cardId roundNumber c,
      faults c = [] -> roundNumber <> Js.Undefined ->
      Untyped.bind_param cardId = Some (c_id x) ->
      find (fun k => c_id k =? c_id x) (cards (store c)) = Some x ->
      In gameId (map g_id (games (store c))) ->
      ~ In (gameId, c_id x)
          (map (fun r => (gc_game_id r, gc_card_id r))
             (game_cards (store c))) ->
      exists body c',
        Untyped.postGuess guessTime endTime (Some gameId) cardId
          (Some (map Untyped.of_entry hand)) (Js.Num placementIndex)
          roundNumber c = (Json 200 body, c')) /\
  (forall newCardId c,
      faults c = [] ->
      Untyped.bind_param newCardId = Some (c_id x) ->
      find (fun k => c_id k =? c_id x) (cards (store c)) = Some x ->
      exists body,
        Untyped.postDemoGuess (Some (map Untyped.of_entry hand)) newCardId
          (Js.Num placementIndex) c = (Json 200 body, c)) /\
  (guessIsCorrect hand placementIndex (select_details x) = true <->
   adjacent_nondecreasing tempHand) /\
  (demoIsCorrect hand placementIndex (select_details x) = true <->
   adjacent_nondecreasing tempHand).
Proof.
  intros Hpos Htemp.
  assert (Hjudge :
    Untyped.guessIsCorrect (map Untyped.of_entry hand) (Js.Num placementIndex)
      (select_details x) = Some (handStillSorted tempHand)).
  { rewrite untyped_guessIsCorrect. f_equal.
    apply guessIsCorrect_inserted; assumption. }
  split; [|split; [|split; [|split; [|split]]]].
  - intros guessTime endTime gameId cardId roundNumber c status body c'
      Hid Hx Hrun.
    destruct gameId as [g|]; [|discriminate Hrun].
    assert (Hvalid : Js.isNaN cardId || Js.isNaN (Js.Num placementIndex)
                     || Js.isNaN roundNumber = false).
    { unfold Untyped.postGuess in Hrun.
      destruct (Js.isNaN cardId || _ || _); [discriminate Hrun | reflexivity]. }
    pose proof (untyped_postGuess_effect guessTime endTime g cardId
                  (map Untyped.of_entry hand) (Js.Num placementIndex)
                  roundNumber c Hvalid) as H.
    cbv zeta in H. rewrite Hrun in H. simpl fst in H. simpl snd in H.
    destruct H as [_ [[[H|H] _]|(id & y & ok & d1 & Hid' & Hy & Hok & _ & H)]];
      try discriminate H.
    destruct H as [[H _]|[Hbody _]]; [discriminate H|].
    rewrite Hid in Hid'. injection Hid' as <-.
    rewrite Hx in Hy. injection Hy as <-.
    rewrite Hjudge in Hok. injection Hok as <-.
    injection Hbody as _ ->. cbn [gb_badLuckIndex gb_isCorrect].
    split; [reflexivity | apply handStillSorted_iff].
  - intros newCardId c status body c' Hid Hx Hrun.
    apply untyped_postDemoGuess_run in Hrun.
    destruct Hrun as (_ & _ & _ & id & y & Hid' & Hy & Hidx & _ & Hok).
    rewrite Hid in Hid'. injection Hid' as <-.
    rewrite Hx in Hy. injection Hy as <-.
    rewrite Hjudge in Hok. injection Hok as Hok.
    split; [exact Hidx|]. rewrite <- Hok. apply handStillSorted_iff.
  - intros guessTime endTime gameId cardId roundNumber c Hf Hr Hid Hx Hg Hgc.
    assert (HrN : Js.isNaN roundNumber = false).
    { destruct (Js.isNaN roundNumber) eqn:E; [|reflexivity].
      apply isNaN_undefined in E. contradiction. }
    assert (Hfree : has_game_card (store c) gameId (c_id x) = false).
    { destruct (has_game_card (store c) gameId (c_id x)) eqn:E;
        [|reflexivity].
      apply has_game_card_In in E. contradiction. }
    exact (untyped_postGuess_accepts guessTime endTime gameId cardId
             (map Untyped.of_entry hand) (Js.Num placementIndex) roundNumber
             c (c_id x) x _ Hf eq_refl HrN Hid Hx Hjudge
             (proj2 (has_game_In _ _) Hg) Hfree).
  - intros newCardId c Hf Hid Hx. eexists.
    exact (untyped_postDemoGuess_accepts (map Untyped.of_entry hand)
             newCardId (Js.Num placementIndex) c (c_id x) x _ Hf eq_refl
             Hid Hx Hjudge).
  - rewrite (guessIsCorrect_inserted hand placementIndex (select_details x)
               tempHand Hpos Htemp).
    apply handStillSorted_iff.
  - change (demoIsCorrect hand placementIndex (select_details x))
      with (guessIsCorrect hand placementIndex (select_details x)).
    rewrite (guessIsCorrect_inserted hand placementIndex (select_details x)
               tempHand Hpos Htemp).
    apply handStillSorted_iff.
Qed.

Lemma scenario_hand_with_D_inserted :
  inserted_at scenario_hand 2 (mkEntry (c_id card_D) (c_bad_luck_index card_D))
    scenario_hand_with_D.
Proof.
  apply (inserted_at_splice scenario_hand 2
           (mkEntry (c_id card_D) (c_bad_luck_index card_D))).
  simpl. lia.
Qed.

Lemma round_judge_adjacent_pairs_witness :
  (gb_isCorrect (body_of (fst (scenario_request (Js.Num 2)))) = true <->
   adjacent_nondecreasing scenario_hand_with_D) /\
  (guessIsCorrect scenario_hand 2 (select_details card_D) = true <->
   adjacent_nondecreasing scenario_hand_with_D).
Proof.
  assert (Hpos : 0 <= 2) by lia.
  destruct (round_judge_adjacent_pairs scenario_hand 2 card_D
              scenario_hand_with_D Hpos scenario_hand_with_D_inserted)
    as (Hguess & _ & _ & _ & Hjudge & _).
  split; [|exact Hjudge].
  assert (Hrun :
    Untyped.postGuess "2025-06-01T10:00:20.000Z" "2025-06-01T10:00:21.000Z"
      (Some 1) (Js.Num 4) (Some (map Untyped.of_entry scenario_hand))
      (Js.Num 2) (Js.Num 1) scenario_started =
    (Json 200 (body_of (fst (scenario_request (Js.Num 2)))),
     snd (scenario_request (Js.Num 2))))
    by (vm_compute; reflexivity).
  assert (Hfind :
    find (fun k => c_id k =? c_id card_D) (cards (store scenario_started))
    = Some card_D) by (vm_compute; reflexivity).
  exact (proj2 (Hguess "2025-06-01T10:00:20.000Z" "2025-06-01T10:00:21.000Z"
                  (Some 1) (Js.Num 4) (Js.Num 1) scenario_started 200%nat
                  (body_of (fst (scenario_request (Js.Num 2))))
                  (snd (scenario_request (Js.Num 2))) eq_refl Hfind Hrun)).
Defined.

(** ** Hands whose elements are not cards *)

Lemma gt_value_undefined (v : Js.value Q) :
  Js.gt_value Js.Undefined v = false /\ Js.gt_value v Js.Undefined = false.
Proof.
  unfold Js.gt_value. split; [reflexivity|].
  destruct (Js.ToNumber inject_Z v); reflexivity.
Qed.

(** The loop on a hand none of whose elements has a bad_luck_index, with
    any element put in anywhere. *)
Lemma handStillSorted_without_index (front back : list Js.element)
  (v : Js.value Q) :
  (forall e, In e front -> e = Js.Element Js.Undefined) ->
  (forall e, In e back -> e = Js.Element Js.Undefined) ->
  Untyped.handStillSorted (front ++ Js.Element v :: back) = Some true.
Proof.
  intros Hfront Hback.
  assert (Hrest : forall l, (forall e, In e l -> e = Js.Element Js.Undefined) ->
                            forall u, Untyped.handStillSorted (Js.Element u :: l)
                                      = Some true).
  { induction l as [|b l IH]; intros Hl u; [reflexivity|].
    rewrite (Hl b (or_introl eq_refl)), handStillSorted_step.
    rewrite (proj2 (gt_value_undefined u)).
    apply IH. intros e He. apply Hl. right. exact He. }
  induction front as [|a front IH]; cbn [app].
  - apply Hrest. exact Hback.
  - rewrite (Hfront a (or_introl eq_refl)).
    assert (IH' : Untyped.handStillSorted (front ++ Js.Element v :: back)
                  = Some true)
      by (apply IH; intros e He; apply Hfront; right; exact He).
    destruct front as [|a' front]; cbn [app] in *.
    + rewrite handStillSorted_step, (proj1 (gt_value_undefined v)). exact IH'.
    + rewrite (Hfront a' (or_intror (or_introl eq_refl))) in *.
      rewrite handStillSorted_step, (proj1 (gt_value_undefined _)). exact IH'.
Qed.

(** X1. What the judge reads of the hand is the bad_luck_index of its
    elements, nothing else.  On a hand of cards with numeric indices the
    guess is judged correct exactly when the hand sent is itself in
    non-decreasing order and, at the position [splice] gives, every card
    before has an index no greater than the new card's and every card
    from it on an index no smaller.  On a hand none of whose elements has
    a bad_luck_index the guess is judged correct at any placement index.
    When the loop throws (it read a property of [null]) the handler
    answers an error and nothing is recorded. *)
Theorem judge_compares_numbers_only
  (guessTime endTime : string) (gameId : Z) (cardId : Js.value Z)
  (placementIndex roundNumber : Js.value Z) (c : conn) (x : card) :
  Untyped.bind_param cardId = Some (c_id x) ->
  find (fun k => c_id k =? c_id x) (cards (store c)) = Some x ->
  (forall (hand : list hand_entry) (k : Z),
      let len := Z.of_nat (List.length hand) in
      let position :=
        Z.to_nat (if k <? 0 then Z.max (len + k) 0 else Z.min k len) in
      Untyped.guessIsCorrect (map Untyped.of_entry hand) (Js.Num k)
        (select_details x) = Some true <->
      StronglySorted entry_le hand /\
      (forall e, In e (firstn position hand) ->
                 (h_bad_luck_index e <= c_bad_luck_index x)%Q) /\
      (forall e, In e (skipn position hand) ->
                 (c_bad_luck_index x <= h_bad_luck_index e)%Q)) /\
  (forall hand : list Js.element,
      (forall e, In e hand -> e = Js.Element Js.Undefined) ->
      Untyped.guessIsCorrect hand placementIndex (select_details x)
      = Some true) /\
  (forall hand : list Js.element,
      Untyped.guessIsCorrect hand placementIndex (select_details x) = None ->
      let out := Untyped.postGuess guessTime endTime (Some gameId) cardId
                   (Some hand) placementIndex roundNumber c in
      (exists status error, fst out = JsonError status error) /\
      store (snd out) = store c).
Proof.
  intros Hid Hx. split; [|split].
  - intros hand k. cbv zeta. rewrite untyped_guessIsCorrect.
    unfold guessIsCorrect, Js.splice_insert, Js.splice_start.
    split.
    + intros H. injection H as H. apply handStillSorted_strongly in H.
      apply splice_sorted_iff in H. exact H.
    + intros H. f_equal. apply handStillSorted_strongly.
      apply splice_sorted_iff. exact H.
  - intros hand Hhand. unfold Untyped.guessIsCorrect, Js.splice_insert.
    apply handStillSorted_without_index; intros e He; apply Hhand.
    + exact (firstn_In _ _ _ He).
    + match type of He with
      | In _ (skipn ?n _) => rewrite <- (firstn_skipn n hand)
      end.
      apply in_or_app. right. exact He.
  - intros hand Hnone. cbv zeta.
    destruct (Js.isNaN cardId || Js.isNaN placementIndex || Js.isNaN roundNumber)
      eqn:Hvalid.
    { unfold Untyped.postGuess. rewrite Hvalid. simpl. eauto. }
    destruct (untyped_postGuess_effect guessTime endTime gameId cardId hand
                placementIndex roundNumber c Hvalid)
      as [_ [[[H|H] Hs]|(id & y & ok & d1 & Hid' & Hy & Hok & _)]].
    + split; [eauto | exact Hs].
    + split; [eauto | exact Hs].
    + rewrite Hid in Hid'. injection Hid' as <-.
      rewrite Hx in Hy. injection Hy as <-. congruence.
Qed.

Lemma judge_compares_numbers_only_witness :
  Untyped.guessIsCorrect
    [Js.Element Js.Undefined; Js.Element Js.Undefined; Js.Element Js.Undefined]
    (Js.Num 0) (select_details card_D) = Some true.
Proof.
  assert (Hfind :
    find (fun k => c_id k =? c_id card_D) (cards (store scenario_started))
    = Some card_D) by (vm_compute; reflexivity).
  destruct (judge_compares_numbers_only
              "2025-06-01T10:00:20.000Z" "2025-06-01T10:00:21.000Z" 1
              (Js.Num 4) (Js.Num 0) (Js.Num 1) scenario_started card_D
              eq_refl Hfind) as (_ & Hmissing & _).
  apply Hmissing. intros e He. simpl in He.
  repeat (destruct He as [<-|He]; [reflexivity|]). destruct He.
Defined.

(** A hand sent as 9, an element without index, 1: out of order, but no
    adjacent pair of numbers is; with D (7) put last the guess is recorded
    as won. *)
Example unsorted_hand_without_index_wins :
  let out :=
    Untyped.postGuess "2025-06-01T10:00:20.000Z" "2025-06-01T10:00:21.000Z"
      (Some 1) (Js.Num 4)
      (Some [Js.Element (Js.Num 9%Q); Js.Element Js.Undefined;
             Js.Element (Js.Num 1%Q)])
      (Js.Num 3) (Js.Num 1) scenario_started in
  gb_isCorrect (body_of (fst out)) = true /\
  map (fun r => (gc_card_id r, gc_status r)) (game_cards (store (snd out))) =
  [(1, "initial"); (2, "initial"); (3, "initial"); (4, "won")].
Proof. vm_compute. split; reflexivity. Qed.

(** ** The history against the tables *)

Lemma row_joins_joined_row (r : game_card_details) (gc : game_card)
  (card : card) :
  row_joins r gc card <-> r = joined_row gc card.
Proof.
  unfold row_joins, joined_row. split.
  - destruct r; simpl. intros (-> & -> & -> & -> & -> & -> & -> & ->).
    reflexivity.
  - intros ->. simpl. repeat split.
Qed.

Lemma join_game_cards_In (d : db) (gameId : Z) (r : game_card_details) :
  In r (join_game_cards d gameId) <->
  exists gc card,
    In gc (game_cards d) /\ gc_game_id gc = gameId /\
    In card (cards d) /\ c_id card = gc_card_id gc /\ row_joins r gc card.
Proof.
  unfold join_game_cards. rewrite in_flat_map. split.
  - intros (gc & Hgc & Hr). apply filter_In in Hgc. destruct Hgc as [Hgc Hid].
    apply Z.eqb_eq in Hid. apply in_map_iff in Hr.
    destruct Hr as (card & <- & Hcard). apply filter_In in Hcard.
    destruct Hcard as [Hcard Hc]. apply Z.eqb_eq in Hc.
    exists gc, card. repeat split; auto.
  - intros (gc & card & Hgc & Hid & Hcard & Hc & Hr).
    apply row_joins_joined_row in Hr. subst r.
    exists gc. split.
    + apply filter_In. split; [exact Hgc | apply Z.eqb_eq; exact Hid].
    + apply in_map. apply filter_In.
      split; [exact Hcard | apply Z.eqb_eq; symmetry; exact Hc].
Qed.

(** The runs of the history query that return. *)
Lemma history_games_run (games : list game) :
  forall (c : conn) (history : list history_game) (c' : conn),
    map_all
      (fun game =>
         gameCards <- getGameCards (g_id game) ;;
         ret (mkHistoryGame (g_id game) (g_start_time game) (g_end_time game)
                (g_outcome game) (g_cards_collected game) gameCards))
      games c = (Ok history, c') ->
    history =
    map (fun game =>
           mkHistoryGame (g_id game) (g_start_time game) (g_end_time game)
             (g_outcome game) (g_cards_collected game)
             (stable_sort by_bad_luck_index_asc
                (join_game_cards (store c) (g_id game))))
      games.
Proof.
  induction games as [|game rest IH]; intros c history c'; cbn [map_all map].
  - unfold ret. intros H. injection H as <- _. reflexivity.
  - rewrite !bind_run. unfold getGameCards at 1.
    destruct (db_query _ c) as [[rows|e] c2] eqn:E2;
      apply db_query_run in E2; destruct E2 as (Hs2 & _ & Hrows);
      [|discriminate].
    unfold ret at 1. rewrite bind_run.
    destruct (map_all _ rest c2) as [[ys|e] c3] eqn:E3; [|discriminate].
    apply IH in E3. unfold ret. intros H. injection H as <- _.
    rewrite Hrows, E3, Hs2. reflexivity.
Qed.

Lemma getGameHistory_run (userId : Z) (c : conn) (history : list history_game)
  (c' : conn) :
  getGameHistory userId c = (Ok history, c') ->
  history =
  map (fun game =>
         mkHistoryGame (g_id game) (g_start_time game) (g_end_time game)
           (g_outcome game) (g_cards_collected game)
           (stable_sort by_bad_luck_index_asc
              (join_game_cards (store c) (g_id game))))
    (stable_sort by_start_time_desc (games_of_user (store c) userId)).
Proof.
  unfold getGameHistory. rewrite bind_run.
  destruct (db_query _ c) as [[games|e] c1] eqn:E1;
    apply db_query_run in E1; destruct E1 as (Hs1 & _ & Hgames);
    [|discriminate].
  cbv beta in Hgames. subst games.
  intros H. apply history_games_run in H. rewrite Hs1 in H. exact H.
Qed.

(** C10. With healthy storage [getHistory] answers 200 and leaves the
    connection as it was.  Whenever it answers with a body, the games of
    the body are, up to order, the rows of [games] with that user id (the
    five selected columns), newest start time first.  The card list of
    each game holds exactly the rows that pair an event of that game with
    the card of its card id, by ascending bad_luck_index; where every
    event refers to a card of the catalog and card ids are unique, that
    is one row per event of the game. *)
Theorem history_newest_first_cards_by_index (userId : Z) (c : conn) :
  (faults c = [] ->
   exists history, getHistory userId c = (Json 200 history, c)) /\
  (forall status history c',
      getHistory userId c = (Json status history, c') ->
      Permutation (map history_columns history)
        (map game_columns
           (filter (fun g => g_user_id g =? userId) (games (store c)))) /\
      StronglySorted starts_no_earlier history /\
      Forall
        (fun h =>
           (forall r,
               In r (hg_gameCards h) <->
               exists gc card,
                 In gc (game_cards (store c)) /\ gc_game_id gc = hg_id h /\
                 In card (cards (store c)) /\ c_id card = gc_card_id gc /\
                 row_joins r gc card) /\
           StronglySorted index_no_greater (hg_gameCards h) /\
           (events_refer_to_cards (store c) ->
            Permutation (map event_columns_of_row (hg_gameCards h))
              (map event_columns
                 (filter (fun gc => gc_game_id gc =? hg_id h)
                    (game_cards (store c))))))
        history).
Proof.
  split.
  - intros Hc. eexists. unfold getHistory, handle. rewrite bind_run.
    rewrite (getGameHistory_no_faults userId c Hc). reflexivity.
  - intros status history c'. unfold getHistory, handle. rewrite bind_run.
    destruct (getGameHistory userId c) as [[found|e] c1] eqn:Hrun;
      [|discriminate].
    apply getGameHistory_run in Hrun. unfold ret.
    intros H. injection H as _ <- _. subst found.
    split; [|split].
    + rewrite map_map. cbn [history_columns hg_id hg_start_time hg_end_time
                              hg_outcome hg_cards_collected].
      apply (Permutation_map game_columns).
      apply stable_sort_perm.
    + apply StronglySorted_map.
      unfold starts_no_earlier. cbn [hg_start_time].
      apply (stable_sort_ordered by_start_time_desc
               by_start_time_desc_total by_start_time_desc_trans).
    + apply Forall_map, Forall_forall. intros game _.
      cbn [hg_gameCards hg_id].
      pose proof (stable_sort_perm by_bad_luck_index_asc
                    (join_game_cards (store c) (g_id game))) as Hperm.
      split; [|split].
      * intros r. rewrite <- join_game_cards_In. split.
        -- apply Permutation_in. exact Hperm.
        -- apply Permutation_in. apply Permutation_sym. exact Hperm.
      * pose proof (stable_sort_ordered by_bad_luck_index_asc
                      by_bad_luck_index_asc_total by_bad_luck_index_asc_trans
                      (join_game_cards (store c) (g_id game))) as Hs.
        clear Hperm. induction Hs as [|a l Hs IH Hall]; constructor.
        -- exact IH.
        -- apply Forall_forall. intros b Hb.
           apply Qle_bool_iff.
           exact (proj1 (Forall_forall _ _) Hall b Hb).
      * intros Hrefs.
        rewrite <- (join_keeps_every_event (store c) (g_id game) Hrefs).
        apply Permutation_map. exact Hperm.
Qed.

Lemma history_conn_refers_to_cards : events_refer_to_cards (store history_conn).
Proof.
  split.
  - repeat (constructor;
            [simpl; intros H;
             repeat (destruct H as [H|H]; [discriminate H|]); exact H|]).
    constructor.
  - intros gc Hgc. simpl in Hgc.
    repeat (destruct Hgc as [<-|Hgc]; [vm_compute; tauto|]).
    destruct Hgc.
Qed.

Lemma history_newest_first_cards_by_index_witness :
  Permutation (map history_columns user_1_history)
    (map game_columns
       (filter (fun g => g_user_id g =? 1) (games (store history_conn)))) /\
  StronglySorted starts_no_earlier user_1_history /\
  Forall
    (fun h =>
       Permutation (map event_columns_of_row (hg_gameCards h))
         (map event_columns
            (filter (fun gc => gc_game_id gc =? hg_id h)
               (game_cards (store history_conn)))))
    user_1_history.
Proof.
  destruct (history_newest_first_cards_by_index 1 history_conn)
    as [Hanswer Hrows].
  destruct (Hanswer eq_refl) as (history & Hrun).
  assert (Hhistory : history = user_1_history).
  { unfold user_1_history. rewrite Hrun. reflexivity. }
  rewrite Hhistory in Hrun.
  destruct (Hrows 200%nat user_1_history history_conn Hrun)
    as (Hgames & Horder & Hcards).
  split; [exact Hgames|]. split; [exact Horder|].
  apply (Forall_impl _ (fun h H =>
           proj2 (proj2 H) history_conn_refers_to_cards) Hcards).
Defined.

(** ** [startGame] alone on the connection *)

Lemma io_eval (c : conn) :
  io c =
  match faults c with
  | [] => (Ok tt, c)
  | false :: fs => (Ok tt, mkConn (store c) (tx c) fs)
  | true :: fs => (Throw SQLITE_IOERR, mkConn (store c) (tx c) fs)
  end.
Proof. reflexivity. Qed.

Lemma db_exec_eval {A : Type} (stmt : db -> result A * db) (c : conn) :
  db_exec stmt c =
  match faults c with
  | [] =>
      match stmt (store c) with
      | (Ok a, d) => (Ok a, mkConn d (tx c) [])
      | (Throw e, _) => (Throw e, c)
      end
  | false :: fs =>
      match stmt (store c) with
      | (Ok a, d) => (Ok a, mkConn d (tx c) fs)
      | (Throw e, _) => (Throw e, mkConn (store c) (tx c) fs)
      end
  | true :: fs => (Throw SQLITE_IOERR, mkConn (store c) (tx c) fs)
  end.
Proof.
  unfold db_exec, io. rewrite bind_run.
  destruct (faults c) as [|[|] fs] eqn:Hf; try reflexivity.
  - rewrite Hf. reflexivity.
Qed.

(** The loop of [startGame] when the storage fault to come is [j]
    statements away: it stops at the fault, or inserts every row. *)
Lemma insert_initial_rows_until_fault (gameId : Z)
  (initialCards : list card_details) :
  forall (c : conn) (j : nat) (fs : list bool),
    faults c = repeat false j ++ true :: fs ->
    has_game (store c) gameId = true ->
    (forall card, In card initialCards ->
                  has_card (store c) (cd_id card) = true) ->
    NoDup (map cd_id initialCards) ->
    (forall card, In card initialCards ->
                  has_game_card (store c) gameId (cd_id card) = false) ->
    exists r c',
      for_each
        (fun card =>
           db_exec (insert_game_card gameId (cd_id card) "initial"
                      None None None))
        initialCards c = (r, c') /\
      tx c' = tx c /\
      if (j <? List.length initialCards)%nat
      then r = Throw SQLITE_IOERR /\ faults c' = fs
      else r = Ok tt /\
           faults c' =
           repeat false (j - List.length initialCards) ++ true :: fs.
Proof.
  induction initialCards as [|card rest IH]; intros c j fs Hf Hg Hc Hnd Hfree.
  - exists (Ok tt), c. split; [reflexivity|]. split; [reflexivity|].
    simpl. rewrite Nat.sub_0_r. auto.
  - simpl for_each. rewrite bind_run, db_exec_eval, Hf.
    destruct j as [|j]; simpl repeat; cbn [app].
    + do 2 eexists. split; [reflexivity|]. split; [reflexivity|].
      simpl. auto.
    + unfold insert_game_card at 1.
      rewrite (Hfree card (or_introl eq_refl)), Hg,
        (Hc card (or_introl eq_refl)).
      cbn [andb].
      set (c1 := mkConn _ (tx c) _).
      inversion Hnd as [|? ? Hnotin Hnd']; subst.
      destruct (IH c1 j fs) as (r & c' & Hrun & Ht & Hres).
      * reflexivity.
      * exact Hg.
      * intros other Hother. apply Hc. right. exact Hother.
      * exact Hnd'.
      * intros other Hother. unfold has_game_card. simpl.
        rewrite existsb_app. simpl.
        fold (has_game_card (store c) gameId (cd_id other)).
        rewrite (Hfree other (or_intror Hother)). simpl.
        rewrite Z.eqb_refl. simpl. rewrite orb_false_r.
        apply Z.eqb_neq. intros E. apply Hnotin. rewrite E.
        apply in_map. exact Hother.
      * exists r, c'. split; [exact Hrun|]. split; [exact Ht|].
        change (S j <? List.length (card :: rest))%nat
          with (j <? List.length rest)%nat.
        exact Hres.
Qed.

Lemma conn_eta (c : conn) (d : db) (t : option db) (fs : list bool) :
  store c = d -> tx c = t -> faults c = fs -> c = mkConn d t fs.
Proof. destruct c. simpl. intros -> -> ->. reflexivity. Qed.

(** The header row is in, the cards are fine: what the loop needs. *)
Lemma initial_cards_insertable (c : conn) (userId : Z) (startTime : string)
  (initialCards : list card_details) :
  db_ok (store c) -> NoDup (map cd_id initialCards) ->
  (forall card, In card initialCards ->
                In (cd_id card) (map c_id (cards (store c)))) ->
  let fresh := games_seq (store c) + 1 in
  let d1 :=
    mkDb (users (store c)) (cards (store c))
      (games (store c) ++ [mkGame fresh userId startTime "" "" 0])
      (game_cards (store c)) fresh (game_cards_seq (store c)) in
  has_game d1 fresh = true /\
  (forall card, In card initialCards -> has_card d1 (cd_id card) = true) /\
  (forall card, In card initialCards ->
                has_game_card d1 fresh (cd_id card) = false).
Proof.
  intros Hok Hnd Hcards. cbv zeta. split; [|split].
  - unfold has_game. simpl. rewrite existsb_app. simpl.
    rewrite Z.eqb_refl. apply orb_true_r.
  - intros card Hcard. apply has_card_In. simpl. apply Hcards. exact Hcard.
  - intros card _.
    match goal with |- ?b = false => destruct b eqn:E; [|reflexivity] end.
    apply has_game_card_involved in E. unfold involved_ids in E.
    cbn [game_cards] in E.
    rewrite (no_event_of_future_game (store c) _ Hok) in E by lia.
    destruct E.
Qed.

(** X25. [startGame] called alone, on a connection with no transaction
    open.  It returns the next game id with the header and one `initial`
    row per card appended, or throws with the database as before the
    call; either way no transaction is left open.  With healthy storage
    an unknown user gives the foreign-key error and the connection is
    untouched.  For a known user and distinct cards of the catalog, on a
    database that meets the constraints: with healthy storage the call
    succeeds; when statement k fails on storage (BEGIN is 0, the header
    insert 1, prepare 2, the card inserts from 3 on, then finalize and
    COMMIT) the call throws that error with the database as before,
    except for k = 0, where the error thrown is that of the ROLLBACK,
    which found no transaction.  The ROLLBACK of an open transaction is
    taken not to fail. *)
Theorem startGame_alone_all_or_nothing (c : conn) (startTime : string)
  (userId : Z) (initialCards : list card_details) :
  tx c = None ->
  let fresh := games_seq (store c) + 1 in
  let written :=
    mkDb (users (store c)) (cards (store c))
      (games (store c) ++ [mkGame fresh userId startTime "" "" 0])
      (game_cards (store c) ++
         initial_rows fresh (game_cards_seq (store c)) initialCards)
      fresh
      (game_cards_seq (store c) + Z.of_nat (List.length initialCards)) in
  (forall r c',
      startGame startTime userId initialCards c = (r, c') ->
      tx c' = None /\
      match r with
      | Ok gameId => gameId = fresh /\ store c' = written
      | Throw _ => store c' = store c
      end) /\
  (faults c = [] -> ~ In userId (users (store c)) ->
   startGame startTime userId initialCards c =
   (Throw SQLITE_CONSTRAINT_FOREIGNKEY, c)) /\
  (db_ok (store c) -> In userId (users (store c)) ->
   NoDup (map cd_id initialCards) ->
   (forall card, In card initialCards ->
                 In (cd_id card) (map c_id (cards (store c)))) ->
   (faults c = [] ->
    startGame startTime userId initialCards c =
    (Ok fresh, mkConn written None [])) /\
   (forall (k : nat) (fs : list bool),
       faults c = repeat false k ++ true :: fs ->
       (k <= List.length initialCards + 4)%nat ->
       startGame startTime userId initialCards c =
       (Throw (match k with O => SQLITE_ERROR | S _ => SQLITE_IOERR end),
        mkConn (store c) None fs))).
Proof.
  intros Htx. cbv zeta. split; [|split].
  - intros r c' Hrun.
    destruct (startGame_run c startTime userId initialCards r c' Htx Hrun)
      as [Ht H].
    split; [exact Ht|]. destruct r as [gameId|e]; [|exact H].
    destruct H as (-> & _ & ->). split; reflexivity.
  - intros Hf Huser.
    assert (Hu : has_user (store c) userId = false).
    { destruct (has_user (store c) userId) eqn:E; [|reflexivity].
      apply has_user_In in E. contradiction. }
    unfold startGame, try_catch. rewrite bind_run.
    unfold db_begin at 1.
    rewrite bind_run, (io_no_faults c Hf), Htx, Hf.
    rewrite bind_run.
    rewrite (db_exec_no_faults _ (mkConn (store c) (Some (store c)) []) eq_refl).
    cbn [store tx]. unfold insert_game at 1. rewrite Hu.
    rewrite (rollback_rethrow _ _ (store c)) by reflexivity. cbn [faults].
    f_equal. symmetry. apply conn_eta; auto.
  - intros Hok Huser Hnd Hcards.
    destruct (initial_cards_insertable c userId startTime initialCards Hok
                Hnd Hcards) as (Hg & Hc & Hfree).
    cbv zeta in Hg, Hc, Hfree.
    set (d1 := mkDb (users (store c)) (cards (store c))
                 (games (store c) ++
                    [mkGame (games_seq (store c) + 1) userId startTime "" "" 0])
                 (game_cards (store c)) (games_seq (store c) + 1)
                 (game_cards_seq (store c))) in *.
    assert (Hu : has_user (store c) userId = true)
      by (apply has_user_In; exact Huser).
    split.
    + intros Hf.
      destruct (startGame startTime userId initialCards c) as [r c'] eqn:Hrun.
      assert (Hfinal : exists gameId, r = Ok gameId /\ faults c' = []).
      { revert Hrun. unfold startGame, try_catch. rewrite bind_run.
        unfold db_begin at 1.
        rewrite bind_run, (io_no_faults c Hf), Htx, Hf.
        rewrite bind_run.
        rewrite (db_exec_no_faults _ (mkConn (store c) (Some (store c)) [])
                   eq_refl).
        cbn [store tx]. unfold insert_game at 1. rewrite Hu.
        fold d1.
        rewrite bind_run. unfold db_prepare.
        rewrite io_no_faults by reflexivity.
        rewrite bind_run.
        destruct (insert_initial_rows_succeed (games_seq (store c) + 1)
                    initialCards (mkConn d1 (Some (store c)) [])
                    eq_refl Hg Hc Hnd Hfree) as (c4 & Hloop & Hf4 & Ht4).
        rewrite Hloop. rewrite bind_run. unfold db_finalize.
        rewrite (io_no_faults c4 Hf4).
        rewrite bind_run. unfold db_commit.
        rewrite bind_run, (io_no_faults c4 Hf4), Ht4. simpl.
        intros H. injection H as <- <-. eauto. }
      destruct Hfinal as (gameId & -> & Hf').
      destruct (startGame_run c startTime userId initialCards _ c' Htx Hrun)
        as (Ht & -> & _ & Hs).
      f_equal. apply conn_eta; assumption.
    + intros k fs Hf Hk.
      unfold startGame, try_catch. rewrite bind_run.
      unfold db_begin at 1. rewrite bind_run, io_eval, Hf.
      destruct k as [|k]; simpl repeat; cbn [app].
      { rewrite bind_run. unfold db_rollback. cbn [tx]. rewrite Htx.
        reflexivity. }
      cbn [tx store faults]. rewrite Htx.
      rewrite bind_run, db_exec_eval. cbn [faults store tx].
      destruct k as [|k]; simpl repeat; cbn [app].
      { rewrite (rollback_rethrow _ _ (store c)) by reflexivity. reflexivity. }
      unfold insert_game at 1. rewrite Hu. fold d1.
      rewrite bind_run. unfold db_prepare. rewrite io_eval. cbn [faults].
      destruct k as [|k]; simpl repeat; cbn [app].
      { rewrite (rollback_rethrow _ _ (store c)) by reflexivity. reflexivity. }
      cbn [store tx]. rewrite bind_run.
      destruct (insert_initial_rows_until_fault (games_seq (store c) + 1)
                  initialCards
                  (mkConn d1 (Some (store c)) (repeat false k ++ true :: fs))
                  k fs eq_refl Hg Hc Hnd Hfree)
        as (r & c4 & Hloop & Ht4 & Hres).
      rewrite Hloop. cbn [tx] in Ht4.
      destruct (k <? List.length initialCards)%nat eqn:Hlt.
      { destruct Hres as [-> Hf4].
        rewrite bind_run. unfold db_rollback. rewrite Ht4, Hf4. reflexivity. }
      destruct Hres as [-> Hf4]. apply Nat.ltb_ge in Hlt.
      rewrite bind_run. unfold db_finalize. rewrite io_eval, Hf4.
      destruct (k - List.length initialCards)%nat as [|m] eqn:Hm;
        simpl repeat; cbn [app].
      { rewrite bind_run. unfold db_rollback. cbn [tx faults]. rewrite Ht4. reflexivity. }
      rewrite bind_run. unfold db_commit. rewrite bind_run, io_eval.
      cbn [faults].
      destruct m as [|m]; simpl repeat; cbn [app]; [|lia].
      rewrite bind_run. unfold db_rollback. cbn [tx faults]. rewrite Ht4. reflexivity.
Qed.

Lemma scenario_conn_ok : db_ok (store scenario_conn).
Proof.
  constructor; simpl; try (intros ? []);
    try (apply distinctb_NoDup; reflexivity); apply NoDup_nil.
Qed.

Lemma startGame_alone_all_or_nothing_witness :
  startGame "2025-06-01T10:00:00.000Z" 1
    (map select_details [card_A; card_B; card_C])
    (mkConn (store scenario_conn) None [false; false; false; false; true; false])
  = (Throw SQLITE_IOERR, mkConn (store scenario_conn) None [false]) /\
  startGame "2025-06-01T10:00:00.000Z" 1
    (map select_details [card_A; card_B; card_C])
    (mkConn (store scenario_conn) None [true])
  = (Throw SQLITE_ERROR, mkConn (store scenario_conn) None []).
Proof.
  assert (Huser : In 1 (users (store scenario_conn))) by (left; reflexivity).
  assert (Hnd : NoDup (map cd_id (map select_details [card_A; card_B; card_C])))
    by (apply distinctb_NoDup; reflexivity).
  assert (Hcards : forall card,
             In card (map select_details [card_A; card_B; card_C]) ->
             In (cd_id card) (map c_id (cards (store scenario_conn)))).
  { intros card H. simpl in H.
    destruct H as [<-|[<-|[<-|[]]]]; simpl; tauto. }
  split.
  - destruct (startGame_alone_all_or_nothing
                (mkConn (store scenario_conn) None
                   [false; false; false; false; true; false])
                "2025-06-01T10:00:00.000Z" 1
                (map select_details [card_A; card_B; card_C]) eq_refl)
      as (_ & _ & H).
    destruct (H scenario_conn_ok Huser Hnd Hcards) as [_ Hfault].
    apply (Hfault 4%nat [false] eq_refl). simpl. lia.
  - destruct (startGame_alone_all_or_nothing
                (mkConn (store scenario_conn) None [true])
                "2025-06-01T10:00:00.000Z" 1
                (map select_details [card_A; card_B; card_C]) eq_refl)
      as (_ & _ & H).
    destruct (H scenario_conn_ok Huser Hnd Hcards) as [_ Hfault].
    apply (Hfault 0%nat [] eq_refl). simpl. lia.
Defined.

(** ** Two start-game requests in flight *)

Lemma async_catch_alone (e : sql_error) (c : conn) :
  Async.run
    (Async.Await db_rollback
       (fun r => match r with
                 | Ok _ => Async.Done (Throw e)
                 | Throw e' => Async.Done (Throw e')
                 end)) c =
  (db_rollback ;;; @throw Z e) c.
Proof.
  cbn [Async.run]. rewrite bind_run.
  destruct (db_rollback c) as [[[]|e'] c']; reflexivity.
Qed.

(** A request that is never interrupted runs as [startGame] in [M]. *)
Lemma async_startGame_alone (startTime : string) (userId : Z)
  (initialCards : list card_details) (c : conn) :
  Async.run (Async.startGame startTime userId initialCards) c =
  startGame startTime userId initialCards c.
Proof.
  unfold Async.startGame, startGame, try_catch.
  cbn [Async.run]. rewrite !bind_run.
  destruct (db_begin c) as [[[]|e] c1]; [|apply async_catch_alone].
  cbn [Async.run]. rewrite !bind_run.
  destruct (db_exec _ c1) as [[gameId|e] c2]; [|apply async_catch_alone].
  cbn [Async.run]. rewrite !bind_run.
  destruct (db_prepare c2) as [[[]|e] c3]; [|apply async_catch_alone].
  rewrite !bind_run. revert c3.
  induction initialCards as [|card rest IH]; intros c3.
  - cbn [Async.run for_each]. unfold ret at 1.
    rewrite !bind_run.
    destruct (db_finalize c3) as [[[]|e] c4]; [|apply async_catch_alone].
    cbn [Async.run]. rewrite !bind_run.
    destruct (db_commit c4) as [[[]|e] c5];
      [reflexivity | apply async_catch_alone].
  - cbn [Async.run for_each]. rewrite !bind_run.
    destruct (db_exec _ c3) as [[[]|e] c4]; [|apply async_catch_alone].
    apply IH.
Qed.

(** What is left of [startGame] once its BEGIN has been executed, run
    without interruption. *)
Lemma async_startGame_after_begin (startTime : string) (userId : Z)
  (initialCards : list card_details) (c c1 : conn) :
  db_begin c = (Ok tt, c1) ->
  snd (Async.step (Async.startGame startTime userId initialCards) c) = c1 /\
  forall c',
    Async.run
      (fst (Async.step (Async.startGame startTime userId initialCards) c)) c' =
    try_catch
      (gameId <- db_exec (insert_game userId startTime "" "" 0) ;;
       db_prepare ;;;
       for_each
         (fun card =>
            db_exec (insert_game_card gameId (cd_id card) "initial"
                       None None None))
         initialCards ;;;
       db_finalize ;;;
       db_commit ;;;
       ret gameId)
      (fun err => db_rollback ;;; throw err) c'.
Proof.
  intros Hbegin. unfold Async.startGame. cbn [Async.step]. rewrite Hbegin.
  cbn [fst snd]. split; [reflexivity|]. intros c'.
  unfold try_catch. cbn [Async.run]. rewrite !bind_run.
  destruct (db_exec _ c') as [[gameId|e] c2]; [|apply async_catch_alone].
  cbn [Async.run]. rewrite !bind_run.
  destruct (db_prepare c2) as [[[]|e] c3]; [|apply async_catch_alone].
  rewrite !bind_run. revert c3.
  induction initialCards as [|card rest IH]; intros c3.
  - cbn [Async.run for_each]. unfold ret at 1.
    rewrite !bind_run.
    destruct (db_finalize c3) as [[[]|e] c4]; [|apply async_catch_alone].
    cbn [Async.run]. rewrite !bind_run.
    destruct (db_commit c4) as [[[]|e] c5];
      [reflexivity | apply async_catch_alone].
  - cbn [Async.run for_each]. rewrite !bind_run.
    destruct (db_exec _ c3) as [[[]|e] c4]; [|apply async_catch_alone].
    apply IH.
Qed.

(** A call of [startGame] whose BEGIN finds a transaction open: it fails,
    and the ROLLBACK of its [catch] ends that transaction. *)
Lemma async_startGame_in_open_transaction (startTime : string) (userId : Z)
  (initialCards : list card_details) (c : conn) (saved : db) :
  faults c = [] -> tx c = Some saved ->
  let (waiting, c1) :=
    Async.step (Async.startGame startTime userId initialCards) c in
  c1 = c /\
  Async.step waiting c1 =
  (Async.Done (Throw SQLITE_ERROR), mkConn saved None []).
Proof.
  intros Hf Htx. unfold Async.startGame. cbn [Async.step].
  unfold db_begin at 1. rewrite bind_run, (io_no_faults c Hf), Htx.
  split; [reflexivity|].
  cbn [Async.step]. unfold db_rollback. rewrite Htx, Hf. reflexivity.
Qed.

(** C4 (the code departs from the claim). Two calls of [startGame] are in
    flight on the shared connection, which is idle and healthy before;
    the first call is for a known user and distinct cards of the catalog,
    on a database that meets the constraints.  The BEGIN of the first is
    executed, then the BEGIN of the second, which fails inside the first
    call's transaction, then the ROLLBACK of the second's [catch], which
    ends that transaction.  The first call then runs to its end: its
    header and `initial` rows are written outside any transaction, its
    COMMIT fails, the ROLLBACK of its [catch] fails, and it throws.  Both
    calls have failed, the first one after its header insert, and its
    header and rows are in the database. *)
Theorem overlapping_starts_break_atomicity (c : conn)
  (startTime startTime' : string) (userId userId' : Z)
  (initialCards initialCards' : list card_details) :
  tx c = None -> faults c = [] -> db_ok (store c) ->
  In userId (users (store c)) ->
  NoDup (map cd_id initialCards) ->
  (forall card, In card initialCards ->
                In (cd_id card) (map c_id (cards (store c)))) ->
  let fresh := games_seq (store c) + 1 in
  Async.interleave [true; false; false]
    (Async.startGame startTime userId initialCards)
    (Async.startGame startTime' userId' initialCards') c =
  (Throw SQLITE_ERROR, Throw SQLITE_ERROR,
   mkConn
     (mkDb (users (store c)) (cards (store c))
        (games (store c) ++ [mkGame fresh userId startTime "" "" 0])
        (game_cards (store c) ++
           initial_rows fresh (game_cards_seq (store c)) initialCards)
        fresh
        (game_cards_seq (store c) + Z.of_nat (List.length initialCards)))
     None []).
Proof.
  intros Htx Hf Hok Huser Hnd Hcards. cbv zeta.
  assert (Hbegin : db_begin c = (Ok tt, mkConn (store c) (Some (store c)) [])).
  { unfold db_begin. rewrite bind_run, (io_no_faults c Hf), Htx, Hf.
    reflexivity. }
  destruct (async_startGame_after_begin startTime userId initialCards c _
              Hbegin) as [Hc1 Hrest].
  cbn [Async.interleave].
  destruct (Async.step (Async.startGame startTime userId initialCards) c)
    as [first c1] eqn:Hfirst.
  cbn [fst snd] in Hc1, Hrest. subst c1.
  pose proof (async_startGame_in_open_transaction startTime' userId'
                initialCards' (mkConn (store c) (Some (store c)) [])
                (store c) eq_refl eq_refl) as Hsecond.
  destruct (Async.step (Async.startGame startTime' userId' initialCards') _)
    as [waiting c2].
  destruct Hsecond as [-> Hsecond]. rewrite Hsecond.
  rewrite Hrest. cbn [Async.run].
  (* the first call goes on, outside any transaction *)
  destruct (initial_cards_insertable c userId startTime initialCards Hok
              Hnd Hcards) as (Hg & Hc & Hfree).
  cbv zeta in Hg, Hc, Hfree.
  assert (Hu : has_user (store c) userId = true)
    by (apply has_user_In; exact Huser).
  unfold try_catch. rewrite bind_run.
  rewrite (db_exec_no_faults _ (mkConn (store c) None []) eq_refl).
  cbn [store tx]. unfold insert_game at 1. rewrite Hu.
  rewrite bind_run. unfold db_prepare.
  rewrite io_no_faults by reflexivity.
  rewrite bind_run.
  match goal with
  | |- context [for_each _ initialCards ?cx] =>
      destruct (insert_initial_rows_succeed (games_seq (store c) + 1)
                  initialCards cx eq_refl Hg Hc Hnd Hfree)
        as (c4 & Hloop & Hf4 & Ht4);
      pose proof (insert_initial_rows _ _ _ _ _ Hloop) as [_ Hs4]
  end.
  rewrite Hloop. cbn [store tx games game_cards games_seq game_cards_seq
                      users cards] in Hs4, Ht4.
  rewrite bind_run. unfold db_finalize. rewrite (io_no_faults c4 Hf4).
  rewrite bind_run. unfold db_commit.
  rewrite bind_run, (io_no_faults c4 Hf4), Ht4.
  rewrite bind_run. unfold db_rollback. rewrite Ht4.
  f_equal. apply conn_eta; assumption.
Qed.

Lemma overlapping_starts_break_atomicity_witness :
  overlapping_starts =
  (Throw SQLITE_ERROR, Throw SQLITE_ERROR,
   mkConn
     (mkDb [1] [card_A; card_B; card_C; card_D]
        [mkGame 1 1 "2025-06-01T10:00:00.000Z" "" "" 0]
        [mkGameCard 1 1 1 "initial" None None None;
         mkGameCard 2 1 2 "initial" None None None;
         mkGameCard 3 1 3 "initial" None None None]
        1 3)
     None []).
Proof.
  assert (Huser : In 1 (users (store scenario_conn))) by (left; reflexivity).
  assert (Hnd : NoDup (map cd_id (map select_details [card_A; card_B; card_C])))
    by (apply distinctb_NoDup; reflexivity).
  assert (Hcards : forall card,
             In card (map select_details [card_A; card_B; card_C]) ->
             In (cd_id card) (map c_id (cards (store scenario_conn)))).
  { intros card H. simpl in H.
    destruct H as [<-|[<-|[<-|[]]]]; simpl; tauto. }
  exact (overlapping_starts_break_atomicity scenario_conn
           "2025-06-01T10:00:00.000Z" "2025-06-01T10:00:00.001Z" 1 1
           (map select_details [card_A; card_B; card_C])
           (map select_details [card_B; card_C; card_D])
           eq_refl eq_refl scenario_conn_ok Huser Hnd Hcards).
Defined.

(** ** A start-game request that fails *)

(** [startGame] on a connection with a transaction open: BEGIN fails and
    the ROLLBACK of the [catch] ends that transaction. *)
Lemma startGame_in_open_transaction (c : conn) (saved : db)
  (startTime : string) (userId : Z) (initialCards : list card_details) :
  tx c = Some saved ->
  exists e c',
    startGame startTime userId initialCards c = (Throw e, c') /\
    store c' = saved /\ tx c' = None.
Proof.
  intros Htx. unfold startGame, try_catch. rewrite bind_run.
  unfold db_begin at 1. rewrite bind_run.
  destruct (io c) as [[[]|e0] c0] eqn:Hio; apply io_run in Hio;
    destruct Hio as [Hs0 Ht0]; rewrite Htx in Ht0.
  - rewrite Ht0. rewrite (rollback_rethrow _ c0 saved Ht0). eauto.
  - rewrite (rollback_rethrow _ c0 saved Ht0). eauto.
Qed.

(** X7. A start-game request that fails.  From a connection with no
    transaction open, an answer with an error has written nothing and
    left no transaction open; with healthy storage and fewer than three
    cards in the catalog the answer is the 500
    "Not enough cards to start a game." and the connection is untouched.
    On a connection where a transaction is open the request always fails,
    and either it has touched neither database nor transaction, or the
    ROLLBACK of [startGame] has ended the open transaction and undone
    what was written in it. *)
Theorem failed_start_writes_nothing
  (picks : list nat) (startTime : string) (userId : Z) (c : conn) :
  let out := postGamesStart picks startTime userId c in
  (tx c = None ->
   forall status error,
     fst out = JsonError status error ->
     store (snd out) = store c /\ tx (snd out) = None) /\
  (faults c = [] -> (List.length (cards (store c)) < 3)%nat ->
   out = (JsonError 500 "Not enough cards to start a game.", c)) /\
  (forall saved,
      tx c = Some saved ->
      (exists status error, fst out = JsonError status error) /\
      ((store (snd out) = store c /\ tx (snd out) = tx c) \/
       (store (snd out) = saved /\ tx (snd out) = None))).
Proof.
  cbv zeta. split; [|split].
  - intros Htx status error Herr.
    destruct (postGamesStart picks startTime userId c) as [resp c'] eqn:Hrun.
    simpl in Herr. subst resp.
    destruct (postGamesStart_effect picks startTime userId c _ _ Htx Hrun)
      as [Ht [[_ Hs]|H]].
    + split; assumption.
    + cbv zeta in H. destruct H as (_ & _ & Hresp & _). discriminate Hresp.
  - intros Hf Hfew. unfold postGamesStart, handle.
    rewrite bind_run, (getRandomCards_no_faults picks 3 [] c Hf).
    assert (Hlen : (List.length
                      (map select_details
                         (firstn 3 (order_by_random picks
                                      (eligible [] (store c))))) <? 3)%nat
                   = true).
    { apply Nat.ltb_lt. rewrite length_map, length_firstn.
      rewrite (Permutation_length (order_by_random_perm picks _)).
      unfold eligible. rewrite not_in_nil. lia. }
    rewrite Hlen. reflexivity.
  - intros saved Htx. unfold postGamesStart, handle. rewrite bind_run.
    unfold getRandomCards.
    destruct (db_query _ c) as [[drawn|e] c1] eqn:E1;
      apply db_query_run in E1; destruct E1 as (Hs1 & Ht1 & _).
    2:{ simpl. split; [eauto|]. left. split; assumption. }
    destruct (List.length drawn <? 3)%nat.
    { simpl. split; [eauto|]. left. split; assumption. }
    rewrite bind_run. rewrite Htx in Ht1.
    destruct (startGame_in_open_transaction c1 saved startTime userId
                (stable_sort by_index_asc drawn) Ht1)
      as (e & c2 & -> & Hs2 & Ht2).
    simpl. split; [eauto|]. right. split; assumption.
Qed.

Lemma failed_start_writes_nothing_witness :
  postGamesStart [O] "2025-06-02T09:00:00.000Z" 1
    (mkConn (mkDb [1] [card_A; card_B] [] [] 0 0) None []) =
  (JsonError 500 "Not enough cards to start a game.",
   mkConn (mkDb [1] [card_A; card_B] [] [] 0 0) None []) /\
  (exists status error,
      fst (postGamesStart [O; O; O] "2025-06-01T10:00:00.000Z" 1
             scenario_mid_start) = JsonError status error).
Proof.
  split.
  - destruct (failed_start_writes_nothing [O] "2025-06-02T09:00:00.000Z" 1
                (mkConn (mkDb [1] [card_A; card_B] [] [] 0 0) None []))
      as (_ & Hfew & _).
    apply Hfew; [reflexivity | simpl; lia].
  - destruct (failed_start_writes_nothing [O; O; O]
                "2025-06-01T10:00:00.000Z" 1 scenario_mid_start)
      as (_ & _ & Hopen).
    exact (proj1 (Hopen (store scenario_conn) eq_refl)).
Defined.

(** On that connection a start-game request fails and the other request's
    header row is gone. *)
Example start_in_open_transaction :
  map g_id (games (store scenario_mid_start)) = [1] /\
  let out := postGamesStart [O; O; O] "2025-06-01T10:00:00.000Z" 1
               scenario_mid_start in
  fst out = JsonError 500 "Failed to start game." /\
  games (store (snd out)) = [] /\ tx (snd out) = None.
Proof. vm_compute. repeat split. Qed.

(** ** A won game under later requests *)

Lemma untyped_postLoseRound_effect (guessTime endTime : string) (gameId : Z)
  (cardId roundNumber : Js.value Z) (c : conn) :
  let out := Untyped.postLoseRound guessTime endTime (Some gameId) cardId
               roundNumber c in
  tx (snd out) = tx c /\
  (((exists status error, fst out = JsonError status error) /\
    store (snd out) = store c) \/
   exists (id : Z) (d1 : db),
     Untyped.bind_param cardId = Some id /\
     insert_game_card gameId id "discarded" (Untyped.bind_param roundNumber)
       (Some guessTime) (Some 0) (store c) = (Ok tt, d1) /\
     let lost := count_rows (is_lost_row gameId) (game_cards d1) in
     let held :=
       filter in_possession
         (stable_sort by_bad_luck_index_asc (join_game_cards d1 gameId)) in
     let outcome := if 3 <=? lost then Some "Lost" else None in
     (((exists status error, fst out = JsonError status error) /\
       store (snd out) = d1) \/
      (fst out =
       Json 200 (mkLoseRoundBody "Round lost/card discarded." outcome lost) /\
       store (snd out) =
       match outcome with
       | Some o =>
           snd (update_game endTime o (Z.of_nat (List.length held)) gameId d1)
       | None => d1
       end))).
Proof.
  cbv zeta. unfold Untyped.postLoseRound.
  destruct (Js.isNaN cardId || Js.isNaN roundNumber).
  { simpl. split; [reflexivity|]. left. split; [eauto | reflexivity]. }
  unfold handle. rewrite bind_run. unfold Untyped.recordRoundOutcome.
  destruct (db_exec _ c) as [[[]|e] c1] eqn:E1;
    apply db_exec_run in E1; destruct E1 as [Ht1 Hs1].
  2:{ simpl. split; [exact Ht1|]. left. split; [eauto | exact Hs1]. }
  destruct (Untyped.bind_param cardId) as [id|] eqn:Hid;
    cbn [Untyped.insert_bound_game_card] in Hs1; [|discriminate Hs1].
  rewrite bind_run. unfold getLostRoundsCount.
  destruct (db_query _ c1) as [[lost|e] c2] eqn:E2;
    apply db_query_run in E2; destruct E2 as (Hs2 & Ht2 & Hlost).
  2:{ simpl. split; [congruence|]. right. exists id, (store c1).
      split; [reflexivity|]. split; [exact Hs1|].
      left. split; [eauto | exact Hs2]. }
  subst lost. rewrite bind_run.
  destruct (3 <=? count_rows (is_lost_row gameId) (game_cards (store c1)))
    eqn:Hl.
  - rewrite bind_run. unfold getGameCards.
    destruct (db_query _ c2) as [[rows|e] c3] eqn:E3;
      apply db_query_run in E3; destruct E3 as (Hs3 & Ht3 & Hrows).
    2:{ simpl. split; [congruence|]. right. exists id, (store c1).
        split; [reflexivity|]. split; [exact Hs1|].
        left. split; [eauto | congruence]. }
    rewrite bind_run. unfold endGame.
    destruct (db_exec _ c3) as [[[]|e] c4] eqn:E4;
      apply db_exec_run in E4; destruct E4 as [Ht4 Hs4].
    2:{ simpl. split; [congruence|]. right. exists id, (store c1).
        split; [reflexivity|]. split; [exact Hs1|].
        left. split; [eauto | congruence]. }
    simpl. split; [congruence|]. right. exists id, (store c1).
    split; [reflexivity|]. split; [exact Hs1|].
    right. rewrite Hl. split; [reflexivity|].
    rewrite Hs3, Hs2 in Hs4. rewrite Hs2 in Hrows. subst rows.
    unfold update_game in *. congruence.
  - simpl. split; [congruence|]. right. exists id, (store c1).
    split; [reflexivity|]. split; [exact Hs1|].
    right. rewrite Hl. split; [reflexivity | exact Hs2].
Qed.

Lemma untyped_postDemoGuess_reads (initialCards : option (list Js.element))
  (newCardId placementIndex : Js.value Z) (c : conn) :
  store (snd (Untyped.postDemoGuess initialCards newCardId placementIndex c))
  = store c /\
  tx (snd (Untyped.postDemoGuess initialCards newCardId placementIndex c))
  = tx c.
Proof.
  unfold Untyped.postDemoGuess.
  destruct initialCards as [initialCards|]; [|split; reflexivity].
  destruct (Js.isNaN newCardId || Js.isNaN placementIndex);
    [split; reflexivity|].
  apply reads_only_handle.
  apply reads_only_bind; [apply reads_only_query | intros [newCard|]];
    [|apply reads_only_ret].
  destruct (Untyped.demoIsCorrect _ _ _); [apply reads_only_ret|].
  intros c0 r c' H. injection H as _ <-. split; reflexivity.
Qed.

Lemma keeps_untyped_record (guessTime : string) (gameId : Z)
  (cardId : Js.value Z) (status : string) (roundNumber : Js.value Z)
  (isCorrectGuess : option bool) :
  keeps_ok (Untyped.recordRoundOutcome guessTime gameId cardId status
              roundNumber isCorrectGuess).
Proof.
  apply keeps_db_exec. intros d [] d' Hd.
  destruct (Untyped.bind_param cardId) as [id|];
    cbn [Untyped.insert_bound_game_card]; [|discriminate].
  exact (insert_game_card_keeps _ _ _ _ _ _ _ _ Hd).
Qed.

Lemma keeps_untyped_postGuess (guessTime endTime : string)
  (gameId : option Z) (cardId : Js.value Z)
  (playerHand : option (list Js.element))
  (placementIndex roundNumber : Js.value Z) :
  handler_keeps_ok
    (Untyped.postGuess guessTime endTime gameId cardId playerHand
       placementIndex roundNumber).
Proof.
  unfold Untyped.postGuess.
  destruct gameId as [gameId|]; [|intros c Hc; exact Hc].
  destruct playerHand as [playerHand|]; [|intros c Hc; exact Hc].
  destruct (Js.isNaN cardId || Js.isNaN placementIndex || Js.isNaN roundNumber);
    [intros c Hc; exact Hc|].
  apply keeps_handle.
  apply keeps_bind; [apply keeps_db_query|]. intros [newCard|];
    [|apply keeps_ret].
  destruct (Untyped.guessIsCorrect _ _ _) as [isCorrect|];
    [|apply keeps_throw].
  apply keeps_bind; [apply keeps_untyped_record | intros _].
  apply keeps_bind; [apply keeps_db_query | intros rows].
  apply keeps_bind; [apply keeps_db_query | intros won].
  apply keeps_bind; [apply keeps_db_query | intros lost].
  apply keeps_bind; [|intros outcome; apply keeps_ret].
  destruct (3 <=? won); [|destruct (3 <=? lost)].
  - apply keeps_bind; [apply keeps_endGame | intros _; apply keeps_ret].
  - apply keeps_bind; [apply keeps_endGame | intros _; apply keeps_ret].
  - apply keeps_ret.
Qed.

Lemma keeps_untyped_postLoseRound (guessTime endTime : string)
  (gameId : option Z) (cardId roundNumber : Js.value Z) :
  handler_keeps_ok
    (Untyped.postLoseRound guessTime endTime gameId cardId roundNumber).
Proof.
  unfold Untyped.postLoseRound.
  destruct gameId as [gameId|]; [|intros c Hc; exact Hc].
  destruct (Js.isNaN cardId || Js.isNaN roundNumber);
    [intros c Hc; exact Hc|].
  apply keeps_handle.
  apply keeps_bind; [apply keeps_untyped_record | intros _].
  apply keeps_bind; [apply keeps_db_query | intros lost].
  apply keeps_bind; [|intros outcome; apply keeps_ret].
  destruct (3 <=? lost); [|apply keeps_ret].
  apply keeps_bind; [apply keeps_db_query | intros rows].
  apply keeps_bind; [apply keeps_endGame | intros _; apply keeps_ret].
Qed.

Lemma idle_conn_ok (c : conn) : db_ok (store c) -> tx c = None -> conn_ok c.
Proof.
  intros Hok Htx. split; [exact Hok|]. rewrite Htx. discriminate.
Qed.

(** A game with a won row exists, under the constraints, and its id has
    been handed out. *)
Lemma won_game_exists (gameId : Z) (d : db) :
  db_ok d -> 0 < count_rows (is_won_row gameId) (game_cards d) ->
  In gameId (map g_id (games d)) /\ gameId <= games_seq d.
Proof.
  intros Hok Hwon. unfold count_rows in Hwon.
  destruct (filter (is_won_row gameId) (game_cards d)) as [|r rest] eqn:E;
    [simpl in Hwon; lia|].
  assert (Hr : In r (filter (is_won_row gameId) (game_cards d)))
    by (rewrite E; left; reflexivity).
  apply filter_In in Hr. destruct Hr as [Hr Hrow].
  unfold is_won_row in Hrow. apply andb_prop in Hrow.
  destruct Hrow as [Hid _]. apply Z.eqb_eq in Hid.
  pose proof (ok_events_game d Hok r Hr) as Hg. rewrite Hid in Hg.
  split; [exact Hg|].
  apply in_map_iff in Hg. destruct Hg as (g & <- & Hg).
  exact (ok_games_seq d Hok g Hg).
Qed.

Lemma game_header_nonempty (gameId : Z) (c : conn) :
  In gameId (map g_id (games (store c))) -> game_header gameId c <> [].
Proof.
  intros Hin. apply in_map_iff in Hin. destruct Hin as (g & Hid & Hg).
  unfold game_header. intros Hnil.
  assert (Hf : In g (filter (fun g => g_id g =? gameId) (games (store c)))).
  { apply filter_In. split; [exact Hg | apply Z.eqb_eq; exact Hid]. }
  destruct (filter _ (games (store c))); [destruct Hf | discriminate Hnil].
Qed.

Lemma same_game_header (gameId : Z) (c c' : conn) :
  same_game gameId (store c) (store c') ->
  game_header gameId c' = game_header gameId c.
Proof.
  intros (_ & Hg & _). unfold game_header. rewrite Hg. reflexivity.
Qed.

Lemma initial_rows_not_won (gameId newId seq : Z)
  (initialCards : list card_details) :
  count_rows (is_won_row gameId) (initial_rows newId seq initialCards) = 0.
Proof.
  revert seq. induction initialCards as [|card rest IH]; intros seq.
  - reflexivity.
  - simpl. change (?x :: ?l) with ([x] ++ l).
    rewrite count_rows_app, IH, count_rows_one.
    unfold is_won_row. simpl. rewrite andb_false_r. reflexivity.
Qed.

(** One guess on a game with three won rows. *)
Lemma won_game_guess (guessTime endTime : string) (gameId : Z)
  (cardId : Js.value Z) (playerHand : option (list Js.element))
  (placementIndex roundNumber : Js.value Z) (c : conn) :
  3 <= count_rows (is_won_row gameId) (game_cards (store c)) ->
  let out := Untyped.postGuess guessTime endTime (Some gameId) cardId
               playerHand placementIndex roundNumber c in
  tx (snd out) = tx c /\
  3 <= count_rows (is_won_row gameId) (game_cards (store (snd out))) /\
  ((game_header gameId (snd out) = game_header gameId c /\
    exists status error, fst out = JsonError status error) \/
   (exists status body,
       fst out = Json status body /\
       game_header gameId (snd out) =
       map (fun _ => ("Won", endTime,
                      Z.of_nat (List.length (gb_currentCards body))))
         (game_header gameId c))).
Proof.
  intros Hwon out. subst out.
  assert (Hreject :
    forall r : response guess_body * conn,
      r = (JsonError 400 "Invalid input for guess.", c) ->
      tx (snd r) = tx c /\
      3 <= count_rows (is_won_row gameId) (game_cards (store (snd r))) /\
      ((game_header gameId (snd r) = game_header gameId c /\
        exists status error, fst r = JsonError status error) \/
       (exists status body,
           fst r = Json status body /\
           game_header gameId (snd r) =
           map (fun _ => ("Won", endTime,
                          Z.of_nat (List.length (gb_currentCards body))))
             (game_header gameId c)))).
  { intros r ->. simpl. split; [reflexivity|]. split; [exact Hwon|].
    left. split; [reflexivity | eauto]. }
  destruct playerHand as [playerHand|]; [|apply Hreject; reflexivity].
  destruct (Js.isNaN cardId || Js.isNaN placementIndex || Js.isNaN roundNumber)
    eqn:Hvalid.
  { apply Hreject. unfold Untyped.postGuess. rewrite Hvalid. reflexivity. }
  clear Hreject.
  destruct (untyped_postGuess_effect guessTime endTime gameId cardId
              playerHand placementIndex roundNumber c Hvalid)
    as [Htx [[Herr Hs]|(id & x & ok & d1 & _ & _ & _ & Hins & H)]].
  - split; [exact Htx|]. split; [rewrite Hs; exact Hwon|].
    left. split; [apply game_header_same; rewrite Hs; reflexivity|].
    destruct Herr as [-> | ->]; eauto.
  - split; [exact Htx|].
    apply insert_game_card_ok in Hins.
    assert (Hgames : games d1 = games (store c)) by (rewrite Hins; reflexivity).
    assert (Hwon1 : 3 <= count_rows (is_won_row gameId) (game_cards d1)).
    { rewrite Hins. simpl. rewrite count_rows_app.
      match goal with
      | |- _ <= _ + count_rows ?p ?l => pose proof (count_rows_nonneg p l)
      end.
      lia. }
    cbv zeta in H. rewrite (proj2 (Z.leb_le _ _) Hwon1) in H.
    destruct H as [[Herr Hs]|[Hok Hs]].
    + split; [rewrite Hs; exact Hwon1|]. left.
      split; [apply game_header_same; rewrite Hs; exact Hgames | eauto].
    + split; [rewrite Hs; exact Hwon1|]. right.
      do 2 eexists. split; [exact Hok|].
      cbn [gb_currentCards].
      rewrite <- (game_header_same gameId c (mkConn d1 None []) Hgames).
      apply game_header_updated. rewrite Hs. reflexivity.
Qed.

Lemma round_on_other_game (gameId g : Z) (d d' : db) :
  g <> gameId ->
  (d' = d \/
   exists id status round guessTime flag d1,
     insert_game_card g id status round guessTime flag d = (Ok tt, d1) /\
     (d' = d1 \/
      exists endTime outcome n,
        d' = snd (update_game endTime outcome n g d1))) ->
  same_game gameId d d'.
Proof.
  intros Hne [->|(id & status & round & guessTime & flag & d1 & Hins & H)].
  - apply same_game_refl.
  - pose proof (same_game_after_insert gameId g id status round guessTime flag
                  d d1 (not_eq_sym Hne) Hins) as H1.
    destruct H as [->|(endTime & outcome & n & ->)]; [exact H1|].
    apply (same_game_trans gameId d d1); [exact H1|].
    apply same_game_after_update. exact (not_eq_sym Hne).
Qed.

Lemma won_step (gameId : Z) (req : request) (c : conn) :
  db_ok (store c) -> tx c = None ->
  3 <= count_rows (is_won_row gameId) (game_cards (store c)) ->
  Forall (outcome_is "Won") (game_header gameId c) ->
  ~ timeout_of gameId req ->
  db_ok (store (serve req c)) /\ tx (serve req c) = None /\
  3 <= count_rows (is_won_row gameId) (game_cards (store (serve req c))) /\
  Forall (outcome_is "Won") (game_header gameId (serve req c)).
Proof.
  intros Hok Htx Hwon Hall Hreq.
  assert (Hread : forall c' : conn,
             store c' = store c /\ tx c' = tx c ->
             db_ok (store c') /\ tx c' = None /\
             3 <= count_rows (is_won_row gameId) (game_cards (store c')) /\
             Forall (outcome_is "Won") (game_header gameId c')).
  { intros c' [Hs Ht]. rewrite (game_header_same gameId c c') by (rewrite Hs; reflexivity).
    rewrite Hs, Ht. auto. }
  assert (Hother : forall c' : conn,
             conn_ok c' -> tx c' = tx c ->
             same_game gameId (store c) (store c') ->
             db_ok (store c') /\ tx c' = None /\
             3 <= count_rows (is_won_row gameId) (game_cards (store c')) /\
             Forall (outcome_is "Won") (game_header gameId c')).
  { intros c' [Hok' _] Ht Hsame.
    rewrite (same_game_header gameId c c' Hsame).
    destruct (same_game_views gameId _ _ Hsame) as (_ & _ & Hw & _).
    rewrite Hw, Ht. auto. }
  pose proof (idle_conn_ok c Hok Htx) as Hconn.
  destruct req as [picks startTime userId | picks g
                  | guessTime endTime g cardId playerHand placementIndex
                      roundNumber
                  | guessTime endTime g cardId roundNumber
                  | userId | picks picksNew
                  | initialCards newCardId placementIndex];
    cbn [serve].
  - (* start-game *)
    destruct (postGamesStart picks startTime userId c) as [resp c'] eqn:Hrun.
    pose proof (keeps_postGamesStart picks startTime userId c Hconn) as Hok'.
    rewrite Hrun in Hok'. simpl snd in *.
    destruct (postGamesStart_effect picks startTime userId c _ _ Htx Hrun)
      as [Ht [[_ Hs]|H]].
    + apply Hread. split; congruence.
    + cbv zeta in H. destruct H as (_ & _ & _ & Hs).
      destruct (won_game_exists gameId (store c) Hok) as [_ Hseq]; [lia|].
      split; [exact (proj1 Hok')|]. split; [exact Ht|].
      rewrite Hs. cbn [game_cards]. split.
      * rewrite count_rows_app, initial_rows_not_won. lia.
      * unfold game_header. rewrite Hs. cbn [store games].
        rewrite filter_app. cbn [filter g_id].
        destruct (Z.eqb_spec (games_seq (store c) + 1) gameId) as [E|_];
          [lia|].
        rewrite app_nil_r. exact Hall.
  - (* next-round *)
    apply Hread.
    destruct g as [g|]; [|split; reflexivity].
    apply reads_only_handle.
    apply reads_only_bind; [apply reads_only_query | intros involved].
    apply reads_only_bind; [apply reads_only_query | intros newCards].
    apply reads_only_ret.
  - (* guess *)
    pose proof (keeps_untyped_postGuess guessTime endTime g cardId playerHand
                  placementIndex roundNumber c Hconn) as Hok'.
    destruct g as [g|]; [|apply Hread; split; reflexivity].
    destruct (Z.eq_dec g gameId) as [->|Hne].
    + destruct (won_game_guess guessTime endTime gameId cardId playerHand
                  placementIndex roundNumber c Hwon) as (Ht & Hw & Hh).
      split; [exact (proj1 Hok')|]. split; [congruence|].
      split; [exact Hw|].
      destruct Hh as [[-> _]|(status & body & _ & ->)]; [exact Hall|].
      apply Forall_map, Forall_forall. reflexivity.
    + destruct playerHand as [playerHand|]; [|apply Hread; split; reflexivity].
      destruct (Js.isNaN cardId || Js.isNaN placementIndex
                || Js.isNaN roundNumber) eqn:Hvalid.
      { apply Hread. unfold Untyped.postGuess. rewrite Hvalid.
        split; reflexivity. }
      destruct (untyped_postGuess_effect guessTime endTime g cardId
                  playerHand placementIndex roundNumber c Hvalid)
        as [Ht H].
      apply (Hother _ Hok' Ht). apply (round_on_other_game gameId g _ _ Hne).
      destruct H as [[_ Hs]|(id & x & ok & d1 & _ & _ & _ & Hins & H)];
        [left; exact Hs|].
      right. do 5 eexists. exists d1. split; [exact Hins|].
      cbv zeta in H. destruct H as [[_ Hs]|[_ Hs]]; [left; exact Hs|].
      destruct (3 <=? _); [|destruct (3 <=? _)];
        [right; eauto | right; eauto | left; exact Hs].
  - (* lose-round *)
    pose proof (keeps_untyped_postLoseRound guessTime endTime g cardId
                  roundNumber c Hconn) as Hok'.
    destruct g as [g|]; [|apply Hread; split; reflexivity].
    assert (Hne : g <> gameId) by exact Hreq.
    destruct (untyped_postLoseRound_effect guessTime endTime g cardId
                roundNumber c) as [Ht H].
    apply (Hother _ Hok' Ht). apply (round_on_other_game gameId g _ _ Hne).
    destruct H as [[_ Hs]|(id & d1 & _ & Hins & H)]; [left; exact Hs|].
    right. do 5 eexists. exists d1. split; [exact Hins|].
    cbv zeta in H. destruct H as [[_ Hs]|[_ Hs]]; [left; exact Hs|].
    destruct (3 <=? _); [right; eauto | left; exact Hs].
  - (* history *)
    apply Hread. apply reads_only_handle.
    apply reads_only_bind; [|intros history; apply reads_only_ret].
    unfold getGameHistory.
    apply reads_only_bind; [apply reads_only_query | intros games].
    apply reads_only_map_all. intros game.
    apply reads_only_bind; [apply reads_only_query | intros rows].
    apply reads_only_ret.
  - (* demo start *)
    apply Hread. apply reads_only_handle.
    apply reads_only_bind; [apply reads_only_query | intros initialCards].
    destruct (List.length initialCards <? 3)%nat; [apply reads_only_ret|].
    apply reads_only_bind; [apply reads_only_query | intros newCards].
    destruct newCards; apply reads_only_ret.
  - (* demo guess *)
    apply Hread. apply untyped_postDemoGuess_reads.
Qed.

(** C6, amended. Requests are served one after the other, from a
    connection with no transaction open and a database that meets the
    constraints of the schema.  Once the log of a game holds three `won`
    rows and its outcome is Won, the outcome is Won after every sequence
    of requests that holds no timeout for that game, whatever the requests
    carry and whatever fails on the way.  After such a sequence a guess on
    the game answered with an error leaves outcome, end timestamp and
    collected count as they are, and a guess answered with a body writes
    Won again, with the new end timestamp and the size of the hand the
    body returns; with healthy storage a guess that passes the checks,
    for a card of the catalog not yet on the log of the game and a hand
    without [null] elements, is answered 200. *)
Theorem won_outcome_survives_guesses (gameId : Z) (c : conn)
  (reqs : list request) :
  db_ok (store c) -> tx c = None ->
  3 <= count_rows (is_won_row gameId) (game_cards (store c)) ->
  Forall (outcome_is "Won") (game_header gameId c) ->
  Forall (fun req => ~ timeout_of gameId req) reqs ->
  let c' := serve_all reqs c in
  game_header gameId c' <> [] /\
  Forall (outcome_is "Won") (game_header gameId c') /\
  (forall guessTime endTime cardId playerHand placementIndex roundNumber,
      let out := Untyped.postGuess guessTime endTime (Some gameId) cardId
                   playerHand placementIndex roundNumber c' in
      (forall status error,
          fst out = JsonError status error ->
          game_header gameId (snd out) = game_header gameId c') /\
      (forall status body,
          fst out = Json status body ->
          game_header gameId (snd out) =
          map (fun _ => ("Won", endTime,
                         Z.of_nat (List.length (gb_currentCards body))))
            (game_header gameId c')) /\
      (forall hand id,
          playerHand = Some hand -> faults c' = [] ->
          placementIndex <> Js.Undefined -> roundNumber <> Js.Undefined ->
          Untyped.bind_param cardId = Some id ->
          In id (map c_id (cards (store c'))) ->
          ~ In (gameId, id)
              (map (fun r => (gc_game_id r, gc_card_id r))
                 (game_cards (store c'))) ->
          ~ In Js.NullElement hand ->
          exists body c'', out = (Json 200 body, c''))).
Proof.
  intros Hok Htx Hwon Hall Hreqs. cbv zeta.
  assert (Hinv : db_ok (store (serve_all reqs c)) /\
                 tx (serve_all reqs c) = None /\
                 3 <= count_rows (is_won_row gameId)
                        (game_cards (store (serve_all reqs c))) /\
                 Forall (outcome_is "Won")
                   (game_header gameId (serve_all reqs c))).
  { unfold serve_all. revert c Hok Htx Hwon Hall.
    induction Hreqs as [|req rest Hreq _ IH]; intros c Hok Htx Hwon Hall.
    - simpl. auto.
    - simpl. destruct (won_step gameId req c Hok Htx Hwon Hall Hreq)
        as (Hok' & Htx' & Hwon' & Hall').
      apply IH; assumption. }
  destruct Hinv as (Hok' & Htx' & Hwon' & Hall').
  split; [|split; [exact Hall'|]].
  - apply game_header_nonempty.
    apply (won_game_exists gameId _ Hok'). lia.
  - intros guessTime endTime cardId playerHand placementIndex roundNumber.
    destruct (won_game_guess guessTime endTime gameId cardId playerHand
                placementIndex roundNumber (serve_all reqs c) Hwon')
      as (_ & _ & Hh).
    split.
    + intros status error Herr.
      destruct Hh as [[Hsame _]|(status' & body & Hok'' & _)];
        [exact Hsame | congruence].
    + split.
      * intros status body Hbody.
        destruct Hh
          as [[_ (status' & error & Herr)]|(status' & body' & Hb & Hnew)];
          [congruence|].
        rewrite Hbody in Hb. injection Hb as _ <-. exact Hnew.
      * intros hand id -> Hf Hp Hr Hid Hcard Hfree Hnull.
        apply (untyped_postGuess_answers guessTime endTime gameId cardId hand
                 placementIndex roundNumber (serve_all reqs c) id Hf Hp Hr
                 Hid Hcard); [|exact Hfree | exact Hnull].
        apply (won_game_exists gameId _ Hok'). lia.
Qed.

Lemma won_game_conn_ok : conn_ok (snd after_right_3).
Proof.
  assert (H0 : conn_ok table_started)
    by exact (keeps_postGamesStart _ _ _ table_conn table_conn_ok).
  assert (H1 : conn_ok (snd after_right_1))
    by exact (keeps_postGuess _ _ _ _ _ _ _ table_started H0).
  assert (H2 : conn_ok (snd after_right_2))
    by exact (keeps_postGuess _ _ _ _ _ _ _ (snd after_right_1) H1).
  exact (keeps_postGuess _ _ _ _ _ _ _ (snd after_right_2) H2).
Qed.

Lemma won_outcome_survives_guesses_witness :
  game_header 1 (serve_all requests_after_win (snd after_right_3)) <> [] /\
  Forall (outcome_is "Won")
    (game_header 1 (serve_all requests_after_win (snd after_right_3))).
Proof.
  assert (Hidle : tx (snd after_right_3) = None) by (vm_compute; reflexivity).
  assert (Hwon : 3 <= count_rows (is_won_row 1)
                        (game_cards (store (snd after_right_3))))
    by (vm_compute; discriminate).
  assert (Hall : Forall (outcome_is "Won") (game_header 1 (snd after_right_3)))
    by (vm_compute; constructor; [reflexivity | constructor]).
  assert (Hreqs : Forall (fun req => ~ timeout_of 1 req) requests_after_win).
  { repeat constructor; simpl; try (intros H; exact H).
    intros H. discriminate H. }
  destruct (won_outcome_survives_guesses 1 (snd after_right_3)
              requests_after_win (proj1 won_game_conn_ok) Hidle Hwon Hall
              Hreqs) as (Hsome & Hstill & _).
  split; [exact Hsome | exact Hstill].
Defined.

(** The run above: the wrong guess and the right guess both write Won
    again; and a timeout on the won game, once three lost rounds are on its
    log, turns it into Lost. *)
Example won_game_through_requests :
  game_header 1 (snd after_right_3) =
  [("Won", "2025-06-02T09:01:30.000Z", 6)] /\
  game_header 1 (serve_all requests_after_win (snd after_right_3)) =
  [("Won", "2025-06-02T09:04:00.000Z", 7)] /\
  game_header 1 (snd guess_after_lost) =
  [("Won", "2025-06-02T09:02:40.000Z", 6)] /\
  game_header 1
    (serve (LoseRound "2025-06-02T09:03:00.000Z" "2025-06-02T09:03:00.000Z"
              (Some 1) (Js.Num 10) (Js.Num 7))
       (snd guess_after_lost)) =
  [("Lost", "2025-06-02T09:03:00.000Z", 6)].
Proof. vm_compute. repeat split. Qed.

(** ** The event log only grows *)

Lemma only_appends_refl (d : db) : only_appends d d.
Proof.
  repeat split; exists []; symmetry; apply app_nil_r.
Qed.

Lemma only_appends_trans (d1 d2 d3 : db) :
  only_appends d1 d2 -> only_appends d2 d3 -> only_appends d1 d3.
Proof.
  intros (U1 & C1 & (r1 & R1) & (i1 & I1)) (U2 & C2 & (r2 & R2) & (i2 & I2)).
  split; [congruence|]. split; [congruence|]. split.
  - exists (r1 ++ r2). rewrite R2, R1, app_assoc. reflexivity.
  - exists (i1 ++ i2). rewrite I2, I1, map_app, app_assoc. reflexivity.
Qed.

Lemma only_appends_insert (gameId cardId : Z) (status : string)
  (round : option Z) (guessTime : option string) (flag : option Z)
  (d d1 : db) :
  insert_game_card gameId cardId status round guessTime flag d = (Ok tt, d1) ->
  only_appends d d1.
Proof.
  intros H. apply insert_game_card_ok in H. subst d1.
  split; [reflexivity|]. split; [reflexivity|]. split.
  - eexists. reflexivity.
  - exists []. symmetry. apply app_nil_r.
Qed.

Lemma update_game_identity (endTime outcome : string) (n gameId : Z)
  (d : db) :
  map game_identity (games (snd (update_game endTime outcome n gameId d))) =
  map game_identity (games d).
Proof.
  simpl. rewrite map_map. apply map_ext. intros g.
  destruct (g_id g =? gameId); reflexivity.
Qed.

Lemma only_appends_update (endTime outcome : string) (n gameId : Z) (d : db) :
  only_appends d (snd (update_game endTime outcome n gameId d)).
Proof.
  split; [reflexivity|]. split; [reflexivity|]. split.
  - exists []. symmetry. apply app_nil_r.
  - exists []. rewrite update_game_identity. symmetry. apply app_nil_r.
Qed.

(** X24. From a connection with no transaction open the writing handlers
    never delete or rewrite an event and never delete a game: after
    start-game, guess or lose-round, whatever the request carries and
    whatever the answer, users and catalog are unchanged, the event log
    is the old log with rows added at the end, and the games keep id,
    user and start time in place, with new games added at the end. *)
Theorem handlers_only_append (c : conn) :
  tx c = None ->
  (forall picks startTime userId,
      only_appends (store c)
        (store (snd (postGamesStart picks startTime userId c)))) /\
  (forall guessTime endTime gameId cardId playerHand placementIndex
          roundNumber,
      only_appends (store c)
        (store (snd (Untyped.postGuess guessTime endTime gameId cardId
                       playerHand placementIndex roundNumber c)))) /\
  (forall guessTime endTime gameId cardId roundNumber,
      only_appends (store c)
        (store (snd (Untyped.postLoseRound guessTime endTime gameId cardId
                       roundNumber c)))).
Proof.
  intros Htx. split; [|split].
  - intros picks startTime userId.
    destruct (postGamesStart picks startTime userId c) as [resp c'] eqn:Hrun.
    destruct (postGamesStart_effect picks startTime userId c _ _ Htx Hrun)
      as [_ [[_ Hs]|H]]; simpl snd.
    + rewrite Hs. apply only_appends_refl.
    + cbv zeta in H. destruct H as (_ & _ & _ & Hs). rewrite Hs.
      split; [reflexivity|]. split; [reflexivity|]. split.
      * eexists. reflexivity.
      * eexists. cbn [games]. rewrite map_app. reflexivity.
  - intros guessTime endTime gameId cardId playerHand placementIndex
      roundNumber.
    destruct gameId as [gameId|]; [|apply only_appends_refl].
    destruct playerHand as [playerHand|]; [|apply only_appends_refl].
    destruct (Js.isNaN cardId || Js.isNaN placementIndex
              || Js.isNaN roundNumber) eqn:Hvalid.
    { unfold Untyped.postGuess. rewrite Hvalid. apply only_appends_refl. }
    destruct (untyped_postGuess_effect guessTime endTime gameId cardId
                playerHand placementIndex roundNumber c Hvalid)
      as [_ [[_ Hs]|(id & x & ok & d1 & _ & _ & _ & Hins & H)]].
    + rewrite Hs. apply only_appends_refl.
    + cbv zeta in H. apply only_appends_insert in Hins.
      destruct H as [[_ Hs]|[_ Hs]]; rewrite Hs; [exact Hins|].
      destruct (3 <=? _); [|destruct (3 <=? _)]; try exact Hins;
        apply (only_appends_trans _ d1); try exact Hins;
        apply only_appends_update.
  - intros guessTime endTime gameId cardId roundNumber.
    destruct gameId as [gameId|]; [|apply only_appends_refl].
    destruct (untyped_postLoseRound_effect guessTime endTime gameId cardId
                roundNumber c) as [_ [[_ Hs]|(id & d1 & _ & Hins & H)]].
    + rewrite Hs. apply only_appends_refl.
    + cbv zeta in H. apply only_appends_insert in Hins.
      destruct H as [[_ Hs]|[_ Hs]]; rewrite Hs; [exact Hins|].
      destruct (3 <=? _); [|exact Hins].
      apply (only_appends_trans _ d1); [exact Hins|].
      apply only_appends_update.
Qed.

Lemma handlers_only_append_witness :
  only_appends (store lost_game)
    (store (snd (Untyped.postGuess "2025-06-02T09:02:40.000Z"
                   "2025-06-02T09:02:40.000Z" (Some 1) (Js.Num 9)
                   (Some (map Untyped.of_entry (entries_of [1; 2; 3; 4; 5])))
                   (Js.Num 5) (Js.Num 6) lost_game))).
Proof.
  assert (Hidle : tx lost_game = None) by (vm_compute; reflexivity).
  destruct (handlers_only_append lost_game Hidle) as (_ & Hguess & _).
  exact (Hguess "2025-06-02T09:02:40.000Z" "2025-06-02T09:02:40.000Z"
           (Some 1) (Js.Num 9)
           (Some (map Untyped.of_entry (entries_of [1; 2; 3; 4; 5])))
           (Js.Num 5) (Js.Num 6)).
Defined.
